(** * colour_matcher: a shallow embedding of the matcher, the validator and
      the pixel scanners, with the properties of its specification.

    The TypeScript sources are embedded function by function:

    - [src/color-matcher.ts]              ->  Module [ColorMatcher]
    - the validator ([ColorValidator])    ->  Module [ColorValidator]
    - [src/reference-color-extractor.ts]  ->  Module [ReferenceColorExtractor]
    - the swatch extractor                ->  Module [SwatchExtractor]
    - [PDFProcessor.rgbToHex]             ->  Module [PDFProcessor]
    - the validation step of [main]       ->  Module [Main]
    - the rows of the simple CSV          ->  Module [CSVGenerator]
    - the operations of the language they use  ->  Module [JS]

    The rasterizer, the text recognition and the writers are external: a
    function that consumes their results takes these as arguments.

    Conventions.  A JavaScript number that holds a pixel channel, a
    coordinate, a counter or a sum of such is an integer far below 2^53, on
    which binary64 addition, subtraction and multiplication are exact: these
    are modelled in [Z].  Wherever the source leaves the integers
    ([Math.sqrt], [/], a comparison with [0.1]) the model switches to Rocq's
    primitive binary64 floats, which are the same IEEE 754 numbers as
    JavaScript's.  A string is the list of its UTF-16 code units, here
    restricted to units below 256 (Rocq's [ascii]). *)

From stdpp Require Import list.
From Stdlib Require Import ZArith Lia Bool List Ascii String.
From Stdlib Require Import Floats Uint63 DecimalString.
Import ListNotations.

#[local] Set Warnings "-inexact-float".

#[local] Open Scope string_scope.
#[local] Open Scope list_scope.
#[local] Open Scope Z_scope.

(** ** JavaScript numbers *)

Module JS.

(** The number with integer value [z] (exact for |z| < 2^53). *)
Definition of_Z (z : Z) : float :=
  if z <? 0 then PrimFloat.opp (PrimFloat.of_uint63 (Uint63.of_Z (- z)))
  else PrimFloat.of_uint63 (Uint63.of_Z z).

(** [floor] of the exact value of a finite float. *)
Definition SFfloor (x : spec_float) : option Z :=
  match x with
  | S754_zero _ => Some 0
  | S754_finite s m e =>
      let v := if s then Z.neg m else Z.pos m in
      Some (if 0 <=? e then v * 2 ^ e else v / 2 ^ (- e))
  | _ => None
  end.

(** The integer nearest to the exact value of a finite float, ties going
    up: what [Math.round] returns. *)
Definition SFround (x : spec_float) : option Z :=
  match x with
  | S754_zero _ => Some 0
  | S754_finite s m e =>
      let v := if s then Z.neg m else Z.pos m in
      Some (if 0 <=? e then v * 2 ^ e
            else (v + 2 ^ (- e - 1)) / 2 ^ (- e))
  | _ => None
  end.

Definition is_negative (x : spec_float) : bool :=
  match x with
  | S754_zero s | S754_infinity s | S754_finite s _ _ => s
  | S754_nan => false
  end.

(** An integer result as a number; a zero keeps the sign of the argument
    ([Math.round(-0.2)] is [-0]). *)
Definition integral (x : float) (r : option Z) : float :=
  match r with
  | Some z =>
      if (z =? 0) && is_negative (Prim2SF x) then PrimFloat.neg_zero
      else of_Z z
  | None => x
  end.

(** [Math.floor] and [Math.round]; NaN and the infinities are returned
    unchanged. *)
Definition Math_floor (x : float) : float := integral x (SFfloor (Prim2SF x)).
Definition Math_round (x : float) : float := integral x (SFround (Prim2SF x)).

(** The value of an integral number, for the places where the source uses
    the result of [Math.floor] or [Math.round] as a coordinate or channel
    (0 stands in for NaN and the infinities, which no caller produces). *)
Definition to_Z (x : float) : Z := default 0 (SFfloor (Prim2SF x)).

(** [Math.max] and [Math.min] on two numbers: NaN if either is NaN (of two
    zeros of different signs the first is returned, a difference that no
    comparison sees). *)
Definition is_nan (x : float) : bool := negb (PrimFloat.eqb x x).

Definition Math_max (x y : float) : float :=
  if is_nan x || is_nan y then PrimFloat.nan
  else if PrimFloat.ltb x y then y else x.

Definition Math_min (x y : float) : float :=
  if is_nan x || is_nan y then PrimFloat.nan
  else if PrimFloat.ltb y x then y else x.

(** *** Strings *)

(** White space of [String.prototype.trim] and of the regular expression
    class [\s], among the code units below 256. *)
Definition isWhiteSpace (c : ascii) : bool :=
  let n := N_of_ascii c in
  ((9 <=? n) && (n <=? 13) || (n =? 32) || (n =? 160))%N.

Fixpoint trimStart (s : string) : string :=
  match s with
  | String c s' => if isWhiteSpace c then trimStart s' else s
  | EmptyString => EmptyString
  end.

(** [trimEnd] keeps a character when it is not white space or when
    something that is kept follows it. *)
Fixpoint trimEnd (s : string) : string :=
  match s with
  | String c s' =>
      match trimEnd s' with
      | EmptyString => if isWhiteSpace c then EmptyString else String c EmptyString
      | t => String c t
      end
  | EmptyString => EmptyString
  end.

Definition trim (s : string) : string := trimEnd (trimStart s).

(** [s.split(sep)] for a one-character separator: never empty. *)
Fixpoint split (sep : ascii) (s : string) : list string :=
  match s with
  | EmptyString => [EmptyString]
  | String c s' =>
      if Ascii.eqb c sep then EmptyString :: split sep s'
      else match split sep s' with
           | w :: ws => String c w :: ws
           | [] => [String c EmptyString]
           end
  end.

(** [s.substring(i)] and [s.substring(0, n)] for in-range or overlong
    bounds. *)
Fixpoint drop_chars (n : nat) (s : string) : string :=
  match n, s with
  | S n', String _ s' => drop_chars n' s'
  | _, _ => s
  end.

Fixpoint take_chars (n : nat) (s : string) : string :=
  match n, s with
  | S n', String c s' => String c (take_chars n' s')
  | _, _ => EmptyString
  end.

(** [s.includes(t)] *)
Fixpoint includes (s t : string) : bool :=
  String.prefix t s ||
  match s with
  | String _ s' => includes s' t
  | EmptyString => false
  end.

(** [s.padStart(n, '0')] *)
Definition padStart0 (n : nat) (s : string) : string :=
  (String.concat "" (repeat "0" (n - String.length s)%nat) ++ s)%string.

(** [z.toString()] of an integer number. *)
Definition toString (z : Z) : string := NilZero.string_of_int (Z.to_int z).

(** [n.toString(16)] of an integer number: lower-case digits. *)
Definition hexDigit (d : Z) : ascii :=
  ascii_of_N (Z.to_N (if (d <? 10)%Z then 48 + d else 87 + d)).

Fixpoint toString16_aux (fuel : nat) (n : Z) (acc : string) : string :=
  match fuel with
  | O => acc
  | S fuel' =>
      let acc' := String (hexDigit (n mod 16)) acc in
      if (n <? 16)%Z then acc' else toString16_aux fuel' (n / 16) acc'
  end.

Definition toString16 (n : Z) : string :=
  if (n <? 0)%Z then ("-" ++ toString16_aux (S (Z.to_nat (Z.log2 (- n)))) (- n) "")%string
  else toString16_aux (S (Z.to_nat (Z.log2 n))) n "".

(** [s.toUpperCase()], on the letters a-z (the strings it is applied to
    here are hexadecimal numerals). *)
Definition upperChar (c : ascii) : ascii :=
  let n := N_of_ascii c in
  if ((97 <=? n) && (n <=? 122))%N then ascii_of_N (n - 32) else c.

Fixpoint toUpperCase (s : string) : string :=
  match s with
  | String c s' => String (upperChar c) (toUpperCase s')
  | EmptyString => EmptyString
  end.

(** The truth value of a string: the empty string is falsy. *)
Definition truthy (s : string) : bool :=
  match s with EmptyString => false | _ => true end.

(** [a || b] on strings. *)
Definition or_else (a b : string) : string := if truthy a then a else b.

(** *** Arrays and buffers *)

(** [buf[i]] on a [Buffer] of bytes: [undefined] ([None]) outside it. *)
Definition byteAt (buf : list Z) (i : Z) : option Z :=
  if (i <? 0)%Z then None else buf !! Z.to_nat i.

(** An array that may have holes; reading a hole gives [undefined]. *)
Definition arrayGet {A} (a : list (option A)) (i : nat) : option A :=
  mjoin (a !! i).

(** [a[i] = v]: in range it overwrites, past the end it extends the array,
    leaving holes in between. *)
Definition arraySet {A} (a : list (option A)) (i : nat) (v : A)
  : list (option A) :=
  if (i <? List.length a)%nat then <[i := Some v]> a
  else (a ++ replicate (i - List.length a)%nat None ++ [Some v])%list.

(** [a.indexOf(true)] and [a.lastIndexOf(true)] on an array of booleans:
    -1 when there is none. *)
Fixpoint indexOf_true (a : list bool) : Z :=
  match a with
  | [] => -1
  | true :: _ => 0
  | false :: a' => let i := indexOf_true a' in if (i <? 0)%Z then -1 else i + 1
  end.

Fixpoint lastIndexOf_true (a : list bool) : Z :=
  match a with
  | [] => -1
  | v :: a' =>
      let i := lastIndexOf_true a' in
      if (0 <=? i)%Z then i + 1 else if v then 0 else -1
  end.

(** The values of [v] in [for (v = from; v < to; v += step)], for a
    positive [step]; [n] bounds their number. *)
Fixpoint strided_from (n : nat) (v to step : Z) : list Z :=
  match n with
  | O => []
  | S n' => if (v <? to)%Z then v :: strided_from n' (v + step) to step else []
  end.

Definition strided (from to step : Z) : list Z :=
  strided_from (Z.to_nat (to - from)) from to step.

(** 32-bit integers of the shift operators. *)
Definition ToInt32 (z : Z) : Z := ((z + 2 ^ 31) mod 2 ^ 32 - 2 ^ 31)%Z.
Definition shl (a k : Z) : Z := ToInt32 (Z.shiftl (ToInt32 a) (k mod 32)).

End JS.

(** ** Data model ([types.ts])

    Each interface is a record in a module of its name, so that the fields
    keep the names they have in the source. *)

Module RGB.
Record t := mk { r : Z; g : Z; b : Z }.
End RGB.

Module BoundingBox.
Record t := mk { x : Z; y : Z; width : Z; height : Z }.
End BoundingBox.

Module ReferenceColor.
Record t := mk {
  colorCode : string;
  colorName : string;
  pantoneColor : string;
  rgb : RGB.t;
  hex : string;
  boundingBox : BoundingBox.t
}.
End ReferenceColor.

Module ColorBox.
Record t := mk {
  rgb : RGB.t;
  hex : string;
  boundingBox : BoundingBox.t;
  bottomRightPixel : RGB.t
}.
End ColorBox.

Module SwatchGroup.
Record t := mk {
  styleNumber : string;
  styleName : string;
  colors : list ColorBox.t;
  boundingBox : BoundingBox.t
}.
End SwatchGroup.

(** An 8-bit channel triple, as the rasterizer delivers and the samplers
    average. *)
Definition channel (c : Z) : Prop := 0 <= c <= 255.

Definition rgb8 (c : RGB.t) : Prop :=
  channel (RGB.r c) /\ channel (RGB.g c) /\ channel (RGB.b c).

(** ** [PDFProcessor] (static helpers) *)

Module PDFProcessor.

(** [`#${((1 << 24) + (r << 16) + (g << 8) + b).toString(16).slice(1).toUpperCase()}`] *)
Definition rgbToHex (r g b : Z) : string :=
  ("#" ++ JS.toUpperCase
            (JS.drop_chars 1
               (JS.toString16 (JS.shl 1 24 + JS.shl r 16 + JS.shl g 8 + b))))%string.

End PDFProcessor.

(** ** [ReferenceColorExtractor] *)

(** A colour box of the reference row, with the colour sampled in it; a
    channel read outside the buffer is [undefined], and [NaN] once averaged
    ([None]). *)
Module Sampled.
Record t := mk { r : option Z; g : option Z; b : option Z }.
End Sampled.

Module ColorRegionBox.
Record t := mk { x : Z; y : Z; width : Z; height : Z; avgColor : Sampled.t }.
End ColorRegionBox.

Module ReferenceColorExtractor.

(** The literal [0.1]. *)
Definition one_tenth : float := 0x1.999999999999ap-4%float.

Definition isBrightRedPixel (color : RGB.t) : bool :=
  (180 <? RGB.r color) && (RGB.g color <? 100) && (RGB.b color <? 100).

Definition isWhiteOrNearWhite (color : RGB.t) : bool :=
  let brightness :=
    PrimFloat.div (JS.of_Z (RGB.r color + RGB.g color + RGB.b color)) 3 in
  PrimFloat.ltb 240 brightness.

Definition isWhiteSpacePixel (color : RGB.t) : bool :=
  let brightness :=
    PrimFloat.div (JS.of_Z (RGB.r color + RGB.g color + RGB.b color)) 3 in
  PrimFloat.ltb 230 brightness.

Definition isColorBoxPixel (color : RGB.t) : bool :=
  let brightness :=
    PrimFloat.div (JS.of_Z (RGB.r color + RGB.g color + RGB.b color)) 3 in
  PrimFloat.ltb brightness 250 && PrimFloat.ltb 20 brightness.

(** *** [findRedAnchorBoxes] *)

Section FindRedAnchorBoxes.

Variables (width height : Z) (rawBuffer : list Z).

Let channels : Z := 3.

Definition leftMarginWidth : Z :=
  JS.to_Z (JS.Math_floor (PrimFloat.mul (JS.of_Z width) one_tenth)).

(** [redPixelMatrix[y][x]] *)
Definition redPixelAt (y x : Z) : bool :=
  let pixelIndex := (y * width + x) * channels in
  if pixelIndex + 2 <? Z.of_nat (List.length rawBuffer) then
    match JS.byteAt rawBuffer pixelIndex,
          JS.byteAt rawBuffer (pixelIndex + 1),
          JS.byteAt rawBuffer (pixelIndex + 2) with
    | Some r, Some g, Some b => isBrightRedPixel (RGB.mk r g b)
    | _, _, _ => false
    end
  else false.

Definition redPixelRow (y : Z) : list bool :=
  map (redPixelAt y) (seqZ 0 leftMarginWidth).

Definition redPixelMatrix : list (list bool) :=
  map redPixelRow (seqZ 0 height).

(** [redPixelMatrix[y].filter(Boolean).length] *)
Definition redPixelCount (row : list bool) : Z :=
  Z.of_nat (List.length (List.filter (fun v : bool => v) row)).

(** [redPixelPercentage > 0.1] *)
Definition significantRed (row : list bool) : bool :=
  let redPixelPercentage :=
    PrimFloat.div (JS.of_Z (redPixelCount row)) (JS.of_Z leftMarginWidth) in
  PrimFloat.ltb one_tenth redPixelPercentage.

(** The state of the grouping loop: the box being grown and the boxes
    already pushed. *)
Definition closeBox (currentBox : option BoundingBox.t)
    (redBoxes : list BoundingBox.t) : list BoundingBox.t :=
  match currentBox with
  | Some box =>
      if 8 <=? BoundingBox.height box then redBoxes ++ [box] else redBoxes
  | None => redBoxes
  end.

(** One iteration of [for (let y = 0; y < height; y++)]. *)
Definition groupRow (y : Z) (row : list bool)
    (st : option BoundingBox.t * list BoundingBox.t)
  : option BoundingBox.t * list BoundingBox.t :=
  let '(currentBox, redBoxes) := st in
  if significantRed row then
    let leftmostRed := JS.indexOf_true row in
    let rightmostRed := JS.lastIndexOf_true row in
    if negb (leftmostRed =? -1) && negb (rightmostRed =? -1) then
      let rowWidth := rightmostRed - leftmostRed + 1 in
      if 5 <=? rowWidth then
        match currentBox with
        | None => (Some (BoundingBox.mk leftmostRed y rowWidth 1), redBoxes)
        | Some box =>
            (Some (BoundingBox.mk (BoundingBox.x box) (BoundingBox.y box)
                     (Z.max (BoundingBox.width box) rowWidth)
                     (BoundingBox.height box + 1)),
             redBoxes)
        end
      else (None, closeBox currentBox redBoxes)
    else st
  else (None, closeBox currentBox redBoxes).

Fixpoint groupRows (rows : list (list bool)) (y : Z)
    (st : option BoundingBox.t * list BoundingBox.t)
  : option BoundingBox.t * list BoundingBox.t :=
  match rows with
  | [] => st
  | row :: rows' => groupRows rows' (y + 1) (groupRow y row st)
  end.

(** [findRedAnchorBoxes]; [None] is the error thrown when the image has
    no width or no height. *)
Definition findRedAnchorBoxes : option (list BoundingBox.t) :=
  if (width =? 0) || (height =? 0) then None
  else
    let '(currentBox, redBoxes) := groupRows redPixelMatrix 0 (None, []) in
    (* Don't forget the last box *)
    Some (closeBox currentBox redBoxes).

End FindRedAnchorBoxes.

(** *** The colour boxes of an anchor row ([findColorBoxesInRow]) *)

(** The sum of a channel over the samples; an [undefined] channel makes it
    [NaN] ([None]), and so it stays. *)
Definition addChannel (acc sample : option Z) : option Z :=
  match acc, sample with
  | Some a, Some v => Some (a + v)
  | _, _ => None
  end.

(** [Math.round(sum / samples.length)] per channel; black for no
    sample. *)
Definition calculateAverageColor (samples : list Sampled.t) : Sampled.t :=
  match samples with
  | [] => Sampled.mk (Some 0) (Some 0) (Some 0)
  | _ :: _ =>
      let sum :=
        fold_left
          (fun acc sample =>
             Sampled.mk (addChannel (Sampled.r acc) (Sampled.r sample))
               (addChannel (Sampled.g acc) (Sampled.g sample))
               (addChannel (Sampled.b acc) (Sampled.b sample)))
          samples (Sampled.mk (Some 0) (Some 0) (Some 0)) in
      let n := JS.of_Z (Z.of_nat (List.length samples)) in
      let mean (total : option Z) : option Z :=
        match total with
        | Some t => Some (JS.to_Z (JS.Math_round (PrimFloat.div (JS.of_Z t) n)))
        | None => None
        end in
      Sampled.mk (mean (Sampled.r sum)) (mean (Sampled.g sum)) (mean (Sampled.b sum))
  end.

(** [isWhiteOrNearWhite] on what was read: with an [undefined] channel the
    brightness is [NaN], which is not above 240. *)
Definition isWhiteSample (color : Sampled.t) : bool :=
  match Sampled.r color, Sampled.g color, Sampled.b color with
  | Some r, Some g, Some b => isWhiteOrNearWhite (RGB.mk r g b)
  | _, _, _ => false
  end.

Section FindColorBoxesInRow.

Variables (width height : Z) (rawBuffer : list Z).

Let channels : Z := 3.

(** The pixel at (x, y) when [pixelIndex + 2 < rawBuffer.length]. *)
Definition guardedPixel (x y : Z) : option Sampled.t :=
  let pixelIndex := (y * width + x) * channels in
  if pixelIndex + 2 <? Z.of_nat (List.length rawBuffer) then
    Some (Sampled.mk (JS.byteAt rawBuffer pixelIndex)
            (JS.byteAt rawBuffer (pixelIndex + 1))
            (JS.byteAt rawBuffer (pixelIndex + 2)))
  else None.

Definition sampleColorBoxRegion (startX endX startY endY : Z) : Sampled.t :=
  (* Sample ~10 points horizontally and ~5 points vertically *)
  let stepX :=
    Z.max 1 (JS.to_Z (JS.Math_floor (PrimFloat.div (JS.of_Z (endX - startX)) 10))) in
  let stepY :=
    Z.max 1 (JS.to_Z (JS.Math_floor (PrimFloat.div (JS.of_Z (endY - startY)) 5))) in
  let colorSamples :=
    y ← JS.strided startY endY stepY;
    x ← JS.strided startX endX stepX;
    match guardedPixel x y with
    | Some color => if negb (isWhiteSample color) then [color] else []
    | None => []
    end in
  match colorSamples with
  | [] =>
      (* Fallback: if no non-white pixels found, sample the center *)
      let centerY :=
        JS.to_Z (JS.Math_round (PrimFloat.div (JS.of_Z (startY + endY)) 2)) in
      let centerX :=
        JS.to_Z (JS.Math_round (PrimFloat.div (JS.of_Z (startX + endX)) 2)) in
      match guardedPixel centerX centerY with
      | Some color => color
      | None => Sampled.mk (Some 128) (Some 128) (Some 128) (* Default gray *)
      end
  | _ :: _ => calculateAverageColor colorSamples
  end.

Definition minimumWhiteGap : Z := 8.

(** The variables of the scan. *)
Definition RowScan : Type := bool * Z * Z * list ColorRegionBox.t.

(** The body of [for (let x = scanStartX; x < width; x++)]; [redBox] gives
    the rows that are sampled. *)
Definition rowScanStep (redBox : BoundingBox.t) (scanY : Z)
    (st : RowScan) (x : Z) : RowScan :=
  let '(inColorBox, colorBoxStart, consecutiveWhitePixels, colorBoxes) := st in
  let boxTop := BoundingBox.y redBox in
  let boxBottom := BoundingBox.y redBox + BoundingBox.height redBox in
  let boxHeight := BoundingBox.height redBox in
  match guardedPixel x scanY with
  | None => st
  | Some color =>
      let isWhite := isWhiteSample color in
      let consecutiveWhitePixels :=
        if isWhite then consecutiveWhitePixels + 1 else 0 in
      if negb isWhite && negb inColorBox then
        (* starting a new color box *)
        (true, x, 0, colorBoxes)
      else if (minimumWhiteGap <=? consecutiveWhitePixels) && inColorBox then
        (* ending current color box *)
        let colorBoxWidth := (x - minimumWhiteGap + 1) - colorBoxStart in
        (false, colorBoxStart, 0,
         if 8 <? colorBoxWidth then
           colorBoxes
           ++ [ColorRegionBox.mk colorBoxStart boxTop colorBoxWidth boxHeight
                 (sampleColorBoxRegion colorBoxStart (x - minimumWhiteGap + 1)
                    boxTop boxBottom)]
         else colorBoxes)
      else (inColorBox, colorBoxStart, consecutiveWhitePixels, colorBoxes)
  end.

(** [findColorBoxesInRow]; [None] is the error thrown when the image has
    no width or no height. *)
Definition findColorBoxesInRow (redBox : BoundingBox.t)
  : option (list ColorRegionBox.t) :=
  if (width =? 0) || (height =? 0) then None
  else
    let boxTop := BoundingBox.y redBox in
    let boxBottom := BoundingBox.y redBox + BoundingBox.height redBox in
    let boxHeight := BoundingBox.height redBox in
    (* Middle Y for scanning *)
    let scanY :=
      JS.to_Z
        (JS.Math_round
           (PrimFloat.add (JS.of_Z (BoundingBox.y redBox))
              (PrimFloat.div (JS.of_Z (BoundingBox.height redBox)) 2))) in
    (* Start scanning from right after the red box ([Math.round] of an
       integer) *)
    let scanStartX := BoundingBox.x redBox + BoundingBox.width redBox + 5 in
    let '(inColorBox, colorBoxStart, _, colorBoxes) :=
      foldl (rowScanStep redBox scanY) (false, 0, 0, [])
        (seqZ scanStartX (width - scanStartX)) in
    (* Handle case where last box extends to edge *)
    if inColorBox then
      let colorBoxWidth := width - colorBoxStart in
      if 8 <? colorBoxWidth then
        Some (colorBoxes
              ++ [ColorRegionBox.mk colorBoxStart boxTop colorBoxWidth boxHeight
                    (sampleColorBoxRegion colorBoxStart width boxTop boxBottom)])
      else Some colorBoxes
    else Some colorBoxes.

End FindColorBoxesInRow.

(** *** The last resort of [extractColorInfoEnhanced] *)

Definition generateFallbackColorCode (x : Z) (color : RGB.t) : string :=
  let section := JS.to_Z (JS.Math_floor (PrimFloat.div (JS.of_Z x) 200)) + 1 in
  let colorHash := Z.rem (RGB.r color + RGB.g color + RGB.b color) 1000 in
  ("C" ++ JS.toString section ++ JS.padStart0 3 (JS.toString colorHash))%string.

(** What the text recognition attempts of one region came to: the first
    attempt that parsed to a valid colour code ([bestColorInfo]), or else
    the first loose code pattern found in the joined text, cleaned, with the
    Pantone label found next to it, if any ([colorCodeMatch]).  The [null]
    that the source returns when cutting out the region or the recognition
    throws belongs to those external steps. *)
Module ParsedText.
Record t := mk {
  colorCode : string;
  colorName : string;
  pantoneColor : string
}.
End ParsedText.

Definition extractColorInfoEnhanced
    (bestColorInfo : option ParsedText.t)
    (colorCodeMatch : option (string * option string))
    (boundingBox : BoundingBox.t) (regionColor : RGB.t) : ReferenceColor.t :=
  let hex :=
    PDFProcessor.rgbToHex (RGB.r regionColor) (RGB.g regionColor)
      (RGB.b regionColor) in
  match bestColorInfo with
  | Some info =>
      ReferenceColor.mk (ParsedText.colorCode info) (ParsedText.colorName info)
        (ParsedText.pantoneColor info) regionColor hex boundingBox
  | None =>
      match colorCodeMatch with
      | Some (cleanedCode, pantoneMatch) =>
          ReferenceColor.mk cleanedCode ("Color " ++ cleanedCode)%string
            (default "Unknown" pantoneMatch) regionColor hex boundingBox
      | None =>
          (* Final fallback *)
          let fallbackColorCode :=
            generateFallbackColorCode (BoundingBox.x boundingBox) regionColor in
          ReferenceColor.mk fallbackColorCode
            ("Color at " ++ JS.toString (BoundingBox.x boundingBox))%string
            "Unknown" regionColor hex boundingBox
      end
  end.

End ReferenceColorExtractor.

(** ** [ColorValidator] *)

Module ExpectedColor.
Record t := mk { code : string; name : string; position : Z }.
End ExpectedColor.

Module Correction.
Record t := mk {
  originalIndex : nat;
  correctedColor : ReferenceColor.t;
  reason : string
}.
End Correction.

Module ValidationResult.
Record t := mk { isValid : bool; corrections : list Correction.t }.
End ValidationResult.

Module ColorValidator.

(** Expected reference colors based on the actual PDF structure. *)
Definition expectedColors : list ExpectedColor.t :=
  [ ExpectedColor.mk "B60002" "New Black" 15;
    ExpectedColor.mk "B10093" "Deep Depths" 75;
    ExpectedColor.mk "B50027" "Lemonade" 137;
    ExpectedColor.mk "B30192" "Chocolate" 198;
    ExpectedColor.mk "B30194" "Falcon Brown" 260;
    ExpectedColor.mk "B30193" "Clay" 322;
    ExpectedColor.mk "B30195" "Rose Gray" 384;
    ExpectedColor.mk "B10119" "Gardenia" 447;
    ExpectedColor.mk "B20162" "Coastline Blue" 508;
    ExpectedColor.mk "B20033" "Dazzling Blue" 570;
    ExpectedColor.mk "B20111" "Navy" 633 ].

Definition isDigit (c : ascii) : bool :=
  let n := N_of_ascii c in ((48 <=? n) && (n <=? 57))%N.

(** [!!colorCode.match(/^C\d{4}$/)] *)
Definition hasFallbackCode (colorCode : string) : bool :=
  match colorCode with
  | String c0 (String d1 (String d2 (String d3 (String d4 EmptyString)))) =>
      Ascii.eqb c0 "C" && isDigit d1 && isDigit d2 && isDigit d3 && isDigit d4
  | _ => false
  end.

Definition hasGenericName (colorName : string) : bool :=
  JS.includes colorName "Color at "
  || String.eqb colorName "Unknown"
  || (String.length colorName <? 3)%nat.

Definition isOCRFailure (extractedColor : ReferenceColor.t) : bool :=
  hasFallbackCode (ReferenceColor.colorCode extractedColor)
  || hasGenericName (ReferenceColor.colorName extractedColor).

Definition tolerance : Z := 200.

(** The first table entry within the tolerance, in table order. *)
Definition findExpectedColorByPosition (position : Z) : option ExpectedColor.t :=
  List.find
    (fun expected => Z.abs (position - ExpectedColor.position expected) <=? tolerance)
    expectedColors.

(** [{ ...extractedColor, colorCode: expectedColor.code, colorName: expectedColor.name }] *)
Definition correct (extractedColor : ReferenceColor.t)
    (expectedColor : ExpectedColor.t) : ReferenceColor.t :=
  ReferenceColor.mk
    (ExpectedColor.code expectedColor) (ExpectedColor.name expectedColor)
    (ReferenceColor.pantoneColor extractedColor)
    (ReferenceColor.rgb extractedColor)
    (ReferenceColor.hex extractedColor)
    (ReferenceColor.boundingBox extractedColor).

Definition reasonFor (expectedColor : ExpectedColor.t)
    (extractedColor : ReferenceColor.t) : string :=
  ("OCR failed, applied correction based on position. Expected "
   ++ ExpectedColor.code expectedColor ++ ", got "
   ++ ReferenceColor.colorCode extractedColor ++ ".")%string.

(** The body of the loop over [extractedColors], from index [i] on; the
    result is what the loop pushes, in order. *)
Fixpoint collectCorrections (i : nat) (extractedColors : list ReferenceColor.t)
  : list Correction.t :=
  match extractedColors with
  | [] => []
  | extractedColor :: rest =>
      let pushed :=
        if isOCRFailure extractedColor then
          match findExpectedColorByPosition
                  (BoundingBox.x (ReferenceColor.boundingBox extractedColor)) with
          | Some expectedColor =>
              [ Correction.mk i (correct extractedColor expectedColor)
                  (reasonFor expectedColor extractedColor) ]
          | None => []
          end
        else [] in
      pushed ++ collectCorrections (S i) rest
  end.

(** [validateAndCorrect]; the textual [summary] of the result is left out. *)
Definition validateAndCorrect (extractedColors : list ReferenceColor.t)
  : ValidationResult.t :=
  let corrections := collectCorrections 0 extractedColors in
  ValidationResult.mk (List.length corrections =? 0)%nat corrections.

(** [applyCorrections]: a copy of the array, then one assignment per
    correction, in order. *)
Definition applyCorrections (extractedColors : list ReferenceColor.t)
    (corrections : list Correction.t) : list (option ReferenceColor.t) :=
  fold_left
    (fun correctedColors correction =>
       JS.arraySet correctedColors (Correction.originalIndex correction)
         (Correction.correctedColor correction))
    corrections (map Some extractedColors).

End ColorValidator.

(** ** The pipeline ([main])

    The step of [main] between the extraction of the reference colours and
    the matching: the corrections are applied when the validation found
    some. *)

Module Main.

Definition finalColors (extractedColors : list ReferenceColor.t)
  : list (option ReferenceColor.t) :=
  let validationResult := ColorValidator.validateAndCorrect extractedColors in
  if negb (ValidationResult.isValid validationResult) then
    ColorValidator.applyCorrections extractedColors
      (ValidationResult.corrections validationResult)
  else map Some extractedColors.

End Main.

(** ** [SwatchExtractor] *)

Module RowBoundary.
Record t := mk { startY : Z; endY : Z; height : Z }.
End RowBoundary.

Module TextInfo.
Record t := mk { styleNumber : string; styleName : string }.
End TextInfo.

(** The horizontal extent of a swatch or of a colour box on a scan line. *)
Module Boundary.
Record t := mk { startX : Z; endX : Z }.
End Boundary.

(** The variables of the first pass of [findSwatchBoundariesInRow]. *)
Module SwatchScan.
Record t := mk {
  inSwatch : bool;
  consecutiveWhitePixels : Z;
  swatchStarts : list Z
}.
End SwatchScan.

(** The variables of the loop of [findColorBoxBoundaries]. *)
Module BoxScan.
Record t := mk {
  inColorBox : bool;
  colorBoxStartX : Z;
  consecutiveWhitePixels : Z;
  colorBoxes : list Boundary.t
}.
End BoxScan.

Module SwatchExtractor.

(** A pixel as read from the buffer without a bounds check: a channel
    read past the end is [undefined]. *)
Module Pixel.
Record t := mk { r : option Z; g : option Z; b : option Z }.
End Pixel.

Definition defined (color : RGB.t) : Pixel.t :=
  Pixel.mk (Some (RGB.r color)) (Some (RGB.g color)) (Some (RGB.b color)).

(** [v > t], false when [v] is [undefined]. *)
Definition gt (v : option Z) (t : Z) : bool :=
  match v with Some n => t <? n | None => false end.

Definition isWhiteOrNearWhite (color : Pixel.t) : bool :=
  let threshold := 240 in
  gt (Pixel.r color) threshold && gt (Pixel.g color) threshold
  && gt (Pixel.b color) threshold.

Section Scan.

Variables (imageBuffer : list Z) (width height channels : Z).

Definition pixelAt (x y : Z) : Pixel.t :=
  let pixelIndex := (y * width + x) * channels in
  Pixel.mk (JS.byteAt imageBuffer pixelIndex)
    (JS.byteAt imageBuffer (pixelIndex + 1))
    (JS.byteAt imageBuffer (pixelIndex + 2)).

(** *** Row detection *)

Variable scanX : Z.

Definition textMargin : Z := 45.

(** [for (let y = startY; y < height - 10; y++)], [n] iterations left. *)
Fixpoint findRowStart_from (n : nat) (y : Z) : option Z :=
  match n with
  | O => None
  | S n' =>
      if negb (isWhiteOrNearWhite (pixelAt scanX y))
      then Some (Z.max 0 (y - textMargin))
      else findRowStart_from n' (y + 1)
  end.

Definition findRowStart (startY : Z) : option Z :=
  findRowStart_from (Z.to_nat (height - 10 - startY)) startY.

Fixpoint findRowEnd_from (rowStart whiteSpaceThreshold : Z)
    (n : nat) (y consecutiveWhitePixels : Z) : option Z :=
  match n with
  | O => None
  | S n' =>
      if isWhiteOrNearWhite (pixelAt scanX y) then
        let consecutiveWhitePixels := consecutiveWhitePixels + 1 in
        if whiteSpaceThreshold <=? consecutiveWhitePixels then
          let rowEnd := y - whiteSpaceThreshold in
          Some (Z.max rowEnd (rowStart + 1))
        else
          findRowEnd_from rowStart whiteSpaceThreshold n' (y + 1)
            consecutiveWhitePixels
      else findRowEnd_from rowStart whiteSpaceThreshold n' (y + 1) 0
  end.

Definition findRowEnd (rowStart whiteSpaceThreshold : Z) : option Z :=
  findRowEnd_from rowStart whiteSpaceThreshold
    (Z.to_nat (height - 10 - rowStart)) rowStart 0.

(** *** Colour sampling *)

(** A pixel all of whose channels lie inside the buffer. *)
Definition readRGB (x y : Z) : option RGB.t :=
  let p := pixelAt x y in
  match Pixel.r p, Pixel.g p, Pixel.b p with
  | Some r, Some g, Some b => Some (RGB.mk r g b)
  | _, _, _ => None
  end.

Record Totals := mkTotals { totalR : Z; totalG : Z; totalB : Z; pixelCount : Z }.

Definition addSample (acc : Totals) (color : RGB.t) : Totals :=
  if negb (isWhiteOrNearWhite (defined color)) then
    mkTotals (totalR acc + RGB.r color) (totalG acc + RGB.g color)
      (totalB acc + RGB.b color) (pixelCount acc + 1)
  else acc.

(** The two nested sampling loops. [None]: a pixel was read past the end
    of the buffer (the sums are NaN in the source from there on, which this
    model does not follow). *)
Definition sampleTotals (startX endX startY endY : Z) : option Totals :=
  foldl
    (fun acc '(y, x) =>
       match acc, readRGB x y with
       | Some acc, Some color => Some (addSample acc color)
       | _, _ => None
       end)
    (Some (mkTotals 0 0 0 0))
    (y ← seqZ startY (endY - startY + 1);
     x ← seqZ startX (endX - startX);
     [(y, x)]).

(** [Math.round(total / pixelCount)] *)
Definition average (total pixelCount : Z) : Z :=
  JS.to_Z (JS.Math_round (PrimFloat.div (JS.of_Z total) (JS.of_Z pixelCount))).

(** [`#${avgR.toString(16).padStart(2, '0')}...`] *)
Definition hexOf (avgR avgG avgB : Z) : string :=
  ("#" ++ JS.padStart0 2 (JS.toString16 avgR)
       ++ JS.padStart0 2 (JS.toString16 avgG)
       ++ JS.padStart0 2 (JS.toString16 avgB))%string.

(** [extractDominantColor]. The outer [option] is [None] when a pixel is
    read past the end of the buffer; the inner one is the [null] of the
    source. *)
Definition extractDominantColor (startX endX startY endY : Z)
  : option (option ColorBox.t) :=
  totals ← sampleTotals startX endX startY endY;
  if pixelCount totals =? 0 then Some None
  else
    let avgR := average (totalR totals) (pixelCount totals) in
    let avgG := average (totalG totals) (pixelCount totals) in
    let avgB := average (totalB totals) (pixelCount totals) in
    let hex := hexOf avgR avgG avgB in
    let bottomRightX := Z.min (endX - 1) (width - 1) in
    let bottomRightY := Z.min endY (height - 1) in
    bottomRightPixel ← readRGB bottomRightX bottomRightY;
    Some (Some (ColorBox.mk (RGB.mk avgR avgG avgB) hex
                  (BoundingBox.mk startX startY (endX - startX)
                     (endY - startY + 1))
                  bottomRightPixel)).

(** *** Swatch groups of a row ([findSwatchBoundariesInRow]) *)

Definition minSwatchWidth : Z := 120.
Definition whiteSpaceGap : Z := 10.

(** The body of [while (currentX < width)], on the pixel at [currentX]. *)
Definition swatchScanStep (st : SwatchScan.t) (currentX : Z) (isWhite : bool)
  : SwatchScan.t :=
  let inSwatch := SwatchScan.inSwatch st in
  let swatchStarts := SwatchScan.swatchStarts st in
  if negb inSwatch && negb isWhite then
    (* Start of a new swatch *)
    SwatchScan.mk true 0 (swatchStarts ++ [currentX])
  else if inSwatch && isWhite then
    let consecutiveWhitePixels := SwatchScan.consecutiveWhitePixels st + 1 in
    if whiteSpaceGap <=? consecutiveWhitePixels
    then SwatchScan.mk false 0 swatchStarts
    else SwatchScan.mk inSwatch consecutiveWhitePixels swatchStarts
  else if inSwatch && negb isWhite then
    SwatchScan.mk inSwatch 0 swatchStarts
  else st.

Definition swatchStartsAt (scanY : Z) : list Z :=
  SwatchScan.swatchStarts
    (foldl
       (fun st currentX =>
          swatchScanStep st currentX (isWhiteOrNearWhite (pixelAt currentX scanY)))
       (SwatchScan.mk false 0 []) (seqZ 0 width)).

(** The second pass: each swatch extends to just before the next start,
    the last one to the edge of the image; the narrow ones are skipped. *)
Fixpoint swatchBoundaries (swatchStarts : list Z) : list Boundary.t :=
  match swatchStarts with
  | [] => []
  | startX :: rest =>
      let endX := match rest with
                  | next :: _ => next - 1
                  | [] => width - 1
                  end in
      let swatchWidth := endX - startX + 1 in
      (if minSwatchWidth <=? swatchWidth then [Boundary.mk startX endX] else [])
      ++ swatchBoundaries rest
  end.

(** [None] is the error thrown when the metadata lack a dimension. *)
Definition findSwatchBoundariesInRow (row : RowBoundary.t)
  : option (list Boundary.t) :=
  if (width =? 0) || (height =? 0) || (channels =? 0) then None
  else
    let scanY :=
      JS.to_Z
        (JS.Math_floor
           (PrimFloat.add (JS.of_Z (RowBoundary.startY row))
              (PrimFloat.mul (JS.of_Z (RowBoundary.height row)) 0.5))) in
    Some (swatchBoundaries (swatchStartsAt scanY)).

(** *** Colour boxes of a swatch ([findColorBoxBoundaries]) *)

Definition minColorBoxWidth : Z := 15.
Definition whiteGap : Z := 3.

Definition boxScanStep (st : BoxScan.t) (currentX : Z) (isWhite : bool)
  : BoxScan.t :=
  let inColorBox := BoxScan.inColorBox st in
  let colorBoxStartX := BoxScan.colorBoxStartX st in
  let colorBoxes := BoxScan.colorBoxes st in
  if negb inColorBox && negb isWhite then
    (* Start of a new color box *)
    BoxScan.mk true currentX 0 colorBoxes
  else if inColorBox && isWhite then
    let consecutiveWhitePixels := BoxScan.consecutiveWhitePixels st + 1 in
    if whiteGap <=? consecutiveWhitePixels then
      (* End of current color box *)
      let colorBoxWidth := currentX - colorBoxStartX - consecutiveWhitePixels in
      BoxScan.mk false colorBoxStartX 0
        (if minColorBoxWidth <=? colorBoxWidth
         then colorBoxes ++ [Boundary.mk colorBoxStartX (colorBoxStartX + colorBoxWidth)]
         else colorBoxes)
    else BoxScan.mk inColorBox colorBoxStartX consecutiveWhitePixels colorBoxes
  else if inColorBox && negb isWhite then
    BoxScan.mk inColorBox colorBoxStartX 0 colorBoxes
  else st.

Definition findColorBoxBoundaries : list Boundary.t :=
  let scanY := JS.to_Z (JS.Math_floor (PrimFloat.mul (JS.of_Z height) 0.5)) in
  let st :=
    foldl
      (fun st currentX =>
         boxScanStep st currentX (isWhiteOrNearWhite (pixelAt currentX scanY)))
      (BoxScan.mk false 0 0 []) (seqZ 0 width) in
  (* currentX after the loop *)
  let currentX := Z.max 0 width in
  (* Handle the last color box if we reached the end *)
  if BoxScan.inColorBox st then
    let colorBoxWidth := currentX - BoxScan.colorBoxStartX st in
    if minColorBoxWidth <=? colorBoxWidth
    then BoxScan.colorBoxes st
         ++ [Boundary.mk (BoxScan.colorBoxStartX st)
               (BoxScan.colorBoxStartX st + colorBoxWidth)]
    else BoxScan.colorBoxes st
  else BoxScan.colorBoxes st.

(** *** The rows of a colour box ([findColorBoxVerticalBoundaries]) *)

(** [colorPixelCount] of row [y] between the bounds. *)
Definition colorPixelCount (colorBoxBounds : Boundary.t) (y : Z) : Z :=
  Z.of_nat
    (List.length
       (List.filter (fun x => negb (isWhiteOrNearWhite (pixelAt x y)))
          (seqZ (Boundary.startX colorBoxBounds)
             (Boundary.endX colorBoxBounds - Boundary.startX colorBoxBounds)))).

(** [totalPixelCount] *)
Definition totalPixelCount (colorBoxBounds : Boundary.t) : Z :=
  Z.max 0 (Boundary.endX colorBoxBounds - Boundary.startX colorBoxBounds).

(** [colorPixelCount > totalPixelCount * 0.8] *)
Definition solidRow (colorBoxBounds : Boundary.t) (y : Z) : bool :=
  PrimFloat.ltb
    (PrimFloat.mul (JS.of_Z (totalPixelCount colorBoxBounds)) 0.8)
    (JS.of_Z (colorPixelCount colorBoxBounds y)).

Definition findColorBoxVerticalBoundaries (colorBoxBounds : Boundary.t)
  : option (Z * Z) :=
  (* Skip the top 25% *)
  let startScanY := JS.to_Z (JS.Math_floor (PrimFloat.mul (JS.of_Z height) 0.25)) in
  (* First pass: find where solid colors start *)
  match List.find (solidRow colorBoxBounds) (seqZ startScanY (height - startScanY)) with
  | None => None
  | Some colorStartY =>
      (* Second pass: from the bottom up, down to colorStartY *)
      match List.find (solidRow colorBoxBounds)
              (reverse (seqZ colorStartY (height - colorStartY))) with
      | None => None
      | Some colorEndY => Some (colorStartY, colorEndY)
      end
  end.

(** *** The colour box area of a swatch ([extractColorBoxArea])

    The rows that the source cuts out of the swatch image, as top and
    height; the cutting itself is the image library's. *)

(** [hasColor] of row [y]. *)
Definition hasColor (y : Z) : bool :=
  existsb (fun x => negb (isWhiteOrNearWhite (pixelAt x y))) (seqZ 0 width).

Definition colorBoxArea : Z * Z :=
  let swatchHeight := height in
  (* Scan from bottom to top to find the last row with colors *)
  let colorBoxEndY :=
    default (swatchHeight - 1)
      (List.find hasColor (reverse (seqZ 0 swatchHeight))) in
  (* Now scan from top to find the first row with colors, skipping the text *)
  let from := JS.to_Z (JS.Math_floor (PrimFloat.mul (JS.of_Z swatchHeight) 0.3)) in
  let colorBoxStartY :=
    match List.find hasColor (seqZ from (swatchHeight - from)) with
    | Some y => y
    | None =>
        (* fall back to bottom 40% *)
        JS.to_Z (JS.Math_floor (PrimFloat.mul (JS.of_Z swatchHeight) 0.6))
    end in
  let colorBoxHeight := colorBoxEndY - colorBoxStartY + 1 in
  (colorBoxStartY, colorBoxHeight).

(** *** The colours of a swatch ([detectColorsInSwatch]) *)

(** What one colour box contributes: nothing without vertical bounds or
    without a dominant colour.  As for [extractDominantColor], the outer
    [None] is a read past the end of the buffer. *)
Definition colorOfBox (colorBoxBounds : Boundary.t) : option (list ColorBox.t) :=
  match findColorBoxVerticalBoundaries colorBoxBounds with
  | Some (startY, endY) =>
      dominantColor ←
        extractDominantColor (Boundary.startX colorBoxBounds)
          (Boundary.endX colorBoxBounds) startY endY;
      Some match dominantColor with
           | Some color => [color]
           | None => []
           end
  | None => Some []
  end.

Definition detectColorsInSwatch : option (list ColorBox.t) :=
  if (width =? 0) || (height =? 0) || (channels =? 0) then Some []
  else
    foldl
      (fun colors colorBoxBounds =>
         colors ← colors;
         found ← colorOfBox colorBoxBounds;
         Some (colors ++ found))
      (Some []) findColorBoxBoundaries.

End Scan.

(** *** Where the scan for swatches starts ([findSwatchStartingPosition]) *)

Definition bottom (box : BoundingBox.t) : Z :=
  BoundingBox.y box + BoundingBox.height box.

Definition findSwatchStartingPosition (redAnchorBoxes : list BoundingBox.t)
    (height : Z) : Z :=
  match redAnchorBoxes with
  | [] => 0
  | first :: rest =>
      (* [reduce] without an initial value *)
      let lastRedBox :=
        fold_left
          (fun latest current =>
             if bottom latest <? bottom current then current else latest)
          rest first in
      let startY := bottom lastRedBox + 200 in
      Z.min startY (height - 100)
  end.

(** *** The rows ([detectRows]) *)

Section DetectRows.

Variables (imageBuffer : list Z) (width height channels : Z).

Definition scanX : Z := 100.
Definition whiteSpaceThreshold : Z := 50.

(** [while (currentY < height - 100)], with a bound [n] on the number of
    iterations: when it is reached the rows found so far are returned. *)
Fixpoint detectRows_from (n : nat) (currentY : Z) (rows : list RowBoundary.t)
  : list RowBoundary.t :=
  match n with
  | O => rows
  | S n' =>
      if currentY <? height - 100 then
        match findRowStart imageBuffer width height channels scanX currentY with
        | None => rows
        | Some rowStart =>
            match findRowEnd imageBuffer width height channels scanX rowStart
                    whiteSpaceThreshold with
            | None => rows
            | Some rowEnd =>
                detectRows_from n' (rowEnd + 1)
                  (rows ++ [RowBoundary.mk rowStart rowEnd (rowEnd - rowStart)])
            end
        end
      else rows
  end.

(** [detectRows]; [None] is the error thrown when the metadata lack a
    dimension.  Each iteration moves [currentY] down by a row at least, so
    [height - 100 - startY] iterations are never exceeded. *)
Definition detectRows (startY : Z) : option (list RowBoundary.t) :=
  if (width =? 0) || (height =? 0) || (channels =? 0) then None
  else Some (detectRows_from (Z.to_nat (height - 100 - startY)) startY []).

End DetectRows.

(** *** Swatch text *)

Definition newline : ascii := ascii_of_N 10.

(** [text.split('\n').map(line => line.trim()).filter(line => line.length > 0)] *)
Definition nonEmptyLines (text : string) : list string :=
  List.filter JS.truthy (map JS.trim (JS.split newline text)).

(** [s.replace(/[|]/g, '')] *)
Fixpoint stripPipes (s : string) : string :=
  match s with
  | String c s' =>
      if Ascii.eqb c "|" then stripPipes s' else String c (stripPipes s')
  | EmptyString => EmptyString
  end.

(** [s.replace(/\s+/g, ' ')]; [inRun] tells that the previous character
    was white space, already replaced. *)
Fixpoint collapseSpaces_from (inRun : bool) (s : string) : string :=
  match s with
  | String c s' =>
      if JS.isWhiteSpace c then
        if inRun then collapseSpaces_from true s'
        else String " " (collapseSpaces_from true s')
      else String c (collapseSpaces_from false s')
  | EmptyString => EmptyString
  end.

Definition collapseSpaces (s : string) : string := collapseSpaces_from false s.

Definition parseSwatchText (text : string) : option TextInfo.t :=
  let lines := nonEmptyLines text in
  if (List.length lines =? 0)%nat then None
  else
    let line0 := nth 0 lines "" in
    let styleNumber := "" in
    let styleName := "" in
    (* Extract style number: first 6 characters of first line *)
    let styleNumber :=
      if (0 <? List.length lines)%nat && (6 <=? String.length line0)%nat
      then JS.take_chars 6 line0 else styleNumber in
    (* Extract style name: second line (if available) *)
    let styleName :=
      if (1 <? List.length lines)%nat then nth 1 lines "" else styleName in
    (* Clean up the style name *)
    let styleName :=
      if JS.truthy styleName
      then JS.trim (collapseSpaces (stripPipes styleName)) else styleName in
    (* Fallback: remaining part of first line *)
    let styleName :=
      if negb (JS.truthy styleName) && (0 <? List.length lines)%nat then
        let remainingFirstLine := JS.trim (JS.drop_chars 6 line0) in
        if (2 <? String.length remainingFirstLine)%nat
        then remainingFirstLine else styleName
      else styleName in
    Some (TextInfo.mk (JS.or_else styleNumber "Unknown")
            (JS.or_else styleName "Unknown")).

(** *** Swatches of a row

    What lies between the pixels and the record is external: the text
    recognised in the top of the region ([ocrText]) and the colour boxes
    detected in its bottom ([colors]). *)
Module Region.
Record t := mk {
  startX : Z;
  endX : Z;
  ocrText : string;
  colors : list ColorBox.t
}.
End Region.

Definition extractSwatchFromBoundary (row : RowBoundary.t) (region : Region.t)
  : option SwatchGroup.t :=
  let swatchWidth := Region.endX region - Region.startX region in
  let boundingBox :=
    BoundingBox.mk (Region.startX region) (RowBoundary.startY row)
      swatchWidth (RowBoundary.height row) in
  let text := JS.trim (Region.ocrText region) in
  match parseSwatchText text with
  | None => None
  | Some textInfo =>
      Some (SwatchGroup.mk (TextInfo.styleNumber textInfo)
              (TextInfo.styleName textInfo) (Region.colors region) boundingBox)
  end.

(** [extractSwatchGroupsFromRow]: the swatches that are not [null], in
    order. *)
Definition extractSwatchGroupsFromRow (row : RowBoundary.t)
    (regions : list Region.t) : list SwatchGroup.t :=
  omap (extractSwatchFromBoundary row) regions.

End SwatchExtractor.

(** ** [ColorMatcher] *)

Module MatchedReference.
Record t := mk {
  colorCode : string;
  colorName : string;
  pantoneColor : string;
  distance : float;
  confidence : float
}.
End MatchedReference.

Module MatchedColor.
Record t := mk {
  rgb : RGB.t;
  hex : string;
  boundingBox : BoundingBox.t;
  bottomRightPixel : RGB.t;
  matchedReference : MatchedReference.t
}.
End MatchedColor.

Module MatchedSwatch.
Record t := mk {
  styleNumber : string;
  styleName : string;
  colors : list MatchedColor.t;
  boundingBox : BoundingBox.t
}.
End MatchedSwatch.

(** The result of [matchSwatchesWithReferences], without its [timestamp]
    and its [matchingMethod] label. *)
Module ColorMatchingResult.
Record t := mk {
  totalSwatches : Z;
  totalColors : Z;
  totalReferenceColors : Z;
  swatches : list MatchedSwatch.t;
  referenceColors : list ReferenceColor.t
}.
End ColorMatchingResult.

Module Closest.
Record t := mk {
  reference : ReferenceColor.t;
  distance : float;
  confidence : float
}.
End Closest.

(** The result of [getMatchingStats], and the variables of its loops. *)
Module MatchingStats.
Module Tally.
Record t := mk {
  totalColors : Z;
  matchedColors : Z;
  unmatchedColors : Z;
  totalDistance : float;
  totalConfidence : float;
  referenceColorUsage : list (string * Z)
}.
End Tally.
Record t := mk {
  totalColors : Z;
  matchedColors : Z;
  unmatchedColors : Z;
  matchRate : float;
  averageDistance : float;
  averageConfidence : float;
  referenceColorUsage : list (string * Z)
}.
End MatchingStats.

Module ColorMatcher.

(** The default of the constructor's [maxDistance]. *)
Definition defaultMaxDistance : float := 150%float.

(** [Math.round(v * 100) / 100] *)
Definition round2 (v : float) : float :=
  PrimFloat.div (JS.Math_round (PrimFloat.mul v 100)) 100.

(** The sum of the squared channel differences, an integer. *)
Definition squaredDistance (color1 color2 : RGB.t) : Z :=
  let dr := RGB.r color1 - RGB.r color2 in
  let dg := RGB.g color1 - RGB.g color2 in
  let db := RGB.b color1 - RGB.b color2 in
  dr * dr + dg * dg + db * db.

Definition calculateColorDistance (color1 color2 : RGB.t) : float :=
  PrimFloat.sqrt (JS.of_Z (squaredDistance color1 color2)).

Section Matcher.

(** The fields set by the constructor. *)
Variables (referenceColors : list ReferenceColor.t) (maxDistance : float).

(** The state of the search loop. *)
Definition Search : Type := option ReferenceColor.t * float.

Definition visit (swatchColor : ColorBox.t) (st : Search)
    (referenceColor : ReferenceColor.t) : Search :=
  let '(closestReference, minDistance) := st in
  let distance :=
    calculateColorDistance (ColorBox.rgb swatchColor)
      (ReferenceColor.rgb referenceColor) in
  if PrimFloat.ltb distance minDistance
  then (Some referenceColor, distance)
  else (closestReference, minDistance).

Definition search (swatchColor : ColorBox.t)
    (refs : list ReferenceColor.t) (st : Search) : Search :=
  fold_left (visit swatchColor) refs st.

Definition findClosestReferenceColor (swatchColor : ColorBox.t)
  : option Closest.t :=
  if (List.length referenceColors =? 0)%nat then None
  else
    let '(closestReference, minDistance) :=
      search swatchColor referenceColors (None, PrimFloat.infinity) in
    match closestReference with
    | Some closest =>
        if PrimFloat.leb minDistance maxDistance then
          let confidence :=
            JS.Math_max 0
              (JS.Math_min 100
                 (PrimFloat.sub 100
                    (PrimFloat.mul (PrimFloat.div minDistance maxDistance) 100))) in
          Some (Closest.mk closest minDistance (round2 confidence))
        else None
    | None => None
    end.

(** The record stored when nothing matches. *)
Definition unmatched : MatchedReference.t :=
  MatchedReference.mk "UNKNOWN" "No Match Found" "N/A" (-1)%float 0%float.

Definition matchColor (color : ColorBox.t) : MatchedColor.t :=
  MatchedColor.mk (ColorBox.rgb color) (ColorBox.hex color)
    (ColorBox.boundingBox color) (ColorBox.bottomRightPixel color)
    match findClosestReferenceColor color with
    | Some found =>
        MatchedReference.mk
          (ReferenceColor.colorCode (Closest.reference found))
          (ReferenceColor.colorName (Closest.reference found))
          (ReferenceColor.pantoneColor (Closest.reference found))
          (round2 (Closest.distance found))
          (Closest.confidence found)
    | None => unmatched
    end.

Definition matchSwatch (swatch : SwatchGroup.t) : MatchedSwatch.t :=
  MatchedSwatch.mk (SwatchGroup.styleNumber swatch)
    (SwatchGroup.styleName swatch)
    (map matchColor (SwatchGroup.colors swatch))
    (SwatchGroup.boundingBox swatch).

Definition matchSwatchesWithReferences (swatches : list SwatchGroup.t)
  : ColorMatchingResult.t :=
  let matchedSwatches := map matchSwatch swatches in
  let totalColors :=
    fold_left (fun n swatch => n + Z.of_nat (List.length (SwatchGroup.colors swatch)))
      swatches 0 in
  ColorMatchingResult.mk (Z.of_nat (List.length swatches)) totalColors
    (Z.of_nat (List.length referenceColors)) matchedSwatches referenceColors.

End Matcher.

(** *** [getMatchingStats] *)

(** [(usage[key] || 0) + 1] on an object whose keys are kept in the order
    of their first use (the keys hold " - ", so none is an array index or
    a property that every object has). *)
Fixpoint countKey (key : string) (usage : list (string * Z)) : list (string * Z) :=
  match usage with
  | [] => [(key, 1)]
  | (k, n) :: rest =>
      if String.eqb k key then (k, n + 1) :: rest
      else (k, n) :: countKey key rest
  end.

(** The variables of the two nested loops. *)
Definition tally (st : MatchingStats.Tally.t) (color : MatchedColor.t)
  : MatchingStats.Tally.t :=
  let m := MatchedColor.matchedReference color in
  if negb (String.eqb (MatchedReference.colorCode m) "UNKNOWN") then
    MatchingStats.Tally.mk
      (MatchingStats.Tally.totalColors st + 1)
      (MatchingStats.Tally.matchedColors st + 1)
      (MatchingStats.Tally.unmatchedColors st)
      (PrimFloat.add (MatchingStats.Tally.totalDistance st) (MatchedReference.distance m))
      (PrimFloat.add (MatchingStats.Tally.totalConfidence st)
         (MatchedReference.confidence m))
      (countKey
         (MatchedReference.colorCode m ++ " - " ++ MatchedReference.colorName m)%string
         (MatchingStats.Tally.referenceColorUsage st))
  else
    MatchingStats.Tally.mk
      (MatchingStats.Tally.totalColors st + 1)
      (MatchingStats.Tally.matchedColors st)
      (MatchingStats.Tally.unmatchedColors st + 1)
      (MatchingStats.Tally.totalDistance st)
      (MatchingStats.Tally.totalConfidence st)
      (MatchingStats.Tally.referenceColorUsage st).

Definition tallyAll (swatches : list MatchedSwatch.t) : MatchingStats.Tally.t :=
  fold_left
    (fun st swatch => fold_left tally (MatchedSwatch.colors swatch) st)
    swatches (MatchingStats.Tally.mk 0 0 0 0 0 []).

Definition getMatchingStats (result : ColorMatchingResult.t) : MatchingStats.t :=
  let st := tallyAll (ColorMatchingResult.swatches result) in
  let matchedColors := MatchingStats.Tally.matchedColors st in
  let totalColors := MatchingStats.Tally.totalColors st in
  MatchingStats.mk totalColors matchedColors
    (MatchingStats.Tally.unmatchedColors st)
    (PrimFloat.div
       (JS.Math_round
          (PrimFloat.mul
             (PrimFloat.mul
                (PrimFloat.div (JS.of_Z matchedColors) (JS.of_Z totalColors)) 100)
             100))
       100)
    (if 0 <? matchedColors
     then round2 (PrimFloat.div (MatchingStats.Tally.totalDistance st)
                    (JS.of_Z matchedColors))
     else 0%float)
    (if 0 <? matchedColors
     then round2 (PrimFloat.div (MatchingStats.Tally.totalConfidence st)
                    (JS.of_Z matchedColors))
     else 0%float)
    (MatchingStats.Tally.referenceColorUsage st).

End ColorMatcher.

(** ** [CSVGenerator]

    The rows that [generateStyleColorCSV] writes for the matching result
    it has read. *)

Module CSVGenerator.

Definition styleColorRows (colorMatchesData : ColorMatchingResult.t) : list string :=
  "Style Number,Color Code"
  :: (swatch ← ColorMatchingResult.swatches colorMatchesData;
      color ← MatchedSwatch.colors swatch;
      [(MatchedSwatch.styleNumber swatch ++ ","
        ++ MatchedReference.colorCode (MatchedColor.matchedReference color))%string]).

(** [csvRows.join('\n')] *)
Definition styleColorCSV (colorMatchesData : ColorMatchingResult.t) : string :=
  String.concat (String (ascii_of_N 10) "") (styleColorRows colorMatchesData).

End CSVGenerator.

(** ** Definitions used in the statements *)

(** A decidable property checked on [n] consecutive integers from [k] on:
    what lets a fact about binary64 arithmetic on a bounded range of
    integers be established by evaluation. *)
Fixpoint all_from (n : nat) (k : Z) (p : Z -> bool) : bool :=
  match n with
  | O => true
  | S n' => if p k then all_from n' (k + 1) p else false
  end.

(** The largest squared distance between two 8-bit colours. *)
Definition maxSquaredDistance : Z := 3 * 255 * 255.

(** [Math.sqrt] on an integer number. *)
Definition sqrtZ (n : Z) : float := PrimFloat.sqrt (JS.of_Z n).

(** The style name that [parseSwatchText] settles on, given the first
    non-empty line and the ones after it. *)
Definition styleNameOf (line0 : string) (rest : list string) : string :=
  let cleaned :=
    match rest with
    | line1 :: _ => JS.trim (SwatchExtractor.collapseSpaces (SwatchExtractor.stripPipes line1))
    | [] => ""
    end in
  let remainder := JS.trim (JS.drop_chars 6 line0) in
  if JS.truthy cleaned then cleaned
  else if (2 <? String.length remainder)%nat then remainder
  else "Unknown".

(** The span of the anchor-coloured pixels of a row of the red-pixel
    matrix, leftmost to rightmost, as [groupRow] measures it. *)
Definition rowWidth (row : list bool) : Z :=
  JS.lastIndexOf_true row - JS.indexOf_true row + 1.

(** A row that starts a box or extends the current one: its fraction of
    anchor-coloured pixels exceeds 10% and its span is at least 5 wide. *)
Definition anchorRow (width : Z) (row : list bool) : bool :=
  ReferenceColorExtractor.significantRed width row && (5 <=? rowWidth row).

(** A box read against the rows [m] of the matrix: it starts at a row of
    [m], its x is the leftmost anchor-coloured pixel of that row, each of
    its rows is an anchor row no wider than the box, and one of them is as
    wide as the box. *)
Definition boxOver (width : Z) (m : list (list bool)) (box : BoundingBox.t) : Prop :=
  0 <= BoundingBox.y box
  /\ 1 <= BoundingBox.height box
  /\ (exists row, m !! Z.to_nat (BoundingBox.y box) = Some row
                  /\ BoundingBox.x box = JS.indexOf_true row)
  /\ (forall j, BoundingBox.y box <= j < BoundingBox.y box + BoundingBox.height box ->
        exists row, m !! Z.to_nat j = Some row
                    /\ anchorRow width row = true
                    /\ rowWidth row <= BoundingBox.width box)
  /\ (exists j row,
        BoundingBox.y box <= j < BoundingBox.y box + BoundingBox.height box
        /\ m !! Z.to_nat j = Some row
        /\ rowWidth row = BoundingBox.width box).

(** What the grouping loop maintains, the rows [done] having been read:
    the pushed boxes lie over them and are at least 8 rows high; the
    current box lies over them and ends at the last of them. *)
Definition grouped (width : Z) (done : list (list bool))
    (st : option BoundingBox.t * list BoundingBox.t) : Prop :=
  (forall box, In box st.2 -> boxOver width done box /\ 8 <= BoundingBox.height box)
  /\ (forall box, st.1 = Some box ->
        boxOver width done box
        /\ BoundingBox.y box + BoundingBox.height box = Z.of_nat (List.length done)).

(** The union of the spans of some rows: from the least leftmost to the
    greatest rightmost anchor-coloured pixel. *)
Definition spanUnion (rows : list (list bool)) : Z * Z :=
  match rows with
  | [] => (0, -1)
  | row0 :: rows' =>
      fold_left
        (fun '(lo, hi) row =>
           (Z.min lo (JS.indexOf_true row), Z.max hi (JS.lastIndexOf_true row)))
        rows' (JS.indexOf_true row0, JS.lastIndexOf_true row0)
  end.

(** An image of [width] columns given row by row, each row by the columns
    that are anchor red (255, 0, 0), the others white. *)
Definition paintRows (width : Z) (rows : list (Z * Z)) : list Z :=
  '(from, to) ← rows;
  x ← seqZ 0 width;
  if (from <=? x) && (x <=? to) then [255; 0; 0] else [255; 255; 255].

(** The squared distance from a colour to the colour of a reference. *)
Definition squaredTo (color : RGB.t) (ref : ReferenceColor.t) : Z :=
  ColorMatcher.squaredDistance color (ReferenceColor.rgb ref).

(** [best] is the reference at index [i] of [refs], none of [refs] is
    nearer to [color] than it, and those before it are farther: the first
    nearest reference. *)
Definition firstNearest (color : RGB.t) (refs : list ReferenceColor.t)
    (i : nat) (best : ReferenceColor.t) : Prop :=
  refs !! i = Some best
  /\ (forall ref, In ref refs -> squaredTo color best <= squaredTo color ref)
  /\ (forall j ref, (j < i)%nat -> refs !! j = Some ref ->
                    squaredTo color best < squaredTo color ref).

(** What the search loop of [findClosestReferenceColor] maintains, the
    references [done] having been visited. *)
Definition searched (color : RGB.t) (done : list ReferenceColor.t)
    (st : ColorMatcher.Search) : Prop :=
  match st.1 with
  | None => done = [] /\ st.2 = PrimFloat.infinity
  | Some best =>
      st.2 = ColorMatcher.calculateColorDistance color (ReferenceColor.rgb best)
      /\ exists i, firstNearest color done i best
  end.

(** [clamp(100 - (distance / maxDistance) * 100, 0, 100)], as the source
    writes it. *)
Definition clampedScore (distance maxDistance : float) : float :=
  JS.Math_max 0
    (JS.Math_min 100
       (PrimFloat.sub 100
          (PrimFloat.mul (PrimFloat.div distance maxDistance) 100))).

(** The confidence as the specification words it:
    [clamp(100 * (1 - distance / maxDistance), 0, 100)]. *)
Definition confidenceFormula (distance maxDistance : float) : float :=
  JS.Math_max 0
    (JS.Math_min 100
       (PrimFloat.mul 100 (PrimFloat.sub 1 (PrimFloat.div distance maxDistance)))).


(** The fields of an entry that a correction is to leave alone, slot by
    slot: the sampled colour and its encoding, the Pantone label, the box. *)
Definition sameSample (before after : option ReferenceColor.t) : Prop :=
  match before, after with
  | Some e, Some e' =>
      ReferenceColor.rgb e' = ReferenceColor.rgb e
      /\ ReferenceColor.hex e' = ReferenceColor.hex e
      /\ ReferenceColor.pantoneColor e' = ReferenceColor.pantoneColor e
      /\ ReferenceColor.boundingBox e' = ReferenceColor.boundingBox e
  | None, None => True
  | _, _ => False
  end.

(** The two lower-case hexadecimal digits of a byte. *)
Definition hexPair (c : Z) : string :=
  String (JS.hexDigit (c / 16)) (String (JS.hexDigit (c mod 16)) "").

(** A character among 0-9 and a-f. *)
Definition lowerHexDigit (c : ascii) : bool :=
  let n := N_of_ascii c in
  ((48 <=? n) && (n <=? 57) || (97 <=? n) && (n <=? 102))%N.

Fixpoint allChars (p : ascii -> bool) (s : string) : bool :=
  match s with
  | String c s' => p c && allChars p s'
  | EmptyString => true
  end.

(** What becomes of an entry in the validation: corrected to the table
    entry found by position when it is flagged and one is found, kept
    otherwise. *)
Definition corrected (e : ReferenceColor.t) : ReferenceColor.t :=
  if ColorValidator.isOCRFailure e then
    match ColorValidator.findExpectedColorByPosition
            (BoundingBox.x (ReferenceColor.boundingBox e)) with
    | Some g => ColorValidator.correct e g
    | None => e
    end
  else e.

(** The sum of the counts of a [referenceColorUsage]. *)
Definition usageTotal (usage : list (string * Z)) : Z :=
  fold_right (fun entry n => snd entry + n) 0 usage.

(** The colours of a result, swatch after swatch. *)
Definition allColors (swatches : list MatchedSwatch.t) : list MatchedColor.t :=
  swatch ← swatches; MatchedSwatch.colors swatch.

(** The test of [getMatchingStats] for an unmatched colour. *)
Definition isUnknown (color : MatchedColor.t) : bool :=
  String.eqb (MatchedReference.colorCode (MatchedColor.matchedReference color))
    "UNKNOWN".

(** What the two loops of [getMatchingStats] keep true, when [colors] have
    been counted. *)
Definition tallied (colors : list MatchedColor.t) (st : MatchingStats.Tally.t)
  : Prop :=
  MatchingStats.Tally.totalColors st = Z.of_nat (List.length colors)
  /\ MatchingStats.Tally.unmatchedColors st
     = Z.of_nat (List.length (List.filter isUnknown colors))
  /\ MatchingStats.Tally.matchedColors st
     = Z.of_nat (List.length (List.filter (fun c => negb (isUnknown c)) colors))
  /\ usageTotal (MatchingStats.Tally.referenceColorUsage st)
     = MatchingStats.Tally.matchedColors st
  /\ List.NoDup (map fst (MatchingStats.Tally.referenceColorUsage st))
  /\ Forall (fun entry => 0 < snd entry)
       (MatchingStats.Tally.referenceColorUsage st).

(** The background test of [detectRows], at row [y] of its scan column. *)
Definition scanColumnWhite (imageBuffer : list Z) (width channels y : Z) : bool :=
  SwatchExtractor.isWhiteOrNearWhite
    (SwatchExtractor.pixelAt imageBuffer width channels SwatchExtractor.scanX y).

(** What the loop of [detectRows] keeps true of the rows found so far,
    when it is about to look for a row from [currentY] on. *)
Definition rowsSoFar (imageBuffer : list Z) (width height channels : Z)
    (rows : list RowBoundary.t) (currentY : Z) : Prop :=
  (forall row, In row rows ->
     0 <= RowBoundary.startY row < RowBoundary.endY row
     /\ RowBoundary.height row = RowBoundary.endY row - RowBoundary.startY row
     /\ RowBoundary.endY row < currentY
     /\ RowBoundary.endY row < height - 59
     /\ exists y, RowBoundary.startY row <= y <= RowBoundary.endY row
                  /\ scanColumnWhite imageBuffer width channels y = false)
  /\ (forall (i j : nat) r1 r2, (i < j)%nat ->
        rows !! i = Some r1 -> rows !! j = Some r2 ->
        RowBoundary.endY r1 < RowBoundary.startY r2)
  /\ (rows <> [] ->
      forall z, currentY <= z < currentY + 49 ->
        scanColumnWhite imageBuffer width channels z = true).

(** Intervals that come one after the other: each ends (at [hi]) before
    the next one starts (at [lo]). *)
Definition leftToRight {A} (lo hi : A -> Z) (l : list A) : Prop :=
  forall (i j : nat) a b, (i < j)%nat ->
    l !! i = Some a -> l !! j = Some b -> hi a < lo b.

(** A three-channel image for the examples: the pixel at (x, y) is a dark
    blue where [dark x y] holds and white elsewhere. *)
Definition paintedImage (width height : Z) (dark : Z -> Z -> bool) : list Z :=
  y ← seqZ 0 height;
  x ← seqZ 0 width;
  if dark x y then [40; 45; 80] else [255; 255; 255].

(** How a colour of [detectColorsInSwatch] comes from a colour box: sampled
    between the first and the last solid row of the box. *)
Definition sampledFrom (imageBuffer : list Z) (width height channels : Z)
    (colorBoxBounds : Boundary.t) (color : ColorBox.t) : Prop :=
  exists startY endY,
    SwatchExtractor.findColorBoxVerticalBoundaries imageBuffer width height
      channels colorBoxBounds = Some (startY, endY)
    /\ SwatchExtractor.extractDominantColor imageBuffer width height channels
         (Boundary.startX colorBoxBounds) (Boundary.endX colorBoxBounds)
         startY endY = Some (Some color).

(** What the grouping loop of [findRedAnchorBoxes] keeps true of the boxes,
    when the rows above [y] have been grouped: the boxes pushed lie above
    [y] and one above the other, and the box that is growing ends at [y],
    below the boxes pushed. *)
Definition stacked (y : Z) (st : option BoundingBox.t * list BoundingBox.t)
  : Prop :=
  (forall b, In b (snd st) -> SwatchExtractor.bottom b < y)
  /\ leftToRight BoundingBox.y SwatchExtractor.bottom (snd st)
  /\ (forall c, fst st = Some c ->
        BoundingBox.y c + BoundingBox.height c = y
        /\ 1 <= BoundingBox.height c
        /\ forall b, In b (snd st) -> SwatchExtractor.bottom b < BoundingBox.y c).

(** A sampled colour none of whose channels is [undefined] or [NaN]. *)
Definition definedSample (color : Sampled.t) : Prop :=
  exists rgb : RGB.t,
    color = Sampled.mk (Some (RGB.r rgb)) (Some (RGB.g rgb)) (Some (RGB.b rgb)).

(** * Properties *)

(** ** The operations of the language, on the values of its manual *)

Example Math_round_ties :
  map JS.Math_round [2.5; (-2.5); 2.4; (-2.6); 0.49999999999999994; 9905.719]%float
  = [3; (-2); 2; (-3); 0; 9906]%float.
Proof. vm_compute. reflexivity. Qed.

Example Math_floor_values :
  map JS.Math_floor [2.5; (-2.5); 7; PrimFloat.mul 100 0.1]%float
  = [2; (-3); 7; 10]%float.
Proof. vm_compute. reflexivity. Qed.

Example trim_split_values :
  JS.trim "  a b  " = "a b"
  /\ JS.split "," "a,b," = ["a"; "b"; ""]
  /\ JS.split "," "" = [""]
  /\ JS.includes "Color at 5" "Color at " = true
  /\ JS.padStart0 3 "7" = "007"
  /\ JS.toString16 255 = "ff"
  /\ JS.toString (-12) = "-12".
Proof. repeat split; vm_compute; reflexivity. Qed.

Example arraySet_past_the_end :
  JS.arraySet [Some 1; Some 2] 4%nat 9 = [Some 1; Some 2; None; None; Some 9].
Proof. reflexivity. Qed.

(** ** Evaluation on a range *)

Lemma all_from_spec (n : nat) :
  forall k p, all_from n k p = true ->
  forall z, k <= z < k + Z.of_nat n -> p z = true.
Proof.
  induction n as [|n IH]; intros k p Hall z Hz; [lia|].
  cbn [all_from] in Hall.
  destruct (p k) eqn:Hk; [|discriminate].
  destruct (Z.eq_dec z k) as [->|Hne]; [assumption|].
  apply (IH (k + 1) p Hall). lia.
Qed.

(** ** Pixel classification *)

Lemma brightness_exact_on_bytes :
  all_from 766 0
    (fun s => Bool.eqb (PrimFloat.ltb 240 (PrimFloat.div (JS.of_Z s) 3)) (720 <? s))
  = true.
Proof. vm_compute. reflexivity. Qed.

Lemma reference_isWhiteOrNearWhite_sum (c : RGB.t) :
  rgb8 c ->
  ReferenceColorExtractor.isWhiteOrNearWhite c
  = (3 * 240 <? RGB.r c + RGB.g c + RGB.b c).
Proof.
  intros (Hr & Hg & Hb). unfold channel in *.
  unfold ReferenceColorExtractor.isWhiteOrNearWhite.
  pose proof (all_from_spec _ _ _ brightness_exact_on_bytes
                (RGB.r c + RGB.g c + RGB.b c)) as H.
  cbv beta in H. apply Bool.eqb_prop. apply H. lia.
Qed.

Lemma swatch_isWhiteOrNearWhite_all (c : RGB.t) :
  SwatchExtractor.isWhiteOrNearWhite (SwatchExtractor.defined c) = true
  <-> 240 < RGB.r c /\ 240 < RGB.g c /\ 240 < RGB.b c.
Proof.
  unfold SwatchExtractor.isWhiteOrNearWhite, SwatchExtractor.defined,
    SwatchExtractor.gt; cbn.
  rewrite !andb_true_iff, !Z.ltb_lt. tauto.
Qed.

(** C3, counterexample.  The predicate of [ReferenceColorExtractor] holds
    of the pixel (255, 255, 220), whose blue channel does not exceed 240:
    for that scanner "true iff all three channels exceed 240" is false. *)
Lemma C3_reference_white_with_dark_channel :
  ~ (ReferenceColorExtractor.isWhiteOrNearWhite (RGB.mk 255 255 220) = true
     <-> 240 < 255 /\ 240 < 255 /\ 240 < 220).
Proof.
  intros [H _].
  assert (E : ReferenceColorExtractor.isWhiteOrNearWhite (RGB.mk 255 255 220) = true)
    by (vm_compute; reflexivity).
  specialize (H E). lia.
Qed.

(** C3, as amended.  On every 8-bit pixel the predicate of
    [SwatchExtractor] is true iff all three channels exceed 240, and the
    predicate of [ReferenceColorExtractor] is true iff the mean of the three
    channels exceeds 240 (their sum exceeds 720); the first condition
    implies the second. *)
Theorem C3_isWhiteOrNearWhite (c : RGB.t) :
  rgb8 c ->
  (SwatchExtractor.isWhiteOrNearWhite (SwatchExtractor.defined c) = true
   <-> 240 < RGB.r c /\ 240 < RGB.g c /\ 240 < RGB.b c)
  /\ (ReferenceColorExtractor.isWhiteOrNearWhite c = true
      <-> 3 * 240 < RGB.r c + RGB.g c + RGB.b c)
  /\ (SwatchExtractor.isWhiteOrNearWhite (SwatchExtractor.defined c) = true
      -> ReferenceColorExtractor.isWhiteOrNearWhite c = true).
Proof.
  intros H8.
  pose proof (swatch_isWhiteOrNearWhite_all c) as Hs.
  pose proof (reference_isWhiteOrNearWhite_sum c H8) as Hr.
  split; [exact Hs|].
  split; [rewrite Hr; apply Z.ltb_lt|].
  intros Hw. apply Hs in Hw. rewrite Hr. apply Z.ltb_lt. lia.
Qed.

Lemma C3_isWhiteOrNearWhite_witness :
  rgb8 (RGB.mk 250 245 241)
  /\ SwatchExtractor.isWhiteOrNearWhite
       (SwatchExtractor.defined (RGB.mk 250 245 241)) = true
  /\ ReferenceColorExtractor.isWhiteOrNearWhite (RGB.mk 250 245 241) = true.
Proof.
  assert (H8 : rgb8 (RGB.mk 250 245 241))
    by (unfold rgb8, channel; cbn; lia).
  destruct (C3_isWhiteOrNearWhite (RGB.mk 250 245 241) H8) as (Hs & Hr & _).
  split; [exact H8|].
  split; [apply Hs | apply Hr]; cbn; lia.
Defined.

(** ** The validator *)

Import ColorValidator.

(** C5.  The entry that the last resort of [extractColorInfoEnhanced]
    builds (fallback code from the position bucket and the colour hash,
    name "Color at <x>") is an OCR failure for [isOCRFailure], whatever the
    position of the region and its colour. *)
Theorem C5_fallback_is_OCR_failure (boundingBox : BoundingBox.t) (regionColor : RGB.t) :
  let entry :=
    ReferenceColorExtractor.extractColorInfoEnhanced None None boundingBox regionColor in
  ReferenceColor.colorCode entry
  = ReferenceColorExtractor.generateFallbackColorCode
      (BoundingBox.x boundingBox) regionColor
  /\ ReferenceColor.colorName entry
     = ("Color at " ++ JS.toString (BoundingBox.x boundingBox))%string
  /\ isOCRFailure entry = true.
Proof.
  cbv zeta. split; [reflexivity|]. split; [reflexivity|].
  unfold isOCRFailure, hasGenericName. cbn.
  destruct (JS.toString (BoundingBox.x boundingBox)); cbn;
    rewrite orb_true_r; reflexivity.
Qed.

(** The table entry that [findExpectedColorByPosition] returns is in the
    table and within the tolerance; it returns one whenever there is one. *)
Lemma findExpectedColorByPosition_Some (position : Z) (g : ExpectedColor.t) :
  findExpectedColorByPosition position = Some g ->
  In g expectedColors /\ Z.abs (position - ExpectedColor.position g) <= tolerance.
Proof.
  unfold findExpectedColorByPosition. intros H.
  apply find_some in H. destruct H as [Hin Hle].
  split; [exact Hin|]. apply Z.leb_le. exact Hle.
Qed.

Lemma findExpectedColorByPosition_near (position : Z) (g : ExpectedColor.t) :
  In g expectedColors ->
  Z.abs (position - ExpectedColor.position g) <= tolerance ->
  exists g', findExpectedColorByPosition position = Some g'.
Proof.
  intros Hin Hle. unfold findExpectedColorByPosition.
  destruct (List.find _ expectedColors) as [g'|] eqn:E; [eauto|].
  exfalso. pose proof (find_none _ _ E g Hin) as Hn. cbv beta in Hn.
  apply Z.leb_gt in Hn. lia.
Qed.

(** The corrections are exactly: one per flagged entry with a table entry
    in range, carrying the index of the entry. *)
Lemma collectCorrections_spec (extractedColors : list ReferenceColor.t) :
  forall (k : nat) (c : Correction.t),
  In c (collectCorrections k extractedColors) <->
  exists (j : nat) (e : ReferenceColor.t) (g : ExpectedColor.t),
    extractedColors !! j = Some e
    /\ isOCRFailure e = true
    /\ findExpectedColorByPosition
         (BoundingBox.x (ReferenceColor.boundingBox e)) = Some g
    /\ c = Correction.mk (k + j) (correct e g) (reasonFor g e).
Proof.
  induction extractedColors as [|e0 l IH]; intros k c; cbn [collectCorrections].
  - split; [intros []|]. intros (j & e & g & Hj & _). destruct j; discriminate.
  - rewrite in_app_iff, IH. split.
    + intros [Hc | (j & e & g & Hj & Hf & Hg & ->)].
      * destruct (isOCRFailure e0) eqn:Hf; [|destruct Hc].
        destruct (findExpectedColorByPosition _) as [g|] eqn:Hg; [|destruct Hc].
        destruct Hc as [<-|[]]. exists 0%nat, e0, g.
        rewrite Nat.add_0_r. auto.
      * exists (S j), e, g. rewrite Nat.add_succ_r. auto.
    + intros ([|j] & e & g & Hj & Hf & Hg & ->).
      * left. cbn in Hj. injection Hj as ->. rewrite Hf, Hg, Nat.add_0_r.
        left. reflexivity.
      * right. exists j, e, g. rewrite Nat.add_succ_r. auto.
Qed.

(** C4, counterexample.  An entry named "Deep Depths" (a genuine two-word
    name: at least 3 characters, no placeholder) read with the code "C1234"
    at x = 75 is corrected, to the first table entry in range. *)
Lemma C4_genuine_name_is_corrected :
  let e := ReferenceColor.mk "C1234" "Deep Depths" "19-4019 TCX"
             (RGB.mk 20 40 90) "#14285A" (BoundingBox.mk 75 10 50 40) in
  hasGenericName (ReferenceColor.colorName e) = false
  /\ ValidationResult.corrections (validateAndCorrect [e])
     = [ Correction.mk 0
           (ReferenceColor.mk "B60002" "New Black" "19-4019 TCX"
              (RGB.mk 20 40 90) "#14285A" (BoundingBox.mk 75 10 50 40))
           "OCR failed, applied correction based on position. Expected B60002, got C1234." ].
Proof. cbv zeta. split; vm_compute; reflexivity. Qed.

(** C4, as amended.  An entry whose code matches the fallback pattern
    (C and four digits) and whose x lies within 200 of the position of some
    table entry is corrected to the code and name of the first table entry
    within 200 of it, and to nothing else; an entry with a genuine name
    (at least 3 characters, not "Unknown", without "Color at ") whose code
    does not match the fallback pattern is never corrected, however close to
    a table entry it lies. *)
Theorem C4_validateAndCorrect
    (extractedColors : list ReferenceColor.t) (i : nat) (e : ReferenceColor.t) :
  extractedColors !! i = Some e ->
  let corrections := ValidationResult.corrections (validateAndCorrect extractedColors) in
  let position := BoundingBox.x (ReferenceColor.boundingBox e) in
  (hasFallbackCode (ReferenceColor.colorCode e) = true ->
   forall near : ExpectedColor.t,
     In near expectedColors ->
     Z.abs (position - ExpectedColor.position near) <= 200 ->
     exists g : ExpectedColor.t,
       findExpectedColorByPosition position = Some g
       /\ In g expectedColors
       /\ Z.abs (position - ExpectedColor.position g) <= 200
       /\ In (Correction.mk i (correct e g) (reasonFor g e)) corrections
       /\ ReferenceColor.colorCode (correct e g) = ExpectedColor.code g
       /\ ReferenceColor.colorName (correct e g) = ExpectedColor.name g
       /\ forall c, In c corrections -> Correction.originalIndex c = i ->
                    c = Correction.mk i (correct e g) (reasonFor g e))
  /\ (hasFallbackCode (ReferenceColor.colorCode e) = false ->
      hasGenericName (ReferenceColor.colorName e) = false ->
      forall c, In c corrections -> Correction.originalIndex c <> i).
Proof.
  intros Hi corrections position. subst corrections. cbn [validateAndCorrect ValidationResult.corrections].
  split.
  - intros Hcode near Hin Hnear.
    destruct (findExpectedColorByPosition_near position near Hin Hnear) as [g Hg].
    destruct (findExpectedColorByPosition_Some _ _ Hg) as [Hgin Hgle].
    exists g. repeat (split; [first [exact Hg | exact Hgin | exact Hgle | reflexivity]|]).
    split.
    + apply collectCorrections_spec. exists i, e, g.
      unfold isOCRFailure. rewrite Hcode. auto.
    + split; [reflexivity|]. split; [reflexivity|].
      intros c Hc Hidx. apply collectCorrections_spec in Hc.
      destruct Hc as (j & e' & g' & Hj & _ & Hg' & ->).
      cbn in Hidx. subst j. rewrite Hi in Hj. injection Hj as <-.
      fold position in Hg'. rewrite Hg in Hg'. injection Hg' as <-. reflexivity.
  - intros Hcode Hname c Hc Hidx. apply collectCorrections_spec in Hc.
    destruct Hc as (j & e' & g' & Hj & Hf & _ & ->).
    cbn in Hidx. subst j. rewrite Hi in Hj. injection Hj as <-.
    unfold isOCRFailure in Hf. rewrite Hcode, Hname in Hf. discriminate.
Qed.

Lemma C4_validateAndCorrect_witness :
  let e := ReferenceColor.mk "C1234" "Color at 300" "Unknown"
             (RGB.mk 20 40 90) "#14285A" (BoundingBox.mk 300 10 50 40) in
  exists g : ExpectedColor.t,
    findExpectedColorByPosition 300 = Some g
    /\ In (Correction.mk 0 (correct e g) (reasonFor g e))
         (ValidationResult.corrections (validateAndCorrect [e])).
Proof.
  cbv zeta.
  set (e := ReferenceColor.mk "C1234" "Color at 300" "Unknown"
              (RGB.mk 20 40 90) "#14285A" (BoundingBox.mk 300 10 50 40)).
  destruct (C4_validateAndCorrect [e] 0 e eq_refl) as [H _].
  destruct (H eq_refl (ExpectedColor.mk "B30193" "Clay" 322))
    as (g & Hg & _ & _ & Hin & _).
  - cbn. tauto.
  - cbn. lia.
  - exists g. split; [exact Hg | exact Hin].
Defined.

(** *** Applying the corrections *)


Lemma arrayGet_dense {A} (l : list A) (i : nat) :
  JS.arrayGet (map Some l) i = l !! i.
Proof.
  unfold JS.arrayGet. change (map Some l) with (Some <$> l).
  rewrite list_lookup_fmap. destruct (l !! i); reflexivity.
Qed.



(** ** The swatch extractor *)

Import SwatchExtractor.

(** *** The hex field *)

Lemma toUpperCase_app (a b : string) :
  JS.toUpperCase (a ++ b) = (JS.toUpperCase a ++ JS.toUpperCase b)%string.
Proof. induction a as [|c a IH]; cbn; [reflexivity | rewrite IH; reflexivity]. Qed.

(** Evaluated on the 256 bytes. *)
Lemma bytes_hex :
  all_from 256 0
    (fun c =>
       String.eqb (JS.padStart0 2 (JS.toString16 c)) (hexPair c)
       && allChars lowerHexDigit (hexPair c)
       && (JS.shl c 16 =? c * 65536) && (JS.shl c 8 =? c * 256)) = true.
Proof. vm_compute. reflexivity. Qed.

Lemma byte_hex (c : Z) :
  channel c ->
  JS.padStart0 2 (JS.toString16 c) = hexPair c
  /\ allChars lowerHexDigit (hexPair c) = true
  /\ JS.shl c 16 = c * 65536 /\ JS.shl c 8 = c * 256.
Proof.
  intros Hc. unfold channel in Hc.
  pose proof (all_from_spec _ _ _ bytes_hex c ltac:(lia)) as H. cbv beta in H.
  repeat (apply andb_prop in H; destruct H as [H ?]).
  apply String.eqb_eq in H.
  repeat split; [exact H | assumption | apply Z.eqb_eq; assumption
                 | apply Z.eqb_eq; assumption].
Qed.

(** Two steps of the digit loop peel the low byte off. *)
Lemma toString16_aux_byte (fuel : nat) (m c : Z) (acc : string) :
  1 <= m -> 0 <= c < 256 ->
  JS.toString16_aux (S (S fuel)) (m * 256 + c) acc
  = JS.toString16_aux fuel m (hexPair c ++ acc)%string.
Proof.
  intros Hm Hc. cbn [JS.toString16_aux].
  destruct (Z.ltb_spec (m * 256 + c) 16) as [H|_]; [lia|].
  assert (E1 : (m * 256 + c) / 16 = m * 16 + c / 16).
  { replace (m * 256 + c) with (c + m * 16 * 16) by lia.
    rewrite Z.div_add by lia. lia. }
  assert (E2 : (m * 256 + c) mod 16 = c mod 16).
  { replace (m * 256 + c) with (c + m * 16 * 16) by lia.
    apply Z.mod_add. lia. }
  assert (R : 0 <= c / 16 < 16)
    by (split; [apply Z.div_pos; lia | apply Z.div_lt_upper_bound; lia]).
  rewrite E1, E2.
  destruct (Z.ltb_spec (m * 16 + c / 16) 16) as [H|_]; [lia|].
  assert (E3 : (m * 16 + c / 16) / 16 = m).
  { replace (m * 16 + c / 16) with (c / 16 + m * 16) by lia.
    rewrite Z.div_add by lia. rewrite Z.div_small by lia. lia. }
  assert (E4 : (m * 16 + c / 16) mod 16 = c / 16).
  { replace (m * 16 + c / 16) with (c / 16 + m * 16) by lia.
    rewrite Z.mod_add by lia. apply Z.mod_small. lia. }
  rewrite E3, E4. reflexivity.
Qed.

(** The two encodings of an 8-bit colour: the lower-case one of
    [extractDominantColor] and the upper-case one of [rgbToHex]. *)
Lemma hexOf_bytes (r g b : Z) :
  channel r -> channel g -> channel b ->
  hexOf r g b = ("#" ++ hexPair r ++ hexPair g ++ hexPair b)%string
  /\ PDFProcessor.rgbToHex r g b = JS.toUpperCase (hexOf r g b).
Proof.
  intros Hr Hg Hb.
  destruct (byte_hex r Hr) as (Er & _ & Sr & _).
  destruct (byte_hex g Hg) as (Eg & _ & _ & Sg).
  destruct (byte_hex b Hb) as (Eb & _ & _ & _).
  assert (Ehex : hexOf r g b = ("#" ++ hexPair r ++ hexPair g ++ hexPair b)%string)
    by (unfold hexOf; rewrite Er, Eg, Eb; reflexivity).
  split; [exact Ehex|].
  unfold PDFProcessor.rgbToHex. rewrite Sr, Sg.
  change (JS.shl 1 24) with 16777216.
  unfold channel in *.
  set (n := 16777216 + r * 65536 + g * 256 + b).
  assert (Hlog : Z.log2 n = 24)
    by (apply Z.log2_unique; [lia | subst n; cbn; lia]).
  unfold JS.toString16. destruct (Z.ltb_spec n 0) as [H|_]; [subst n; lia|].
  rewrite Hlog. change (S (Z.to_nat 24)) with (S (S (S (S (S (S 19)))))).
  replace n with (((1 * 256 + r) * 256 + g) * 256 + b) by (subst n; lia).
  rewrite !toString16_aux_byte by lia.
  rewrite Ehex. cbn [JS.toString16_aux Z.ltb Z.compare].
  cbn [JS.drop_chars append JS.toUpperCase]. reflexivity.
Qed.

(** C10, counterexample.  Evaluation of [extractDominantColor] on a
    one-pixel colour box of colour (171, 205, 239): the hex field is
    "#abcdef", in lower case, where the upper-case encoding of the same rgb,
    as [rgbToHex] computes it for the reference colours, is "#ABCDEF". *)
Lemma C10_hex_is_lower_case :
  exists box : ColorBox.t,
    extractDominantColor [171; 205; 239] 1 1 3 0 1 0 0 = Some (Some box)
    /\ ColorBox.rgb box = RGB.mk 171 205 239
    /\ ColorBox.hex box = "#abcdef"
    /\ PDFProcessor.rgbToHex 171 205 239 = "#ABCDEF"
    /\ ColorBox.hex box <> PDFProcessor.rgbToHex 171 205 239.
Proof.
  eexists. split; [vm_compute; reflexivity|].
  cbn [ColorBox.rgb ColorBox.hex].
  split; [reflexivity|]. split; [reflexivity|].
  split; [vm_compute; reflexivity|].
  vm_compute. discriminate.
Qed.

(** C10, as amended.  For every colour box that [extractDominantColor]
    returns with 8-bit channels, the hex field is "#" followed by the six
    lower-case hexadecimal digits of its rgb field, two per channel; in
    upper case it is the encoding that [rgbToHex] gives of the same rgb. *)
Theorem C10_extractDominantColor_hex
    (imageBuffer : list Z) (width height channels startX endX startY endY : Z)
    (box : ColorBox.t) :
  extractDominantColor imageBuffer width height channels startX endX startY endY
  = Some (Some box) ->
  rgb8 (ColorBox.rgb box) ->
  let digits :=
    (hexPair (RGB.r (ColorBox.rgb box)) ++ hexPair (RGB.g (ColorBox.rgb box))
     ++ hexPair (RGB.b (ColorBox.rgb box)))%string in
  ColorBox.hex box = String "#" digits
  /\ String.length digits = 6%nat
  /\ allChars lowerHexDigit digits = true
  /\ JS.toUpperCase (ColorBox.hex box)
     = PDFProcessor.rgbToHex (RGB.r (ColorBox.rgb box)) (RGB.g (ColorBox.rgb box))
         (RGB.b (ColorBox.rgb box)).
Proof.
  intros Hbox H8 digits.
  assert (Hhex : ColorBox.hex box
                 = hexOf (RGB.r (ColorBox.rgb box)) (RGB.g (ColorBox.rgb box))
                     (RGB.b (ColorBox.rgb box))).
  { unfold extractDominantColor in Hbox.
    destruct (sampleTotals _ _ _ _ _ _ _) as [totals|]; [|discriminate].
    cbn [mbind option_bind] in Hbox.
    destruct (pixelCount totals =? 0); [discriminate|].
    destruct (readRGB _ _ _ _ _) as [corner|]; [|discriminate].
    cbn [mbind option_bind] in Hbox. injection Hbox as <-. reflexivity. }
  destruct H8 as (Hr & Hg & Hb).
  destruct (hexOf_bytes _ _ _ Hr Hg Hb) as [E U].
  destruct (byte_hex _ Hr) as (_ & Lr & _).
  destruct (byte_hex _ Hg) as (_ & Lg & _).
  destruct (byte_hex _ Hb) as (_ & Lb & _).
  split; [rewrite Hhex; exact E|].
  split; [reflexivity|].
  split.
  { subst digits. unfold hexPair in *. cbn [append allChars] in *.
    rewrite !andb_true_r in *.
    apply andb_prop in Lr, Lg, Lb. destruct Lr as [-> ->], Lg as [-> ->], Lb as [-> ->].
    reflexivity. }
  rewrite U, Hhex. reflexivity.
Qed.

Lemma C10_extractDominantColor_hex_witness :
  exists box : ColorBox.t,
    extractDominantColor [171; 205; 239] 1 1 3 0 1 0 0 = Some (Some box)
    /\ JS.toUpperCase (ColorBox.hex box) = PDFProcessor.rgbToHex 171 205 239.
Proof.
  set (box := ColorBox.mk (RGB.mk 171 205 239) "#abcdef"
                (BoundingBox.mk 0 0 1 1) (RGB.mk 171 205 239)).
  assert (E : extractDominantColor [171; 205; 239] 1 1 3 0 1 0 0 = Some (Some box))
    by (vm_compute; reflexivity).
  assert (H8 : rgb8 (ColorBox.rgb box)) by (unfold rgb8, channel; cbn; lia).
  destruct (C10_extractDominantColor_hex _ _ _ _ _ _ _ _ box E H8) as (_ & _ & _ & U).
  exists box. split; [exact E | exact U].
Defined.

(** C8, counterexample.  The text "12345" has one non-empty line, whose
    first 6 characters are "12345"; the style number returned is "Unknown".
    And on the lines "1234567890" and "|" there is a second non-empty line,
    yet the style name returned is the rest of the first line, "7890". *)
Lemma C8_short_first_line :
  nonEmptyLines "12345" = ["12345"]
  /\ JS.take_chars 6 "12345" = "12345"
  /\ parseSwatchText "12345" = Some (TextInfo.mk "Unknown" "Unknown")
  /\ nonEmptyLines ("1234567890" ++ String newline "|") = ["1234567890"; "|"]
  /\ parseSwatchText ("1234567890" ++ String newline "|")
     = Some (TextInfo.mk "123456" "7890")
  /\ ~ (exists info, parseSwatchText "12345" = Some info
                     /\ TextInfo.styleNumber info = JS.take_chars 6 "12345").
Proof.
  repeat (split; [vm_compute; reflexivity|]).
  intros (info & H & Hn). vm_compute in H. injection H as <-.
  vm_compute in Hn. discriminate.
Qed.

Lemma take_chars_length (n : nat) (s : string) :
  (n <= String.length s)%nat -> String.length (JS.take_chars n s) = n.
Proof.
  revert s. induction n as [|n IH]; intros [|c s] H; cbn in *; try lia.
  rewrite IH; lia.
Qed.

Lemma parseSwatchText_cases (text : string) :
  match nonEmptyLines text with
  | [] => parseSwatchText text = None
  | line0 :: rest =>
      parseSwatchText text
      = Some (TextInfo.mk
                (if (6 <=? String.length line0)%nat
                 then JS.take_chars 6 line0 else "Unknown")
                (styleNameOf line0 rest))
  end.
Proof.
  unfold parseSwatchText, styleNameOf.
  destruct (nonEmptyLines text) as [|line0 rest]; [reflexivity|].
  change (List.length (line0 :: rest) =? 0)%nat with false.
  change (0 <? List.length (line0 :: rest))%nat with true.
  change (nth 0 (line0 :: rest) "") with line0.
  cbv iota. cbn [andb]. rewrite andb_true_r.
  remember (6 <=? String.length line0)%nat as b6 eqn:E6.
  remember (JS.trim (JS.drop_chars 6 line0)) as remainder eqn:Er.
  remember (2 <? String.length remainder)%nat as b2 eqn:E2.
  assert (Hnum : JS.or_else (if b6 then JS.take_chars 6 line0 else "") "Unknown"
                 = if b6 then JS.take_chars 6 line0 else "Unknown").
  { destruct b6; [|reflexivity]. symmetry in E6. apply Nat.leb_le in E6.
    unfold JS.or_else.
    destruct (JS.take_chars 6 line0) eqn:T; [|reflexivity].
    apply (f_equal String.length) in T.
    rewrite take_chars_length in T by exact E6. discriminate. }
  assert (Hrem : b2 = true -> JS.or_else remainder "Unknown" = remainder).
  { intros ->. destruct remainder; [discriminate|reflexivity]. }
  rewrite Hnum. f_equal. f_equal.
  destruct rest as [|line1 rest'].
  - change (1 <? List.length [line0])%nat with false. cbn [JS.truthy negb].
    destruct b2; [apply Hrem; reflexivity | reflexivity].
  - change (1 <? List.length (line0 :: line1 :: rest'))%nat with true.
    change (nth 1 (line0 :: line1 :: rest') "") with line1. cbv iota.
    remember (JS.trim (collapseSpaces (stripPipes line1))) as cleaned eqn:Ec.
    destruct (JS.truthy line1) eqn:T1.
    + destruct (JS.truthy cleaned) eqn:T2; cbn [negb].
      * unfold JS.or_else. rewrite T2. reflexivity.
      * destruct b2; [apply Hrem; reflexivity|].
        unfold JS.or_else. rewrite T2. reflexivity.
    + destruct line1; [|discriminate]. subst cleaned.
      change (JS.truthy (JS.trim (collapseSpaces (stripPipes "")))) with false.
      cbn [JS.truthy negb].
      destruct b2; [apply Hrem; reflexivity | reflexivity].
Qed.

(** C8, as amended.  With no non-empty line [parseSwatchText] returns no
    result, and the swatch extraction leaves the region out.  Otherwise the
    style number is the first 6 characters of the first non-empty trimmed
    line when that line has at least 6 characters, and "Unknown" when it is
    shorter; the style name is the second non-empty line with the pipes
    removed, each run of white space replaced by one space, and trimmed,
    when that is not empty; otherwise the trimmed rest of the first line
    after position 6 when it has more than 2 characters; otherwise
    "Unknown".  On the lines "123456 SAMPLE" and "My Style Name" the result
    is "123456" and "My Style Name". *)
Theorem C8_parseSwatchText :
  (forall text : string,
     match nonEmptyLines text with
     | [] => parseSwatchText text = None
     | line0 :: rest =>
         parseSwatchText text
         = Some (TextInfo.mk
                   (if (6 <=? String.length line0)%nat
                    then JS.take_chars 6 line0 else "Unknown")
                   (styleNameOf line0 rest))
     end)
  /\ (forall (row : RowBoundary.t) (region : Region.t),
        nonEmptyLines (JS.trim (Region.ocrText region)) = [] ->
        extractSwatchFromBoundary row region = None
        /\ forall before after : list Region.t,
             extractSwatchGroupsFromRow row (before ++ region :: after)
             = extractSwatchGroupsFromRow row (before ++ after))
  /\ parseSwatchText ("123456 SAMPLE" ++ String newline "My Style Name")
     = Some (TextInfo.mk "123456" "My Style Name").
Proof.
  split; [exact parseSwatchText_cases|].
  split; [|vm_compute; reflexivity].
  intros row region Hlines.
  assert (Hnone : extractSwatchFromBoundary row region = None).
  { unfold extractSwatchFromBoundary.
    pose proof (parseSwatchText_cases (JS.trim (Region.ocrText region))) as H.
    rewrite Hlines in H. rewrite H. reflexivity. }
  split; [exact Hnone|].
  intros before after. unfold extractSwatchGroupsFromRow.
  rewrite !omap_app. cbn [omap list_omap]. rewrite Hnone. reflexivity.
Qed.

(** *** Row detection *)

Section RowDetection.

Variables (imageBuffer : list Z) (width height channels scanX : Z).

(** The background test of the two scans, at row [y] of the scan column. *)
Let white (y : Z) : bool :=
  isWhiteOrNearWhite (pixelAt imageBuffer width channels scanX y).

Lemma findRowStart_from_first (y0 : Z) (n : nat) :
  forall y : Z,
  y <= y0 < y + Z.of_nat n ->
  (forall z, y <= z < y0 -> white z = true) ->
  white y0 = false ->
  findRowStart_from imageBuffer width channels scanX n y
  = Some (Z.max 0 (y0 - textMargin)).
Proof.
  induction n as [|n IH]; intros y Hy Hwhite Hy0; [lia|].
  cbn [findRowStart_from]. fold (white y).
  destruct (Z.eq_dec y y0) as [->|Hne].
  - rewrite Hy0. reflexivity.
  - rewrite Hwhite by lia. cbn [negb]. apply IH; [lia| |exact Hy0].
    intros z Hz. apply Hwhite. lia.
Qed.

Section RowEnd.

Variables (rowStart gap : Z).

Let scan := findRowEnd_from imageBuffer width channels scanX rowStart gap.

(** [k] background rows that do not reach the threshold are counted. *)
Lemma findRowEnd_from_white (k : nat) :
  forall (n : nat) (y c : Z),
  (forall z, y <= z < y + Z.of_nat k -> white z = true) ->
  c + Z.of_nat k < gap ->
  scan (k + n)%nat y c = scan n (y + Z.of_nat k) (c + Z.of_nat k).
Proof.
  induction k as [|k IH]; intros n y c Hwhite Hc.
  - cbn. rewrite !Z.add_0_r. reflexivity.
  - cbn [Nat.add]. unfold scan at 1. cbn [findRowEnd_from]. fold (white y).
    rewrite Hwhite by lia.
    destruct (Z.leb_spec gap (c + 1)) as [Hle|_]; [lia|].
    fold scan. rewrite IH.
    + f_equal; lia.
    + intros z Hz. apply Hwhite. lia.
    + lia.
Qed.

(** [k] content rows reset the count. *)
Lemma findRowEnd_from_content (k : nat) :
  forall (n : nat) (y c : Z),
  (forall z, y <= z < y + Z.of_nat k -> white z = false) ->
  (0 < k)%nat ->
  scan (k + n)%nat y c = scan n (y + Z.of_nat k) 0.
Proof.
  induction k as [|k IH]; intros n y c Hcontent Hk; [lia|].
  cbn [Nat.add]. unfold scan at 1. cbn [findRowEnd_from]. fold (white y).
  rewrite Hcontent by lia. fold scan.
  destruct k as [|k'].
  - cbn. f_equal. 
  - rewrite IH.
    + f_equal. lia.
    + intros z Hz. apply Hcontent. lia.
    + lia.
Qed.

(** Background rows up to the threshold close the row. *)
Lemma findRowEnd_from_close (k : nat) :
  forall (n : nat) (y c : Z),
  (forall z, y <= z < y + Z.of_nat k -> white z = true) ->
  (0 < k)%nat ->
  c + Z.of_nat k = gap ->
  scan (k + n)%nat y c = Some (Z.max (y - c - 1) (rowStart + 1)).
Proof.
  induction k as [|k IH]; intros n y c Hwhite Hk Hc; [lia|].
  cbn [Nat.add]. unfold scan. cbn [findRowEnd_from]. fold (white y).
  rewrite Hwhite by lia.
  destruct (Z.leb_spec gap (c + 1)) as [Hle|Hlt].
  - f_equal. f_equal. lia.
  - fold scan. destruct k as [|k']; [lia|].
    rewrite IH.
    + f_equal. f_equal. lia.
    + intros z Hz. apply Hwhite. lia.
    + lia.
    + lia.
Qed.

End RowEnd.

(** C7, as amended.  On a scan column that is background above [y0],
    content from [y0] to [y1] and background on the [gap] rows after [y1],
    when those rows end before the last 10 rows of the image
    ([y1 + gap < height - 10]) and the threshold exceeds the part of the
    45-row back-off that lies in the image ([min 45 y0 < gap], as is the
    case for the threshold 50 of [detectRows]), the row starts at
    [max 0 (y0 - 45)], which is at most [y0], ends at [y1] (at the row after
    the start when [y1] is the start), and so contains [y0 .. y1]. *)
Theorem C7_row_detection (startY y0 y1 gap : Z) :
  0 <= startY <= y0 ->
  y0 <= y1 ->
  (forall y, 0 <= y < y0 -> white y = true) ->
  (forall y, y0 <= y <= y1 -> white y = false) ->
  (forall y, y1 < y <= y1 + gap -> white y = true) ->
  y1 + gap < height - 10 ->
  Z.min 45 y0 < gap ->
  let rowStart := Z.max 0 (y0 - 45) in
  let rowEnd := Z.max y1 (rowStart + 1) in
  findRowStart imageBuffer width height channels scanX startY = Some rowStart
  /\ findRowEnd imageBuffer width height channels scanX rowStart gap = Some rowEnd
  /\ rowStart <= y0 /\ y1 <= rowEnd.
Proof.
  intros HstartY Hy01 Habove Hcontent Hbelow Hfit Hgap rowStart rowEnd.
  assert (Hstart :
    findRowStart imageBuffer width height channels scanX startY = Some rowStart).
  { unfold findRowStart. apply findRowStart_from_first.
    - lia.
    - intros z Hz. apply Habove. lia.
    - apply Hcontent. lia. }
  assert (Hend :
    findRowEnd imageBuffer width height channels scanX rowStart gap = Some rowEnd).
  { unfold findRowEnd.
    set (lead := Z.to_nat (y0 - rowStart)).
    set (body := Z.to_nat (y1 - y0 + 1)).
    set (tail := Z.to_nat gap).
    set (left := Z.to_nat (height - 10 - rowStart - (y1 + gap + 1 - rowStart))).
    replace (Z.to_nat (height - 10 - rowStart))
      with (lead + (body + (tail + left)))%nat by (subst lead body tail left rowStart; lia).
    rewrite findRowEnd_from_white.
    2:{ intros z Hz. apply Habove. subst lead rowStart. lia. }
    2:{ subst lead rowStart. lia. }
    rewrite findRowEnd_from_content.
    2:{ intros z Hz. apply Hcontent. subst lead body rowStart. lia. }
    2:{ subst body. lia. }
    rewrite findRowEnd_from_close.
    - f_equal. subst lead body rowEnd rowStart. lia.
    - intros z Hz. apply Hbelow. subst lead body tail rowStart. lia.
    - subst tail. lia.
    - subst tail. lia. }
  split; [exact Hstart|]. split; [exact Hend|].
  subst rowEnd rowStart. lia.
Qed.

End RowDetection.

Lemma C7_row_detection_witness :
  let imageBuffer := repeat 255 6%nat ++ repeat 0 6%nat ++ repeat 255 39%nat in
  findRowStart imageBuffer 1 17 3 0 0 = Some 0
  /\ findRowEnd imageBuffer 1 17 3 0 0 3 = Some 3.
Proof.
  cbv zeta.
  set (imageBuffer := repeat 255 6%nat ++ repeat 0 6%nat ++ repeat 255 39%nat).
  destruct (C7_row_detection imageBuffer 1 17 3 0 0 2 3 3) as (Hs & He & _).
  - lia.
  - lia.
  - intros y Hy. assert (E : y = 0 \/ y = 1) by lia.
    destruct E as [-> | ->]; reflexivity.
  - intros y Hy. assert (E : y = 2 \/ y = 3) by lia.
    destruct E as [-> | ->]; reflexivity.
  - intros y Hy. assert (E : y = 4 \/ y = 5 \/ y = 6) by lia.
    destruct E as [-> | [-> | ->]]; reflexivity.
  - lia.
  - lia.
  - split; [exact Hs | exact He].
Defined.

(** C7, counterexample.  A column of 210 rows: background on rows 0..99,
    content on rows 100..150, background on the 59 rows 151..209, scanned
    with the threshold 50 of [detectRows].  The scan for the end of the row
    stops at row 199, one background row short of the threshold, and
    returns nothing: no row is detected. *)
Lemma C7_row_near_the_bottom_is_lost :
  let imageBuffer :=
    repeat 255 300%nat ++ repeat 0 153%nat ++ repeat 255 177%nat in
  let white y := isWhiteOrNearWhite (pixelAt imageBuffer 1 3 0 y) in
  (forall y, 0 <= y < 100 -> white y = true)
  /\ (forall y, 100 <= y <= 150 -> white y = false)
  /\ (forall y, 150 < y <= 150 + 50 -> white y = true)
  /\ findRowStart imageBuffer 1 210 3 0 0 = Some 55
  /\ findRowEnd imageBuffer 1 210 3 0 55 50 = None.
Proof.
  cbv zeta.
  set (imageBuffer := repeat 255 300%nat ++ repeat 0 153%nat ++ repeat 255 177%nat).
  set (white := fun y => isWhiteOrNearWhite (pixelAt imageBuffer 1 3 0 y)).
  split.
  { assert (H : all_from 100 0 white = true) by (vm_compute; reflexivity).
    intros y Hy. apply (all_from_spec _ _ _ H). lia. }
  split.
  { assert (H : all_from 51 100 (fun y => negb (white y)) = true)
      by (vm_compute; reflexivity).
    intros y Hy. apply negb_true_iff. apply (all_from_spec _ _ _ H). lia. }
  split.
  { assert (H : all_from 50 151 white = true) by (vm_compute; reflexivity).
    intros y Hy. apply (all_from_spec _ _ _ H). lia. }
  repeat split; vm_compute; reflexivity.
Qed.

(** ** Anchor boxes *)

Import ReferenceColorExtractor.

Lemma indexOf_true_found (row : list bool) :
  In true row -> 0 <= JS.indexOf_true row.
Proof.
  induction row as [|v row IH]; intros Hin; [destruct Hin|].
  cbn [JS.indexOf_true]. destruct v; [lia|].
  destruct Hin as [Hv|Hin]; [discriminate|].
  specialize (IH Hin). destruct (Z.ltb_spec (JS.indexOf_true row) 0); lia.
Qed.

Lemma lastIndexOf_true_found (row : list bool) :
  In true row -> 0 <= JS.lastIndexOf_true row.
Proof.
  induction row as [|v row IH]; intros Hin; [destruct Hin|].
  cbn [JS.lastIndexOf_true].
  destruct (Z.leb_spec 0 (JS.lastIndexOf_true row)) as [Hge|Hlt]; [lia|].
  destruct Hin as [->|Hin]; [lia|]. specialize (IH Hin). lia.
Qed.

Lemma redPixelCount_found (row : list bool) :
  redPixelCount row <> 0 -> In true row.
Proof.
  unfold redPixelCount. intros Hcount.
  destruct (List.filter (fun v : bool => v) row) as [|v l] eqn:E; [contradiction|].
  assert (Hin : In v (List.filter (fun v : bool => v) row))
    by (rewrite E; left; reflexivity).
  apply filter_In in Hin. destruct Hin as [Hin Hv]. subst v. exact Hin.
Qed.

(** A row without anchor-coloured pixels is not significant: [0 / n] is 0
    or NaN, neither of which exceeds 0.1. *)
Lemma significantRed_found (width : Z) (row : list bool) :
  significantRed width row = true -> redPixelCount row <> 0.
Proof.
  unfold significantRed. intros Hsig Hcount. rewrite Hcount in Hsig.
  rewrite FloatAxioms.ltb_spec, FloatAxioms.div_spec in Hsig.
  change (Prim2SF (JS.of_Z 0)) with (S754_zero false) in Hsig.
  change (Prim2SF one_tenth)
    with (S754_finite false 7205759403792794 (-56)) in Hsig.
  destruct (Prim2SF (JS.of_Z (leftMarginWidth width))) as [s|s| |s m e];
    try destruct s; cbn in Hsig; discriminate.
Qed.

(** The three-way branch of [groupRow] is in fact two-way. *)
Lemma groupRow_cases (width y : Z) (row : list bool)
    (currentBox : option BoundingBox.t) (redBoxes : list BoundingBox.t) :
  groupRow width y row (currentBox, redBoxes)
  = if anchorRow width row then
      (Some match currentBox with
            | None => BoundingBox.mk (JS.indexOf_true row) y (rowWidth row) 1
            | Some box =>
                BoundingBox.mk (BoundingBox.x box) (BoundingBox.y box)
                  (Z.max (BoundingBox.width box) (rowWidth row))
                  (BoundingBox.height box + 1)
            end, redBoxes)
    else (None, closeBox currentBox redBoxes).
Proof.
  unfold groupRow, anchorRow, rowWidth.
  destruct (significantRed width row) eqn:Hsig; [|reflexivity].
  pose proof (redPixelCount_found row (significantRed_found _ _ Hsig)) as Hin.
  pose proof (indexOf_true_found row Hin) as Hl.
  pose proof (lastIndexOf_true_found row Hin) as Hr.
  destruct (Z.eqb_spec (JS.indexOf_true row) (-1)); [lia|].
  destruct (Z.eqb_spec (JS.lastIndexOf_true row) (-1)); [lia|].
  cbn [negb andb].
  destruct (5 <=? _); [|reflexivity]. destruct currentBox; reflexivity.
Qed.

Lemma boxOver_app (width : Z) (m m' : list (list bool)) (box : BoundingBox.t) :
  boxOver width m box -> boxOver width (m ++ m') box.
Proof.
  intros (Hy & Hh & (row0 & Hrow0 & Hx) & Hrows & (j & row & Hj & Hrow & Hw)).
  repeat split; try assumption.
  - exists row0. split; [apply lookup_app_l_Some; exact Hrow0 | exact Hx].
  - intros k Hk. destruct (Hrows k Hk) as (r & Hr & Ha & Hle).
    exists r. split; [apply lookup_app_l_Some; exact Hr | auto].
  - exists j, row. split; [exact Hj|].
    split; [apply lookup_app_l_Some; exact Hrow | exact Hw].
Qed.

Lemma closeBox_grouped (width : Z) (done more : list (list bool))
    (currentBox : option BoundingBox.t) (redBoxes : list BoundingBox.t) :
  grouped width done (currentBox, redBoxes) ->
  forall box, In box (closeBox currentBox redBoxes) ->
  boxOver width (done ++ more) box /\ 8 <= BoundingBox.height box.
Proof.
  intros [Hboxes Hcur] box Hin. cbn [fst snd] in *.
  assert (Hold : In box redBoxes ->
                 boxOver width (done ++ more) box /\ 8 <= BoundingBox.height box).
  { intros H. destruct (Hboxes box H). split; [apply boxOver_app|]; assumption. }
  unfold closeBox in Hin. destruct currentBox as [b|]; [|auto].
  destruct (Z.leb_spec 8 (BoundingBox.height b)) as [H8|_]; [|auto].
  apply in_app_iff in Hin. destruct Hin as [Hin|[<-|[]]]; [auto|].
  destruct (Hcur b eq_refl) as [Hb _]. split; [apply boxOver_app|]; assumption.
Qed.

Lemma groupRow_grouped (width : Z) (done : list (list bool)) (row : list bool)
    (st : option BoundingBox.t * list BoundingBox.t) :
  grouped width done st ->
  grouped width (done ++ [row]) (groupRow width (Z.of_nat (List.length done)) row st).
Proof.
  destruct st as [currentBox redBoxes]. intros Hinv.
  rewrite groupRow_cases. destruct (anchorRow width row) eqn:Hanchor.
  2:{ split; cbn [fst snd]; [|discriminate].
      apply closeBox_grouped. exact Hinv. }
  destruct Hinv as [Hboxes Hcur]. cbn [fst snd] in *.
  assert (Hlast : (done ++ [row]) !! Z.to_nat (Z.of_nat (List.length done)) = Some row).
  { rewrite Nat2Z.id. apply list_lookup_middle. reflexivity. }
  assert (Hlen : Z.of_nat (List.length (done ++ [row])) = Z.of_nat (List.length done) + 1).
  { rewrite length_app. cbn. lia. }
  split; cbn [fst snd].
  { intros box Hin. destruct (Hboxes box Hin).
    split; [apply boxOver_app|]; assumption. }
  intros box' Hbox'. injection Hbox' as <-.
  destruct currentBox as [box|].
  - destruct (Hcur box eq_refl) as [Hover Hend].
    apply (boxOver_app _ _ [row]) in Hover.
    destruct Hover as (Hy & Hh & Hrow0 & Hrows & (j & r & Hj & Hr & Hw)).
    split; [|cbn; lia].
    repeat split; cbn [BoundingBox.x BoundingBox.y BoundingBox.width BoundingBox.height];
      try assumption; try lia.
    + intros k Hk.
      destruct (Z.eq_dec k (Z.of_nat (List.length done))) as [->|Hne].
      * exists row. split; [exact Hlast|]. split; [exact Hanchor | lia].
      * destruct (Hrows k ltac:(lia)) as (rk & Hrk & Hak & Hwk).
        exists rk. split; [exact Hrk|]. split; [exact Hak | lia].
    + destruct (Z.max_spec (BoundingBox.width box) (rowWidth row)) as [[_ E]|[_ E]].
      * exists (Z.of_nat (List.length done)), row.
        split; [lia|]. split; [exact Hlast | lia].
      * exists j, r. split; [lia|]. split; [exact Hr | lia].
  - split; [|cbn; lia].
    unfold anchorRow in Hanchor. apply andb_prop in Hanchor.
    repeat split; cbn [BoundingBox.x BoundingBox.y BoundingBox.width BoundingBox.height];
      try lia.
    + exists row. split; [exact Hlast | reflexivity].
    + intros k Hk. exists row. replace k with (Z.of_nat (List.length done)) by lia.
      split; [exact Hlast|]. split; [|lia].
      unfold anchorRow. apply andb_true_intro. exact Hanchor.
    + exists (Z.of_nat (List.length done)), row.
      split; [lia|]. split; [exact Hlast | reflexivity].
Qed.

Lemma groupRows_grouped (width : Z) (rows : list (list bool)) :
  forall (done : list (list bool)) (st : option BoundingBox.t * list BoundingBox.t),
  grouped width done st ->
  grouped width (done ++ rows) (groupRows width rows (Z.of_nat (List.length done)) st).
Proof.
  induction rows as [|row rows IH]; intros done st Hinv; cbn [groupRows].
  - rewrite app_nil_r. exact Hinv.
  - replace (done ++ row :: rows) with ((done ++ [row]) ++ rows)
      by (rewrite <- app_assoc; reflexivity).
    replace (Z.of_nat (List.length done) + 1)
      with (Z.of_nat (List.length (done ++ [row])))
      by (rewrite length_app; cbn; lia).
    apply IH. apply groupRow_grouped. exact Hinv.
Qed.

Lemma redPixelMatrix_lookup (width height : Z) (rawBuffer : list Z)
    (j : Z) (row : list bool) :
  0 <= j ->
  redPixelMatrix width height rawBuffer !! Z.to_nat j = Some row ->
  j < height /\ row = redPixelRow width rawBuffer j.
Proof.
  intros Hj Hrow. unfold redPixelMatrix in Hrow.
  change (map ?f ?l) with (f <$> l) in Hrow.
  rewrite list_lookup_fmap in Hrow.
  destruct (seqZ 0 height !! Z.to_nat j) as [k|] eqn:Hk; [|discriminate].
  apply lookup_seqZ in Hk. destruct Hk as [-> Hlt].
  injection Hrow as <-. split; [lia|]. f_equal. lia.
Qed.

(** C6, as amended.  Every box that [findRedAnchorBoxes] returns spans at
    least 8 contiguous rows of the image, in each of which the fraction of
    anchor-coloured pixels in the left margin exceeds 10% (as the source
    computes it) and the anchor-coloured pixels span at least 5 columns;
    the x of the box is the leftmost anchor-coloured pixel of its first row
    and its width is the greatest span width among its rows. *)
Theorem C6_findRedAnchorBoxes
    (width height : Z) (rawBuffer : list Z)
    (redBoxes : list BoundingBox.t) (box : BoundingBox.t) :
  findRedAnchorBoxes width height rawBuffer = Some redBoxes ->
  In box redBoxes ->
  let row j := redPixelRow width rawBuffer j in
  8 <= BoundingBox.height box
  /\ 0 <= BoundingBox.y box
  /\ BoundingBox.y box + BoundingBox.height box <= height
  /\ (forall j,
        BoundingBox.y box <= j < BoundingBox.y box + BoundingBox.height box ->
        significantRed width (row j) = true
        /\ 5 <= rowWidth (row j) <= BoundingBox.width box)
  /\ BoundingBox.x box = JS.indexOf_true (row (BoundingBox.y box))
  /\ (exists j,
        BoundingBox.y box <= j < BoundingBox.y box + BoundingBox.height box
        /\ BoundingBox.width box = rowWidth (row j)).
Proof.
  intros Hfound Hin row. unfold findRedAnchorBoxes in Hfound.
  destruct ((width =? 0) || (height =? 0)); [discriminate|].
  assert (Hinv : grouped width (redPixelMatrix width height rawBuffer)
                   (groupRows width (redPixelMatrix width height rawBuffer) 0 (None, []))).
  { apply (groupRows_grouped width (redPixelMatrix width height rawBuffer) [] (None, [])).
    split; cbn; [intros ? [] | discriminate]. }
  destruct (groupRows width (redPixelMatrix width height rawBuffer) 0 (None, []))
    as [currentBox pushed].
  injection Hfound as <-.
  destruct (closeBox_grouped width _ [] currentBox pushed Hinv box Hin)
    as [Hover H8].
  rewrite app_nil_r in Hover.
  destruct Hover as (Hy & Hh & (row0 & Hrow0 & Hx) & Hrows & (j & r & Hj & Hr & Hw)).
  split; [exact H8|]. split; [exact Hy|].
  assert (Hrow : forall k,
            BoundingBox.y box <= k < BoundingBox.y box + BoundingBox.height box ->
            k < height /\ anchorRow width (row k) = true
            /\ rowWidth (row k) <= BoundingBox.width box).
  { intros k Hk. destruct (Hrows k Hk) as (rk & Hrk & Hak & Hwk).
    apply redPixelMatrix_lookup in Hrk; [|lia]. destruct Hrk as [Hlt ->]. auto. }
  split.
  { destruct (Hrow (BoundingBox.y box + BoundingBox.height box - 1)) as [Hlt _]; lia. }
  split.
  { intros k Hk. destruct (Hrow k Hk) as (_ & Hak & Hwk).
    unfold anchorRow in Hak. apply andb_prop in Hak. destruct Hak as [Hs H5].
    apply Z.leb_le in H5. auto. }
  split.
  { apply redPixelMatrix_lookup in Hrow0; [|lia]. destruct Hrow0 as [_ ->]. exact Hx. }
  exists j. split; [exact Hj|].
  apply redPixelMatrix_lookup in Hr; [|lia]. destruct Hr as [_ ->]. symmetry. exact Hw.
Qed.

Lemma C6_findRedAnchorBoxes_witness :
  let rawBuffer := paintRows 100 (repeat (2, 8) 9%nat) in
  findRedAnchorBoxes 100 9 rawBuffer = Some [BoundingBox.mk 2 0 7 9]
  /\ 8 <= 9
  /\ 2 = JS.indexOf_true (redPixelRow 100 rawBuffer 0).
Proof.
  cbv zeta.
  set (rawBuffer := paintRows 100 (repeat (2, 8) 9%nat)).
  assert (Hfound : findRedAnchorBoxes 100 9 rawBuffer = Some [BoundingBox.mk 2 0 7 9])
    by (vm_compute; reflexivity).
  destruct (C6_findRedAnchorBoxes 100 9 rawBuffer _ (BoundingBox.mk 2 0 7 9) Hfound)
    as (H8 & _ & _ & _ & Hx & _); [left; reflexivity|].
  split; [exact Hfound|]. split; [exact H8 | exact Hx].
Defined.

(** C6, counterexample.  An image 100 wide (left margin 10) and 8 high:
    anchor red in columns 0..4 of row 0 and in columns 5..9 of rows 1..7.
    One box is returned, with x = 0 and width 5 (columns 0..4), where the
    union of the spans of its rows is columns 0..9. *)
Lemma C6_extent_is_not_the_union :
  let rawBuffer := paintRows 100 ((0, 4) :: repeat (5, 9) 7%nat) in
  findRedAnchorBoxes 100 8 rawBuffer = Some [BoundingBox.mk 0 0 5 8]
  /\ spanUnion (map (redPixelRow 100 rawBuffer) (seqZ 0 8)) = (0, 9)
  /\ (0, 0 + 5 - 1) <> spanUnion (map (redPixelRow 100 rawBuffer) (seqZ 0 8)).
Proof.
  cbv zeta.
  assert (E : spanUnion
                (map (redPixelRow 100 (paintRows 100 ((0, 4) :: repeat (5, 9) 7%nat)))
                   (seqZ 0 8)) = (0, 9))
    by (vm_compute; reflexivity).
  split; [vm_compute; reflexivity|].
  split; [exact E|]. rewrite E. discriminate.
Qed.

(** ** The matcher *)

(** *** The order of binary64 numbers *)

Ltac order_cases :=
  repeat match goal with
  | |- context [Z.compare ?a ?b] => destruct (Z.compare_spec a b); subst
  | H : context [Z.compare ?a ?b] |- _ => destruct (Z.compare_spec a b); subst
  | |- context [Pos.compare ?a ?b] => destruct (Pos.compare_spec a b); subst
  | H : context [Pos.compare ?a ?b] |- _ => destruct (Pos.compare_spec a b); subst
  end.

Ltac by_float_cases a b c :=
  unfold SFltb, SFleb, SFcompare;
  destruct a as [[|]|[|]| |[|] ? ?], b as [[|]|[|]| |[|] ? ?],
           c as [[|]|[|]| |[|] ? ?];
  try discriminate; try reflexivity; intros;
  change (PosDef.Pos.compare_cont Eq) with Pos.compare in *;
  order_cases; cbn in *; try discriminate; try reflexivity; try lia.

Lemma SFltb_trans (a b c : spec_float) :
  SFltb a b = true -> SFltb b c = true -> SFltb a c = true.
Proof. by_float_cases a b c. Qed.

Lemma SFltb_leb_trans (a b c : spec_float) :
  SFltb a b = true -> SFleb b c = true -> SFleb a c = true.
Proof. by_float_cases a b c. Qed.

Lemma ltb_trans (a b c : float) :
  PrimFloat.ltb a b = true -> PrimFloat.ltb b c = true -> PrimFloat.ltb a c = true.
Proof. rewrite !FloatAxioms.ltb_spec. apply SFltb_trans. Qed.

Lemma ltb_leb_trans (a b c : float) :
  PrimFloat.ltb a b = true -> PrimFloat.leb b c = true -> PrimFloat.leb a c = true.
Proof. rewrite FloatAxioms.ltb_spec, !FloatAxioms.leb_spec. apply SFltb_leb_trans. Qed.

Lemma ltb_irrefl (a : float) : PrimFloat.ltb a a = false.
Proof.
  rewrite FloatAxioms.ltb_spec. unfold SFltb, SFcompare.
  destruct (Prim2SF a) as [[|]|[|]| |[|] m e]; try reflexivity;
    change (PosDef.Pos.compare_cont Eq) with Pos.compare;
    rewrite Z.compare_refl, Pos.compare_refl; reflexivity.
Qed.

(** *** The square root on squared distances

    Evaluated on every integer up to 3 * 255^2: the binary64 square roots of
    consecutive integers are strictly increasing, and the last is finite. *)
Lemma sqrtZ_consecutive :
  all_from (Z.to_nat maxSquaredDistance) 0
    (fun n => PrimFloat.ltb (sqrtZ n) (sqrtZ (n + 1))) = true.
Proof. vm_compute. reflexivity. Qed.

Lemma sqrtZ_last_finite :
  PrimFloat.ltb (sqrtZ maxSquaredDistance) PrimFloat.infinity = true.
Proof. vm_compute. reflexivity. Qed.

Lemma sqrtZ_increasing (a b : Z) :
  0 <= a < b -> b <= maxSquaredDistance ->
  PrimFloat.ltb (sqrtZ a) (sqrtZ b) = true.
Proof.
  intros Hab Hb.
  assert (Hstep : forall n, 0 <= n < maxSquaredDistance ->
                            PrimFloat.ltb (sqrtZ n) (sqrtZ (n + 1)) = true).
  { intros n Hn. apply (all_from_spec _ _ _ sqrtZ_consecutive n).
    rewrite Z2Nat.id by (unfold maxSquaredDistance; lia). lia. }
  assert (Hk : forall k : nat, a + 1 + Z.of_nat k <= maxSquaredDistance ->
                 PrimFloat.ltb (sqrtZ a) (sqrtZ (a + 1 + Z.of_nat k)) = true).
  { induction k as [|k IH]; intros Hle.
    - rewrite Z.add_0_r. apply Hstep. lia.
    - apply (ltb_trans _ (sqrtZ (a + 1 + Z.of_nat k))); [apply IH; lia|].
      replace (a + 1 + Z.of_nat (S k)) with (a + 1 + Z.of_nat k + 1) by lia.
      apply Hstep. lia. }
  replace b with (a + 1 + Z.of_nat (Z.to_nat (b - a - 1))) by lia.
  apply Hk. lia.
Qed.

Lemma sqrtZ_finite (a : Z) :
  0 <= a <= maxSquaredDistance ->
  PrimFloat.ltb (sqrtZ a) PrimFloat.infinity = true.
Proof.
  intros Ha. destruct (Z.eq_dec a maxSquaredDistance) as [->|Hne].
  - exact sqrtZ_last_finite.
  - apply (ltb_trans _ (sqrtZ maxSquaredDistance)).
    + apply sqrtZ_increasing; lia.
    + exact sqrtZ_last_finite.
Qed.

(** On squared distances the comparison of the square roots is the
    comparison of the integers. *)
Lemma sqrtZ_ltb (a b : Z) :
  0 <= a <= maxSquaredDistance -> 0 <= b <= maxSquaredDistance ->
  PrimFloat.ltb (sqrtZ a) (sqrtZ b) = (a <? b).
Proof.
  intros Ha Hb. destruct (Z.ltb_spec a b) as [Hlt|Hge].
  - apply sqrtZ_increasing; lia.
  - destruct (Z.eq_dec a b) as [->|Hne]; [apply ltb_irrefl|].
    destruct (PrimFloat.ltb (sqrtZ a) (sqrtZ b)) eqn:E; [|reflexivity].
    assert (Hba : PrimFloat.ltb (sqrtZ b) (sqrtZ a) = true)
      by (apply sqrtZ_increasing; lia).
    pose proof (ltb_trans _ _ _ E Hba) as Haa.
    rewrite ltb_irrefl in Haa. discriminate.
Qed.

Lemma square_range (d : Z) : -255 <= d <= 255 -> 0 <= d * d <= 255 * 255.
Proof. intros Hd. split; nia. Qed.

Lemma squaredDistance_range (c1 c2 : RGB.t) :
  rgb8 c1 -> rgb8 c2 ->
  0 <= ColorMatcher.squaredDistance c1 c2 <= maxSquaredDistance.
Proof.
  intros (Hr1 & Hg1 & Hb1) (Hr2 & Hg2 & Hb2).
  unfold channel, ColorMatcher.squaredDistance, maxSquaredDistance in *.
  cbv zeta.
  pose proof (square_range (RGB.r c1 - RGB.r c2) ltac:(lia)).
  pose proof (square_range (RGB.g c1 - RGB.g c2) ltac:(lia)).
  pose proof (square_range (RGB.b c1 - RGB.b c2) ltac:(lia)).
  lia.
Qed.

(** *** The search loop *)

Import ColorMatcher.

Lemma calculateColorDistance_sqrtZ (color : RGB.t) (ref : ReferenceColor.t) :
  calculateColorDistance color (ReferenceColor.rgb ref) = sqrtZ (squaredTo color ref).
Proof. reflexivity. Qed.

(** Whatever the colours: the closest reference, when there is one, is one
    of the references visited, and the least distance is the distance to
    it. *)
Lemma search_member (swatchColor : ColorBox.t) (refs : list ReferenceColor.t) :
  forall st : Search,
  (forall best, st.1 = Some best ->
     st.2 = calculateColorDistance (ColorBox.rgb swatchColor) (ReferenceColor.rgb best)) ->
  forall best, (search swatchColor refs st).1 = Some best ->
  (search swatchColor refs st).2
  = calculateColorDistance (ColorBox.rgb swatchColor) (ReferenceColor.rgb best)
  /\ (In best refs \/ st.1 = Some best).
Proof.
  unfold search.
  induction refs as [|ref refs IH]; intros st Hst best Hbest; cbn [fold_left] in *.
  - split; [apply Hst; exact Hbest | right; exact Hbest].
  - destruct (IH (visit swatchColor st ref)) with (best := best) as [Hd Hin].
    + destruct st as [cl md]. unfold visit.
      destruct (PrimFloat.ltb _ md); cbn [fst snd].
      * intros b Hb. injection Hb as <-. reflexivity.
      * exact Hst.
    + exact Hbest.
    + split; [exact Hd|]. destruct Hin as [Hin|Hin]; [left; right; exact Hin|].
      destruct st as [cl md]. unfold visit in Hin.
      destruct (PrimFloat.ltb _ md); cbn [fst] in Hin.
      * injection Hin as <-. left. left. reflexivity.
      * right. exact Hin.
Qed.

(** On 8-bit colours: one step of the loop. *)
Lemma visit_searched (swatchColor : ColorBox.t)
    (done : list ReferenceColor.t) (ref : ReferenceColor.t) (st : Search) :
  rgb8 (ColorBox.rgb swatchColor) ->
  (forall r, In r done -> rgb8 (ReferenceColor.rgb r)) ->
  rgb8 (ReferenceColor.rgb ref) ->
  searched (ColorBox.rgb swatchColor) done st ->
  searched (ColorBox.rgb swatchColor) (done ++ [ref]) (visit swatchColor st ref).
Proof.
  intros Hc Hdone Href Hinv. destruct st as [cl md].
  unfold searched in Hinv. cbn [fst snd] in Hinv. unfold visit.
  set (color := ColorBox.rgb swatchColor) in *.
  rewrite calculateColorDistance_sqrtZ.
  pose proof (squaredDistance_range color _ Hc Href) as Rref.
  fold (squaredTo color ref) in Rref.
  destruct cl as [best|].
  - destruct Hinv as [-> (i & Hi & Hmin & Hfirst)].
    assert (Hbest : In best done) by (apply list_elem_of_In, list_elem_of_lookup; eauto).
    pose proof (squaredDistance_range color _ Hc (Hdone best Hbest)) as Rbest.
    fold (squaredTo color best) in Rbest.
    rewrite calculateColorDistance_sqrtZ, sqrtZ_ltb by assumption.
    destruct (Z.ltb_spec (squaredTo color ref) (squaredTo color best)) as [Hlt|Hge];
      unfold searched; cbn [fst snd].
    + split; [reflexivity|]. exists (List.length done). split; [|split].
      * apply list_lookup_middle. reflexivity.
      * intros r Hr. apply in_app_iff in Hr. destruct Hr as [Hr|[<-|[]]]; [|lia].
        specialize (Hmin r Hr). lia.
      * intros j r Hj Hr. rewrite lookup_app_l in Hr by exact Hj.
        assert (Hin : In r done) by (apply list_elem_of_In, list_elem_of_lookup; eauto).
        specialize (Hmin r Hin). lia.
    + split; [reflexivity|]. exists i. split; [|split].
      * apply lookup_app_l_Some. exact Hi.
      * intros r Hr. apply in_app_iff in Hr. destruct Hr as [Hr|[<-|[]]]; [auto|lia].
      * intros j r Hj Hr. apply (Hfirst j r Hj).
        rewrite lookup_app_l in Hr; [exact Hr|].
        apply lookup_lt_Some in Hi. lia.
  - destruct Hinv as [-> ->]. rewrite sqrtZ_finite by exact Rref.
    unfold searched; cbn [fst snd app]. split; [reflexivity|].
    exists 0%nat. split; [reflexivity|]. split.
    + intros r [<-|[]]. lia.
    + intros j r Hj. lia.
Qed.

Lemma search_searched (swatchColor : ColorBox.t) (refs : list ReferenceColor.t) :
  rgb8 (ColorBox.rgb swatchColor) ->
  forall (done : list ReferenceColor.t) (st : Search),
  (forall r, In r (done ++ refs) -> rgb8 (ReferenceColor.rgb r)) ->
  searched (ColorBox.rgb swatchColor) done st ->
  searched (ColorBox.rgb swatchColor) (done ++ refs) (search swatchColor refs st).
Proof.
  intros Hc. unfold search.
  induction refs as [|ref refs IH]; intros done st H8 Hinv; cbn [fold_left].
  - rewrite app_nil_r. exact Hinv.
  - replace (done ++ ref :: refs) with ((done ++ [ref]) ++ refs) in *
      by (rewrite <- app_assoc; reflexivity).
    apply IH; [exact H8|].
    apply visit_searched; [exact Hc | | | exact Hinv].
    + intros r Hr. apply H8. apply in_app_iff. left. apply in_app_iff. left. exact Hr.
    + apply H8. apply in_app_iff. left. apply in_app_iff. right. left. reflexivity.
Qed.

Lemma findClosestReferenceColor_unfold
    (referenceColors : list ReferenceColor.t) (maxDistance : float)
    (swatchColor : ColorBox.t) :
  findClosestReferenceColor referenceColors maxDistance swatchColor
  = match referenceColors with
    | [] => None
    | _ :: _ =>
        match search swatchColor referenceColors (None, PrimFloat.infinity) with
        | (Some closest, minDistance) =>
            if PrimFloat.leb minDistance maxDistance
            then Some (Closest.mk closest minDistance
                         (round2 (clampedScore minDistance maxDistance)))
            else None
        | (None, _) => None
        end
    end.
Proof.
  unfold findClosestReferenceColor. destruct referenceColors as [|ref refs]; [reflexivity|].
  cbn [List.length Nat.eqb].
  destruct (search swatchColor (ref :: refs) (None, PrimFloat.infinity)) as [[closest|] md];
    reflexivity.
Qed.

(** With the default acceptance distance: what is accepted is at most
    150 away, and the record stored for it has a rounded distance of at
    most 150 and a confidence between 0 and 100. *)
Lemma default_rejects_beyond :
  PrimFloat.leb (sqrtZ (150 * 150 + 1)) defaultMaxDistance = false.
Proof. vm_compute. reflexivity. Qed.

Lemma default_record_bounds :
  all_from (Z.to_nat (150 * 150 + 1)) 0
    (fun n =>
       let d := sqrtZ n in
       let confidence := round2 (clampedScore d defaultMaxDistance) in
       PrimFloat.leb (round2 d) defaultMaxDistance
       && PrimFloat.leb 0 confidence && PrimFloat.leb confidence 100) = true.
Proof. vm_compute. reflexivity. Qed.

Lemma default_accepts (n : Z) :
  0 <= n <= maxSquaredDistance ->
  PrimFloat.leb (sqrtZ n) defaultMaxDistance = true ->
  n <= 150 * 150.
Proof.
  intros Hn Hle. destruct (Z.le_gt_cases n (150 * 150)) as [H|H]; [exact H|].
  exfalso. pose proof default_rejects_beyond as Hrej.
  destruct (Z.eq_dec n (150 * 150 + 1)) as [->|Hne]; [congruence|].
  rewrite (ltb_leb_trans (sqrtZ (150 * 150 + 1)) (sqrtZ n)) in Hrej;
    [discriminate | | exact Hle].
  apply sqrtZ_increasing; lia.
Qed.

(** C1, counterexample.  With the palette of one reference (1, 1, 0) and
    the default distance 150, the colour (0, 0, 0) is matched at distance
    sqrt 2 with confidence 99.06, where the formula gives
    99.05719095841794: the confidence stored is rounded to two decimals.
    With the one reference (2, 1, 0) and the distance 2.237, the colour is
    matched (sqrt 5 is below 2.237) and the distance stored is 2.24, above
    2.237: the distance stored is rounded too. *)
Lemma C1_confidence_and_distance_are_rounded :
  let black := ColorBox.mk (RGB.mk 0 0 0) "#000000" (BoundingBox.mk 0 0 20 20)
                 (RGB.mk 0 0 0) in
  let near := ReferenceColor.mk "B60002" "New Black" "19-0303 TCX"
                (RGB.mk 1 1 0) "#010100" (BoundingBox.mk 15 0 40 40) in
  let far := ReferenceColor.mk "B10093" "Deep Depths" "19-4019 TCX"
               (RGB.mk 2 1 0) "#020100" (BoundingBox.mk 75 0 40 40) in
  let m1 := MatchedColor.matchedReference (matchColor [near] defaultMaxDistance black) in
  let m2 := MatchedColor.matchedReference (matchColor [far] 2.237%float black) in
  MatchedReference.colorCode m1 = "B60002"
  /\ MatchedReference.confidence m1 = 99.06%float
  /\ confidenceFormula (calculateColorDistance (RGB.mk 0 0 0) (RGB.mk 1 1 0))
       defaultMaxDistance = 99.05719095841794%float
  /\ MatchedReference.confidence m1
     <> confidenceFormula (calculateColorDistance (RGB.mk 0 0 0) (RGB.mk 1 1 0))
          defaultMaxDistance
  /\ MatchedReference.colorCode m2 = "B10093"
  /\ MatchedReference.distance m2 = 2.24%float
  /\ PrimFloat.leb (MatchedReference.distance m2) 2.237%float = false.
Proof.
  cbv zeta. repeat (split; [vm_compute; reflexivity|]).
  split.
  { intros H. apply (f_equal (fun v => PrimFloat.eqb v 99.06%float)) in H.
    vm_compute in H. discriminate. }
  repeat (split; [vm_compute; reflexivity|]). vm_compute. reflexivity.
Qed.

(** C1, as amended.  For every palette of 8-bit colours, every acceptance
    distance and every sampled 8-bit colour: when [findClosestReferenceColor]
    finds a reference, it is the first reference of the palette at the least
    Euclidean distance, that distance is at most [maxDistance], and the
    record stored carries the code, name and Pantone label of that
    reference, the distance rounded to two decimals and, as confidence,
    [clamp(100 - (distance / maxDistance) * 100, 0, 100)] rounded to two
    decimals; with the default distance 150 the stored distance is still at
    most 150 and the confidence lies between 0 and 100.  When it finds none,
    no reference is within [maxDistance] and the record stored is the
    sentinel. *)
Theorem C1_matchColor
    (referenceColors : list ReferenceColor.t) (maxDistance : float)
    (color : ColorBox.t) :
  rgb8 (ColorBox.rgb color) ->
  (forall ref, In ref referenceColors -> rgb8 (ReferenceColor.rgb ref)) ->
  let c := ColorBox.rgb color in
  let stored :=
    MatchedColor.matchedReference (matchColor referenceColors maxDistance color) in
  match findClosestReferenceColor referenceColors maxDistance color with
  | Some found =>
      let best := Closest.reference found in
      let d := calculateColorDistance c (ReferenceColor.rgb best) in
      (exists i, firstNearest c referenceColors i best)
      /\ Closest.distance found = d
      /\ PrimFloat.leb d maxDistance = true
      /\ Closest.confidence found = round2 (clampedScore d maxDistance)
      /\ stored
         = MatchedReference.mk (ReferenceColor.colorCode best)
             (ReferenceColor.colorName best) (ReferenceColor.pantoneColor best)
             (round2 d) (round2 (clampedScore d maxDistance))
      /\ (maxDistance = defaultMaxDistance ->
          squaredTo c best <= 150 * 150
          /\ PrimFloat.leb (MatchedReference.distance stored) 150 = true
          /\ PrimFloat.leb 0 (MatchedReference.confidence stored) = true
          /\ PrimFloat.leb (MatchedReference.confidence stored) 100 = true)
  | None =>
      (forall ref, In ref referenceColors ->
         PrimFloat.leb (calculateColorDistance c (ReferenceColor.rgb ref)) maxDistance
         = false)
      /\ stored = unmatched
  end.
Proof.
  intros Hc Hrefs c stored. subst stored. unfold matchColor.
  cbn [MatchedColor.matchedReference].
  rewrite findClosestReferenceColor_unfold.
  destruct referenceColors as [|ref0 refs0] eqn:Erefs.
  { split; [intros ref []|reflexivity]. }
  rewrite <- Erefs in *.
  pose proof (search_searched color referenceColors Hc [] (None, PrimFloat.infinity))
    as Hinv.
  cbn [app] in Hinv. specialize (Hinv Hrefs).
  assert (H0 : searched (ColorBox.rgb color) [] (None, PrimFloat.infinity))
    by (split; reflexivity).
  specialize (Hinv H0). clear H0.
  destruct (search color referenceColors (None, PrimFloat.infinity)) as [[best|] md].
  2:{ destruct Hinv as [Hnil _]. rewrite Erefs in Hnil. discriminate. }
  unfold searched in Hinv. cbn [fst snd] in Hinv.
  destruct Hinv as [-> (i & Hi)]. fold c in Hi |- *.
  assert (Hbest : In best referenceColors).
  { destruct Hi as [Hi _]. apply list_elem_of_In, list_elem_of_lookup. eauto. }
  pose proof (squaredDistance_range c _ Hc (Hrefs best Hbest)) as Rbest.
  fold (squaredTo c best) in Rbest.
  destruct (PrimFloat.leb (calculateColorDistance c (ReferenceColor.rgb best)) maxDistance)
    eqn:Hle.
  - cbn [Closest.reference Closest.distance Closest.confidence].
    split; [exists i; exact Hi|].
    split; [reflexivity|]. split; [exact Hle|].
    split; [reflexivity|]. split; [reflexivity|].
    intros ->. rewrite calculateColorDistance_sqrtZ in Hle |- *.
    pose proof (default_accepts _ Rbest Hle) as Hsq.
    pose proof (all_from_spec _ _ _ default_record_bounds (squaredTo c best)) as Hb.
    cbv beta zeta in Hb. rewrite Z2Nat.id in Hb by lia.
    specialize (Hb ltac:(lia)).
    apply andb_prop in Hb. destruct Hb as [Hb H100].
    apply andb_prop in Hb. destruct Hb as [Hd H0].
    cbn [MatchedReference.distance MatchedReference.confidence].
    split; [exact Hsq|]. split; [exact Hd|]. split; [exact H0 | exact H100].
  - split; [|reflexivity].
    intros ref Href.
    destruct (PrimFloat.leb (calculateColorDistance c (ReferenceColor.rgb ref)) maxDistance)
      eqn:Hle'; [|reflexivity].
    exfalso. destruct Hi as (_ & Hmin & _). specialize (Hmin ref Href).
    pose proof (squaredDistance_range c _ Hc (Hrefs ref Href)) as Rref.
    fold (squaredTo c ref) in Rref.
    rewrite calculateColorDistance_sqrtZ in Hle, Hle'.
    destruct (Z.eq_dec (squaredTo c best) (squaredTo c ref)) as [E|Hne].
    + rewrite E in Hle. congruence.
    + rewrite (ltb_leb_trans _ (sqrtZ (squaredTo c ref))) in Hle;
        [discriminate | | exact Hle'].
      apply sqrtZ_increasing; lia.
Qed.

Lemma C1_matchColor_witness :
  let color := ColorBox.mk (RGB.mk 10 20 30) "#0a141e" (BoundingBox.mk 0 0 20 20)
                 (RGB.mk 10 20 30) in
  let palette :=
    [ ReferenceColor.mk "B60002" "New Black" "19-0303 TCX"
        (RGB.mk 40 40 40) "#282828" (BoundingBox.mk 15 0 40 40);
      ReferenceColor.mk "B10093" "Deep Depths" "19-4019 TCX"
        (RGB.mk 12 22 33) "#0C1621" (BoundingBox.mk 75 0 40 40) ] in
  exists found,
    findClosestReferenceColor palette defaultMaxDistance color = Some found
    /\ ReferenceColor.colorCode (Closest.reference found) = "B10093"
    /\ PrimFloat.leb (Closest.distance found) defaultMaxDistance = true.
Proof.
  cbv zeta.
  set (color := ColorBox.mk (RGB.mk 10 20 30) "#0a141e" (BoundingBox.mk 0 0 20 20)
                  (RGB.mk 10 20 30)).
  set (palette :=
         [ ReferenceColor.mk "B60002" "New Black" "19-0303 TCX"
             (RGB.mk 40 40 40) "#282828" (BoundingBox.mk 15 0 40 40);
           ReferenceColor.mk "B10093" "Deep Depths" "19-4019 TCX"
             (RGB.mk 12 22 33) "#0C1621" (BoundingBox.mk 75 0 40 40) ]).
  assert (Hc : rgb8 (ColorBox.rgb color))
    by (unfold rgb8, channel; cbn; lia).
  assert (Hp : forall ref, In ref palette -> rgb8 (ReferenceColor.rgb ref)).
  { intros ref [<-|[<-|[]]]; unfold rgb8, channel; cbn; lia. }
  pose proof (C1_matchColor palette defaultMaxDistance color Hc Hp) as H.
  cbv zeta in H.
  destruct (findClosestReferenceColor palette defaultMaxDistance color)
    as [found|] eqn:E.
  - exists found. split; [reflexivity|].
    destruct H as (_ & Hd & Hle & _). rewrite Hd.
    split; [|exact Hle].
    vm_compute in E. injection E as <-. reflexivity.
  - vm_compute in E. discriminate.
Defined.

Lemma findClosestReferenceColor_none
    (referenceColors : list ReferenceColor.t) (maxDistance : float)
    (color : ColorBox.t) :
  (forall ref, In ref referenceColors ->
     PrimFloat.leb
       (calculateColorDistance (ColorBox.rgb color) (ReferenceColor.rgb ref))
       maxDistance = false) ->
  findClosestReferenceColor referenceColors maxDistance color = None.
Proof.
  intros Hfar. rewrite findClosestReferenceColor_unfold.
  destruct referenceColors as [|ref0 refs0] eqn:Erefs; [reflexivity|].
  rewrite <- Erefs in *.
  pose proof (search_member color referenceColors (None, PrimFloat.infinity)) as Hm.
  destruct (search color referenceColors (None, PrimFloat.infinity)) as [[best|] md];
    [|reflexivity].
  destruct (Hm ltac:(discriminate) best eq_refl) as [Hd [Hin|Hin]];
    [|discriminate].
  cbn [snd] in Hd. rewrite Hd, (Hfar best Hin). reflexivity.
Qed.

(** C2.  Whatever the palette, the acceptance distance and the swatches:
    for a sampled colour from which no reference lies within [maxDistance]
    (none at all, when the palette is empty), the result holds, at the
    place of the colour, a record with the colour's own fields and the
    sentinel: code "UNKNOWN", distance -1, confidence 0.  The matching is a
    total function: nothing is raised. *)
Theorem C2_unmatched_is_sentinel
    (referenceColors : list ReferenceColor.t) (maxDistance : float)
    (swatches : list SwatchGroup.t) (i j : nat)
    (swatch : SwatchGroup.t) (color : ColorBox.t) :
  swatches !! i = Some swatch ->
  SwatchGroup.colors swatch !! j = Some color ->
  (forall ref, In ref referenceColors ->
     PrimFloat.leb
       (calculateColorDistance (ColorBox.rgb color) (ReferenceColor.rgb ref))
       maxDistance = false) ->
  let result := matchSwatchesWithReferences referenceColors maxDistance swatches in
  List.length (ColorMatchingResult.swatches result) = List.length swatches
  /\ exists (matched : MatchedSwatch.t) (record : MatchedColor.t),
       ColorMatchingResult.swatches result !! i = Some matched
       /\ List.length (MatchedSwatch.colors matched)
          = List.length (SwatchGroup.colors swatch)
       /\ MatchedSwatch.colors matched !! j = Some record
       /\ MatchedColor.rgb record = ColorBox.rgb color
       /\ MatchedColor.hex record = ColorBox.hex color
       /\ MatchedColor.boundingBox record = ColorBox.boundingBox color
       /\ MatchedColor.matchedReference record = unmatched
       /\ MatchedReference.colorCode (MatchedColor.matchedReference record) = "UNKNOWN"
       /\ MatchedReference.distance (MatchedColor.matchedReference record) = (-1)%float
       /\ MatchedReference.confidence (MatchedColor.matchedReference record) = 0%float.
Proof.
  intros Hi Hj Hfar result. subst result.
  unfold matchSwatchesWithReferences. cbn [ColorMatchingResult.swatches].
  split; [apply length_map|].
  exists (matchSwatch referenceColors maxDistance swatch),
         (matchColor referenceColors maxDistance color).
  split.
  { change (map ?f ?l) with (f <$> l). rewrite list_lookup_fmap, Hi. reflexivity. }
  unfold matchSwatch at 1 2. cbn [MatchedSwatch.colors].
  split; [apply length_map|].
  split.
  { change (map ?f ?l) with (f <$> l). rewrite list_lookup_fmap, Hj. reflexivity. }
  unfold matchColor.
  rewrite (findClosestReferenceColor_none _ _ _ Hfar).
  cbn. repeat split; reflexivity.
Qed.

Lemma C2_unmatched_is_sentinel_witness :
  let white := ReferenceColor.mk "B10119" "Gardenia" "11-0604 TCX"
                 (RGB.mk 255 255 255) "#FFFFFF" (BoundingBox.mk 447 0 40 40) in
  let black := ColorBox.mk (RGB.mk 0 0 0) "#000000" (BoundingBox.mk 0 0 20 20)
                 (RGB.mk 0 0 0) in
  let swatch := SwatchGroup.mk "123456" "My Style Name" [black]
                  (BoundingBox.mk 0 0 200 100) in
  exists (matched : MatchedSwatch.t) (record : MatchedColor.t),
    ColorMatchingResult.swatches
      (matchSwatchesWithReferences [white] defaultMaxDistance [swatch]) !! 0%nat
    = Some matched
    /\ MatchedSwatch.colors matched !! 0%nat = Some record
    /\ MatchedColor.matchedReference record = unmatched.
Proof.
  cbv zeta.
  set (white := ReferenceColor.mk "B10119" "Gardenia" "11-0604 TCX"
                  (RGB.mk 255 255 255) "#FFFFFF" (BoundingBox.mk 447 0 40 40)).
  set (black := ColorBox.mk (RGB.mk 0 0 0) "#000000" (BoundingBox.mk 0 0 20 20)
                  (RGB.mk 0 0 0)).
  set (swatch := SwatchGroup.mk "123456" "My Style Name" [black]
                   (BoundingBox.mk 0 0 200 100)).
  destruct (C2_unmatched_is_sentinel [white] defaultMaxDistance [swatch]
              0%nat 0%nat swatch black eq_refl eq_refl)
    as (_ & matched & record & Hm & _ & Hr & _ & _ & _ & Hu & _).
  - intros ref [<-|[]]. vm_compute. reflexivity.
  - exists matched, record. split; [exact Hm|]. split; [exact Hr | exact Hu].
Defined.

(** * Further properties *)

(** ** The validator and the pipeline step after it *)

(** The assignments of the corrections of [l], made on an array that holds
    [l] after [prefix]. *)
Lemma applyCorrections_from (l : list ReferenceColor.t) :
  forall prefix : list (option ReferenceColor.t),
  fold_left
    (fun correctedColors correction =>
       JS.arraySet correctedColors (Correction.originalIndex correction)
         (Correction.correctedColor correction))
    (collectCorrections (List.length prefix) l) (prefix ++ map Some l)
  = prefix ++ map Some (map corrected l).
Proof.
  induction l as [|e l IH]; intros prefix; [reflexivity|].
  cbn [collectCorrections map]. rewrite fold_left_app.
  assert (Hstep :
    fold_left
      (fun correctedColors correction =>
         JS.arraySet correctedColors (Correction.originalIndex correction)
           (Correction.correctedColor correction))
      (if isOCRFailure e then
         match findExpectedColorByPosition
                 (BoundingBox.x (ReferenceColor.boundingBox e)) with
         | Some expectedColor =>
             [Correction.mk (List.length prefix) (correct e expectedColor)
                (reasonFor expectedColor e)]
         | None => []
         end
       else [])
      (prefix ++ Some e :: map Some l)
    = (prefix ++ [Some (corrected e)]) ++ map Some l).
  { unfold corrected. rewrite <- app_assoc. cbn [app].
    destruct (isOCRFailure e); [|reflexivity].
    destruct (findExpectedColorByPosition _) as [g|]; [|reflexivity].
    cbn [fold_left Correction.originalIndex Correction.correctedColor].
    unfold JS.arraySet.
    destruct (Nat.ltb_spec (List.length prefix)
                (List.length (prefix ++ Some e :: map Some l))) as [_|Hge].
    - rewrite insert_app_r_alt by lia. rewrite Nat.sub_diag. reflexivity.
    - rewrite length_app in Hge. cbn in Hge. lia. }
  rewrite Hstep.
  replace (S (List.length prefix)) with (List.length (prefix ++ [Some (corrected e)]))
    by (rewrite length_app; cbn; lia).
  rewrite IH. rewrite <- app_assoc. reflexivity.
Qed.

Lemma applyCorrections_validated (extractedColors : list ReferenceColor.t) :
  applyCorrections extractedColors
    (ValidationResult.corrections (validateAndCorrect extractedColors))
  = map Some (map corrected extractedColors).
Proof. exact (applyCorrections_from extractedColors []). Qed.

Lemma no_corrections_nothing_corrected (l : list ReferenceColor.t) :
  forall k, collectCorrections k l = [] -> map corrected l = l.
Proof.
  induction l as [|e l IH]; intros k H; [reflexivity|].
  cbn [collectCorrections] in H. apply app_eq_nil in H. destruct H as [He Hl].
  cbn [map]. rewrite (IH _ Hl). f_equal. unfold corrected.
  destruct (isOCRFailure e); [|reflexivity].
  destruct (findExpectedColorByPosition _); [discriminate|reflexivity].
Qed.

Lemma finalColors_corrected (extractedColors : list ReferenceColor.t) :
  Main.finalColors extractedColors = map Some (map corrected extractedColors).
Proof.
  unfold Main.finalColors.
  destruct (ValidationResult.isValid (validateAndCorrect extractedColors)) eqn:Hv;
    cbn [negb].
  - cbn in Hv. apply Nat.eqb_eq in Hv. apply length_zero_iff_nil in Hv.
    rewrite (no_corrections_nothing_corrected _ _ Hv). reflexivity.
  - apply applyCorrections_validated.
Qed.

(** X1.  The reference colours that [main] hands to the matcher: the
    array has no hole and the length of the extracted list, and each entry
    is the extracted one, with the code and the name of the table entry
    found by position when it is flagged as an OCR failure and one is
    found, unchanged otherwise. *)
Theorem finalColors_entrywise (extractedColors : list ReferenceColor.t) :
  Main.finalColors extractedColors = map Some (map corrected extractedColors)
  /\ List.length (Main.finalColors extractedColors) = List.length extractedColors
  /\ forall i e, extractedColors !! i = Some e ->
       JS.arrayGet (Main.finalColors extractedColors) i = Some (corrected e)
       /\ sameSample (Some e) (Some (corrected e)).
Proof.
  pose proof (finalColors_corrected extractedColors) as E.
  split; [exact E|]. split; [rewrite E, !length_map; reflexivity|].
  intros i e Hi. split.
  - rewrite E, arrayGet_dense.
    change (map corrected extractedColors) with (corrected <$> extractedColors).
    rewrite list_lookup_fmap, Hi. reflexivity.
  - unfold sameSample, corrected. destruct (isOCRFailure e); [|auto].
    destruct (findExpectedColorByPosition _); cbn; auto.
Qed.

Lemma table_entries_are_genuine :
  forallb
    (fun g => negb (hasFallbackCode (ExpectedColor.code g)
                    || hasGenericName (ExpectedColor.name g)))
    expectedColors = true.
Proof. vm_compute. reflexivity. Qed.

Lemma corrected_settles (e : ReferenceColor.t) :
  isOCRFailure (corrected e) = false
  \/ findExpectedColorByPosition
       (BoundingBox.x (ReferenceColor.boundingBox (corrected e))) = None.
Proof.
  unfold corrected. destruct (isOCRFailure e) eqn:Hf; [|left; exact Hf].
  destruct (findExpectedColorByPosition _) as [g|] eqn:Hg; [|right; exact Hg].
  left. apply findExpectedColorByPosition_Some in Hg. destruct Hg as [Hin _].
  pose proof table_entries_are_genuine as H.
  rewrite forallb_forall in H. specialize (H g Hin).
  apply negb_true_iff in H. exact H.
Qed.

(** X2.  Validating what the first validation produced finds nothing to
    correct: a corrected entry carries a table code and a table name, which
    are no OCR failure, and an entry left flagged is one for which the table
    has no entry in range. *)
Theorem validation_is_idempotent (extractedColors : list ReferenceColor.t) :
  exists finalColors : list ReferenceColor.t,
    Main.finalColors extractedColors = map Some finalColors
    /\ validateAndCorrect finalColors = ValidationResult.mk true []
    /\ Main.finalColors finalColors = map Some finalColors.
Proof.
  exists (map corrected extractedColors).
  split; [apply finalColors_corrected|].
  assert (Hnone : forall l k, collectCorrections k (map corrected l) = []).
  { induction l as [|e l IH]; intros k; [reflexivity|].
    cbn [map collectCorrections]. rewrite IH, app_nil_r.
    destruct (corrected_settles e) as [-> | ->]; [reflexivity|].
    destruct (isOCRFailure (corrected e)); reflexivity. }
  assert (Hv : validateAndCorrect (map corrected extractedColors)
               = ValidationResult.mk true []).
  { unfold validateAndCorrect. rewrite Hnone. reflexivity. }
  split; [exact Hv|].
  unfold Main.finalColors. rewrite Hv. reflexivity.
Qed.

(** X3.  The table entry found by position: none exactly when the
    position is left of -185 or right of 833; otherwise the leftmost table
    entry that is not more than 200 to the left of the position, whether
    or not a later entry is nearer: up to 215 it is always the first entry,
    "New Black". *)
Theorem findExpectedColorByPosition_leftmost (position : Z) :
  (findExpectedColorByPosition position = None
   <-> position < -185 \/ 833 < position)
  /\ (-185 <= position <= 215 ->
      findExpectedColorByPosition position
      = Some (ExpectedColor.mk "B60002" "New Black" 15))
  /\ (forall g, findExpectedColorByPosition position = Some g ->
        position - 200 <= ExpectedColor.position g <= position + 200
        /\ forall g', In g' expectedColors ->
             position - 200 <= ExpectedColor.position g' ->
             ExpectedColor.position g <= ExpectedColor.position g').
Proof.
  unfold findExpectedColorByPosition, tolerance, expectedColors.
  cbn [List.find ExpectedColor.position].
  repeat match goal with
  | |- context [Z.abs ?d <=? 200] =>
      destruct (Z.leb_spec (Z.abs d) 200)
  end.
  all: refine (conj (conj _ _) (conj _ _)).
  all: try (intros E; first [discriminate E | reflexivity | lia]).
  all: intros g Hg;
       first [ discriminate Hg
             | injection Hg as <-; cbn [ExpectedColor.position];
               refine (conj _ _); [lia|];
               intros g' Hin Hle; cbn [In] in Hin;
               repeat (destruct Hin as [<-|Hin];
                       [cbn [ExpectedColor.position] in *; lia|]);
               destruct Hin ].
Qed.

(** ** The fallback code and the pattern that is to recognise it *)

(** Evaluated on the sums of three bytes: the colour hash, padded, is
    three digits. *)
Lemma colorHash_digits :
  all_from 766 0
    (fun s =>
       match JS.padStart0 3 (JS.toString (Z.rem s 1000)) with
       | String a (String b (String c "")) => isDigit a && isDigit b && isDigit c
       | _ => false
       end) = true.
Proof. vm_compute. reflexivity. Qed.

(** Evaluated on the positions below 20000: the binary64 quotient by
    200, floored, is the integer quotient. *)
Lemma floor_div_200 :
  all_from (Z.to_nat 20000) 0
    (fun x => JS.to_Z (JS.Math_floor (PrimFloat.div (JS.of_Z x) 200)) =? x / 200)
  = true.
Proof. vm_cast_no_check (eq_refl true). Qed.

(** Evaluated on the section numbers up to 100: one digit below 10, two
    characters or more from there on. *)
Lemma section_digits :
  all_from 100 1
    (fun section =>
       match JS.toString section with
       | String d "" => isDigit d && (section <? 10)
       | String _ (String _ _) => 10 <=? section
       | "" => false
       end) = true.
Proof. vm_compute. reflexivity. Qed.

(** X4.  The code that [generateFallbackColorCode] makes for a region at
    x (below 20000) of an 8-bit colour matches the fallback pattern of the
    validator (C and four digits) exactly when x is below 1800: from
    section 10 on the code has five digits or more and the pattern misses
    it. *)
Theorem fallback_code_matches_pattern_below_1800 (x : Z) (color : RGB.t) :
  0 <= x < 20000 ->
  rgb8 color ->
  hasFallbackCode (generateFallbackColorCode x color) = (x <? 1800).
Proof.
  intros Hx (Hr & Hg & Hb). unfold channel in *.
  unfold generateFallbackColorCode. cbv zeta.
  pose proof (all_from_spec _ _ _ colorHash_digits
                (RGB.r color + RGB.g color + RGB.b color) ltac:(lia)) as Hh.
  pose proof (all_from_spec _ _ _ floor_div_200 x ltac:(lia)) as Hq.
  cbv beta in Hq. apply Z.eqb_eq in Hq. rewrite Hq.
  assert (Rq : 0 <= x / 200 < 100)
    by (split; [apply Z.div_pos; lia | apply Z.div_lt_upper_bound; lia]).
  pose proof (all_from_spec _ _ _ section_digits (x / 200 + 1) ltac:(lia)) as Hs.
  cbv beta zeta in Hh, Hs.
  assert (Hlt : (x / 200 + 1 <? 10) = (x <? 1800)).
  { destruct (Z.ltb_spec x 1800) as [H|H].
    - apply Z.ltb_lt. assert (x / 200 < 9) by (apply Z.div_lt_upper_bound; lia). lia.
    - apply Z.ltb_ge. assert (9 <= x / 200) by (apply Z.div_le_lower_bound; lia). lia. }
  destruct (JS.padStart0 3 _) as [|a [|b [|c [|? ?]]]]; try discriminate Hh.
  apply andb_prop in Hh. destruct Hh as [Hh Hc].
  apply andb_prop in Hh. destruct Hh as [Ha Hb'].
  destruct (JS.toString _) as [|d [|d' rest]]; try discriminate Hs.
  - apply andb_prop in Hs. destruct Hs as [Hd Hs]. rewrite <- Hlt, Hs.
    cbn. rewrite Hd, Ha, Hb', Hc. reflexivity.
  - rewrite <- Hlt. apply Z.leb_le in Hs.
    destruct (Z.ltb_spec (x / 200 + 1) 10); [lia|].
    destruct rest as [|? [|? rest]]; cbn; try reflexivity.
    destruct rest; reflexivity.
Qed.

Lemma fallback_code_matches_pattern_below_1800_witness :
  hasFallbackCode (generateFallbackColorCode 447 (RGB.mk 12 22 33)) = true
  /\ hasFallbackCode (generateFallbackColorCode 2050 (RGB.mk 12 22 33)) = false.
Proof.
  split.
  - rewrite (fallback_code_matches_pattern_below_1800 447 (RGB.mk 12 22 33));
      [reflexivity | lia | unfold rgb8, channel; cbn; lia].
  - rewrite (fallback_code_matches_pattern_below_1800 2050 (RGB.mk 12 22 33));
      [reflexivity | lia | unfold rgb8, channel; cbn; lia].
Defined.

(** ** The matcher, beyond a single match *)

Lemma squaredDistance_sym (c1 c2 : RGB.t) :
  squaredDistance c1 c2 = squaredDistance c2 c1.
Proof. unfold squaredDistance. cbv zeta. ring. Qed.

Lemma squaredDistance_zero (c1 c2 : RGB.t) :
  squaredDistance c1 c2 = 0 <-> RGB.r c1 = RGB.r c2 /\ RGB.g c1 = RGB.g c2
                               /\ RGB.b c1 = RGB.b c2.
Proof.
  unfold squaredDistance. cbv zeta. split.
  - intros H.
    pose proof (Z.square_nonneg (RGB.r c1 - RGB.r c2)).
    pose proof (Z.square_nonneg (RGB.g c1 - RGB.g c2)).
    pose proof (Z.square_nonneg (RGB.b c1 - RGB.b c2)).
    assert (Hr : (RGB.r c1 - RGB.r c2) * (RGB.r c1 - RGB.r c2) = 0) by lia.
    assert (Hg : (RGB.g c1 - RGB.g c2) * (RGB.g c1 - RGB.g c2) = 0) by lia.
    assert (Hb : (RGB.b c1 - RGB.b c2) * (RGB.b c1 - RGB.b c2) = 0) by lia.
    apply Z.mul_eq_0 in Hr, Hg, Hb. lia.
  - intros (-> & -> & ->). lia.
Qed.

Lemma SFltb_leb (a b : spec_float) : SFltb a b = true -> SFleb a b = true.
Proof. pose proof (S754_zero false) as c. by_float_cases a b c. Qed.

Lemma SFltb_not_leb (a b : spec_float) : SFltb a b = true -> SFleb b a = false.
Proof. pose proof (S754_zero false) as c. by_float_cases a b c. Qed.

Lemma SFleb_trans (a b c : spec_float) :
  SFleb a b = true -> SFleb b c = true -> SFleb a c = true.
Proof. by_float_cases a b c. Qed.

Lemma SFleb_refl_left (a b : spec_float) : SFleb a b = true -> SFleb a a = true.
Proof.
  unfold SFleb, SFcompare.
  destruct a as [[|]|[|]| |[|] m e], b as [[|]|[|]| |[|] ? ?];
    try discriminate; try reflexivity; intros _;
    change (PosDef.Pos.compare_cont Eq) with Pos.compare;
    rewrite Z.compare_refl, Pos.compare_refl; reflexivity.
Qed.

Lemma ltb_leb (a b : float) : PrimFloat.ltb a b = true -> PrimFloat.leb a b = true.
Proof. rewrite FloatAxioms.ltb_spec, FloatAxioms.leb_spec. apply SFltb_leb. Qed.

Lemma ltb_not_leb (a b : float) :
  PrimFloat.ltb a b = true -> PrimFloat.leb b a = false.
Proof. rewrite FloatAxioms.ltb_spec, FloatAxioms.leb_spec. apply SFltb_not_leb. Qed.

Lemma leb_trans (a b c : float) :
  PrimFloat.leb a b = true -> PrimFloat.leb b c = true -> PrimFloat.leb a c = true.
Proof. rewrite !FloatAxioms.leb_spec. apply SFleb_trans. Qed.

Lemma leb_refl_left (a b : float) :
  PrimFloat.leb a b = true -> PrimFloat.leb a a = true.
Proof. rewrite !FloatAxioms.leb_spec. apply SFleb_refl_left. Qed.

(** X5.  [calculateColorDistance] on 8-bit colours is a distance: it does
    not depend on the order of its arguments, it is 0 exactly between a
    colour and itself, it is never negative and never more than the
    distance from black to white. *)
Theorem calculateColorDistance_is_a_distance (c1 c2 : RGB.t) :
  rgb8 c1 -> rgb8 c2 ->
  calculateColorDistance c1 c2 = calculateColorDistance c2 c1
  /\ (calculateColorDistance c1 c2 = 0%float <-> c1 = c2)
  /\ PrimFloat.leb 0 (calculateColorDistance c1 c2) = true
  /\ PrimFloat.leb (calculateColorDistance c1 c2)
       (calculateColorDistance (RGB.mk 0 0 0) (RGB.mk 255 255 255)) = true.
Proof.
  intros H1 H2.
  pose proof (squaredDistance_range c1 c2 H1 H2) as Hrange.
  unfold calculateColorDistance. fold (sqrtZ (squaredDistance c1 c2)).
  fold (sqrtZ (squaredDistance c2 c1)).
  fold (sqrtZ (squaredDistance (RGB.mk 0 0 0) (RGB.mk 255 255 255))).
  change (squaredDistance (RGB.mk 0 0 0) (RGB.mk 255 255 255))
    with maxSquaredDistance.
  assert (Hzero : sqrtZ 0 = 0%float) by (vm_compute; reflexivity).
  split; [rewrite squaredDistance_sym; reflexivity|].
  split; [split|split].
  - intros Hd.
    destruct (Z.eq_dec (squaredDistance c1 c2) 0) as [E|Hne].
    + apply squaredDistance_zero in E. destruct c1, c2. cbn in E.
      destruct E as (-> & -> & ->). reflexivity.
    + exfalso.
      assert (Hlt : PrimFloat.ltb (sqrtZ 0) (sqrtZ (squaredDistance c1 c2)) = true)
        by (apply sqrtZ_increasing; lia).
      rewrite Hd, Hzero, ltb_irrefl in Hlt. discriminate.
  - intros ->.
    assert (E : squaredDistance c2 c2 = 0) by (apply squaredDistance_zero; auto).
    rewrite E. exact Hzero.
  - destruct (Z.eq_dec (squaredDistance c1 c2) 0) as [E|Hne].
    + rewrite E. vm_compute. reflexivity.
    + rewrite <- Hzero. apply ltb_leb. apply sqrtZ_increasing; lia.
  - destruct (Z.eq_dec (squaredDistance c1 c2) maxSquaredDistance) as [E|Hne].
    + rewrite E. vm_compute. reflexivity.
    + apply ltb_leb. apply sqrtZ_increasing; lia.
Qed.

Lemma calculateColorDistance_is_a_distance_witness :
  calculateColorDistance (RGB.mk 12 200 7) (RGB.mk 250 3 99)
  = calculateColorDistance (RGB.mk 250 3 99) (RGB.mk 12 200 7).
Proof.
  refine (proj1 (calculateColorDistance_is_a_distance
                   (RGB.mk 12 200 7) (RGB.mk 250 3 99) _ _));
    unfold rgb8, channel; cbn; lia.
Defined.

(** What [findClosestReferenceColor] returns, when it returns a match,
    without any assumption on the colours. *)
Lemma findClosestReferenceColor_found
    (referenceColors : list ReferenceColor.t) (maxDistance : float)
    (color : ColorBox.t) (found : Closest.t) :
  findClosestReferenceColor referenceColors maxDistance color = Some found ->
  let d := calculateColorDistance (ColorBox.rgb color)
             (ReferenceColor.rgb (Closest.reference found)) in
  In (Closest.reference found) referenceColors
  /\ Closest.distance found = d
  /\ PrimFloat.leb d maxDistance = true
  /\ Closest.confidence found = round2 (clampedScore d maxDistance).
Proof.
  rewrite findClosestReferenceColor_unfold.
  destruct referenceColors as [|ref0 refs0] eqn:Erefs; [discriminate|].
  rewrite <- Erefs.
  pose proof (search_member color referenceColors (None, PrimFloat.infinity)) as Hm.
  destruct (search color referenceColors (None, PrimFloat.infinity))
    as [[best|] minDistance]; [|discriminate].
  destruct (PrimFloat.leb minDistance maxDistance) eqn:Hle; [|discriminate].
  intros [= <-]. cbn [Closest.reference Closest.distance Closest.confidence].
  destruct (Hm ltac:(intros ? [=]) best eq_refl) as [Hd Hin].
  cbn [fst snd] in Hd, Hin. subst minDistance.
  destruct Hin as [Hin|[=]].
  auto.
Qed.

Lemma div_zero_positive (m : float) :
  PrimFloat.ltb 0 m = true -> PrimFloat.div 0 m = 0%float.
Proof.
  intros Hm. apply Prim2SF_inj. rewrite FloatAxioms.div_spec.
  rewrite FloatAxioms.ltb_spec in Hm.
  change (Prim2SF 0) with (S754_zero false) in *.
  destruct (Prim2SF m) as [[|]|[|]| |[|] ? ?]; try discriminate Hm; reflexivity.
Qed.

(** X6.  A sampled 8-bit colour that is the colour of an entry of an 8-bit
    palette is matched, whatever positive acceptance distance is given,
    to the first entry of the palette with that colour, at distance 0 and
    with confidence 100. *)
Theorem exact_colour_is_matched
    (referenceColors : list ReferenceColor.t) (maxDistance : float)
    (color : ColorBox.t) (ref : ReferenceColor.t) :
  rgb8 (ColorBox.rgb color) ->
  (forall r, In r referenceColors -> rgb8 (ReferenceColor.rgb r)) ->
  In ref referenceColors ->
  ReferenceColor.rgb ref = ColorBox.rgb color ->
  PrimFloat.ltb 0 maxDistance = true ->
  exists (i : nat) (best : ReferenceColor.t),
    referenceColors !! i = Some best
    /\ ReferenceColor.rgb best = ColorBox.rgb color
    /\ (forall j r, (j < i)%nat -> referenceColors !! j = Some r ->
          ReferenceColor.rgb r <> ColorBox.rgb color)
    /\ MatchedColor.matchedReference (matchColor referenceColors maxDistance color)
       = MatchedReference.mk (ReferenceColor.colorCode best)
           (ReferenceColor.colorName best) (ReferenceColor.pantoneColor best)
           0 100.
Proof.
  intros Hc Hrefs Hin Hrgb Hmax.
  assert (Hself : forall r, ReferenceColor.rgb r = ColorBox.rgb color ->
                            squaredTo (ColorBox.rgb color) r = 0).
  { intros r Hr. unfold squaredTo. apply squaredDistance_zero. rewrite Hr. auto. }
  pose proof (search_searched color referenceColors Hc [] (None, PrimFloat.infinity))
    as Hinv.
  cbn [app] in Hinv. specialize (Hinv Hrefs (conj eq_refl eq_refl)).
  unfold matchColor. cbn [MatchedColor.matchedReference].
  rewrite findClosestReferenceColor_unfold.
  destruct referenceColors as [|ref0 refs0] eqn:Erefs; [destruct Hin|].
  rewrite <- Erefs in *.
  destruct (search color referenceColors (None, PrimFloat.infinity))
    as [[best|] minDistance]; unfold searched in Hinv; cbn [fst snd] in Hinv.
  2:{ destruct Hinv as [Hnil _]. rewrite Erefs in Hnil. discriminate. }
  destruct Hinv as (Hd & i & Hi & Hleast & Hfirst).
  assert (Hbest : squaredTo (ColorBox.rgb color) best = 0).
  { pose proof (Hleast ref Hin) as Hle. rewrite (Hself ref Hrgb) in Hle.
    assert (Hb : In best referenceColors)
      by (apply list_elem_of_In, list_elem_of_lookup; eauto).
    pose proof (squaredDistance_range (ColorBox.rgb color) (ReferenceColor.rgb best)
                  Hc (Hrefs best Hb)) as Hrange.
    unfold squaredTo in *. lia. }
  assert (Hmin : minDistance = 0%float).
  { rewrite Hd, calculateColorDistance_sqrtZ, Hbest. vm_compute. reflexivity. }
  clear Hd. subst minDistance.
  assert (Hle : PrimFloat.leb 0 maxDistance = true) by (apply ltb_leb; exact Hmax).
  cbv beta iota. rewrite Hle. exists i, best.
  split; [exact Hi|]. split.
  { apply squaredDistance_zero in Hbest.
    destruct (ReferenceColor.rgb best), (ColorBox.rgb color). cbn in Hbest.
    destruct Hbest as (-> & -> & ->). reflexivity. }
  split.
  { intros j r Hj Hr Heq. pose proof (Hfirst j r Hj Hr) as Hlt.
    rewrite (Hself r Heq), Hbest in Hlt. lia. }
  cbn [Closest.reference Closest.distance Closest.confidence].
  unfold clampedScore. rewrite (div_zero_positive maxDistance Hmax).
  f_equal.
Qed.

Lemma exact_colour_is_matched_witness :
  let navy := ReferenceColor.mk "B20111" "Navy" "19-3923" (RGB.mk 40 45 80) "#282D50"
                (BoundingBox.mk 633 40 50 30) in
  let black := ReferenceColor.mk "B60002" "New Black" "19-0303" (RGB.mk 30 30 32)
                 "#1E1E20" (BoundingBox.mk 15 40 50 30) in
  let color := ColorBox.mk (RGB.mk 40 45 80) "#282d50" (BoundingBox.mk 0 0 20 20)
                 (RGB.mk 40 45 80) in
  exists (i : nat) (best : ReferenceColor.t),
    [black; navy] !! i = Some best
    /\ ReferenceColor.rgb best = ColorBox.rgb color
    /\ (forall j r, (j < i)%nat -> [black; navy] !! j = Some r ->
          ReferenceColor.rgb r <> ColorBox.rgb color)
    /\ MatchedColor.matchedReference (matchColor [black; navy] 150 color)
       = MatchedReference.mk (ReferenceColor.colorCode best)
           (ReferenceColor.colorName best) (ReferenceColor.pantoneColor best)
           0 100.
Proof.
  intros navy black color.
  apply (exact_colour_is_matched [black; navy] 150 color navy).
  - unfold rgb8, channel; cbn; lia.
  - intros r [<-|[<-|[]]]; unfold rgb8, channel; cbn; lia.
  - right; left; reflexivity.
  - reflexivity.
  - vm_compute. reflexivity.
Defined.

(** The confidence stored for a squared distance [n], with the default
    acceptance distance. *)
Lemma default_confidence_step :
  all_from (Z.to_nat (150 * 150)) 0
    (fun n =>
       PrimFloat.leb (round2 (clampedScore (sqrtZ (n + 1)) defaultMaxDistance))
         (round2 (clampedScore (sqrtZ n) defaultMaxDistance))) = true.
Proof. vm_cast_no_check (eq_refl true). Qed.

Lemma default_confidence_decreasing (a : Z) (k : nat) :
  0 <= a -> a + Z.of_nat k <= 150 * 150 ->
  PrimFloat.leb
    (round2 (clampedScore (sqrtZ (a + Z.of_nat k)) defaultMaxDistance))
    (round2 (clampedScore (sqrtZ a) defaultMaxDistance)) = true.
Proof.
  intros Ha. induction k as [|k IH]; intros Hk.
  - rewrite Z.add_0_r.
    pose proof (all_from_spec _ _ _ default_record_bounds a ltac:(lia)) as Hb.
    cbv zeta in Hb. apply andb_prop in Hb. destruct Hb as [_ Hb].
    eapply leb_refl_left. exact Hb.
  - eapply leb_trans; [|apply IH; lia].
    pose proof (all_from_spec _ _ _ default_confidence_step (a + Z.of_nat k)
                  ltac:(lia)) as Hs.
    cbv beta in Hs. replace (a + Z.of_nat (S k)) with (a + Z.of_nat k + 1) by lia.
    exact Hs.
Qed.

(** X7.  With the default acceptance distance, of two matches to 8-bit
    reference colours the one at the larger distance never has the larger
    confidence. *)
Theorem confidence_decreases_with_distance
    (refs1 refs2 : list ReferenceColor.t) (c1 c2 : ColorBox.t)
    (found1 found2 : Closest.t) :
  rgb8 (ColorBox.rgb c1) -> rgb8 (ColorBox.rgb c2) ->
  (forall r, In r refs1 -> rgb8 (ReferenceColor.rgb r)) ->
  (forall r, In r refs2 -> rgb8 (ReferenceColor.rgb r)) ->
  findClosestReferenceColor refs1 defaultMaxDistance c1 = Some found1 ->
  findClosestReferenceColor refs2 defaultMaxDistance c2 = Some found2 ->
  PrimFloat.leb (Closest.distance found1) (Closest.distance found2) = true ->
  PrimFloat.leb (Closest.confidence found2) (Closest.confidence found1) = true.
Proof.
  intros H1 H2 Hr1 Hr2 E1 E2 Hle.
  destruct (findClosestReferenceColor_found _ _ _ _ E1) as (Hin1 & Hd1 & Hm1 & Hc1).
  destruct (findClosestReferenceColor_found _ _ _ _ E2) as (Hin2 & Hd2 & Hm2 & Hc2).
  rewrite Hc1, Hc2. rewrite Hd1, Hd2 in Hle.
  rewrite !calculateColorDistance_sqrtZ in Hle.
  rewrite calculateColorDistance_sqrtZ in Hm1, Hm2 |- *.
  rewrite calculateColorDistance_sqrtZ.
  set (n1 := squaredTo (ColorBox.rgb c1) (Closest.reference found1)) in *.
  set (n2 := squaredTo (ColorBox.rgb c2) (Closest.reference found2)) in *.
  assert (R1 : 0 <= n1 <= maxSquaredDistance)
    by (apply squaredDistance_range; auto).
  assert (R2 : 0 <= n2 <= maxSquaredDistance)
    by (apply squaredDistance_range; auto).
  pose proof (default_accepts n2 R2 Hm2) as B2.
  assert (Hn : n1 <= n2).
  { destruct (Z_le_gt_dec n1 n2) as [|Hgt]; [assumption|exfalso].
    assert (Hlt : PrimFloat.ltb (sqrtZ n2) (sqrtZ n1) = true)
      by (apply sqrtZ_increasing; lia).
    apply ltb_not_leb in Hlt. rewrite Hlt in Hle. discriminate. }
  replace n2 with (n1 + Z.of_nat (Z.to_nat (n2 - n1))) by lia.
  apply default_confidence_decreasing; lia.
Qed.

Lemma confidence_decreases_with_distance_witness :
  let palette :=
    [ReferenceColor.mk "B20111" "Navy" "19-3923" (RGB.mk 40 45 80) "#282D50"
       (BoundingBox.mk 633 40 50 30)] in
  let near := ColorBox.mk (RGB.mk 42 45 80) "#2a2d50" (BoundingBox.mk 0 0 20 20)
                (RGB.mk 42 45 80) in
  let far := ColorBox.mk (RGB.mk 90 45 80) "#5a2d50" (BoundingBox.mk 0 0 20 20)
               (RGB.mk 90 45 80) in
  exists found1 found2,
    findClosestReferenceColor palette defaultMaxDistance near = Some found1
    /\ findClosestReferenceColor palette defaultMaxDistance far = Some found2
    /\ PrimFloat.leb (Closest.confidence found2) (Closest.confidence found1) = true.
Proof.
  intros palette near far.
  destruct (findClosestReferenceColor palette defaultMaxDistance near)
    as [found1|] eqn:E1; [|vm_compute in E1; discriminate E1].
  destruct (findClosestReferenceColor palette defaultMaxDistance far)
    as [found2|] eqn:E2; [|vm_compute in E2; discriminate E2].
  exists found1, found2. split; [reflexivity|]. split; [reflexivity|].
  apply (confidence_decreases_with_distance palette palette near far found1 found2).
  - unfold rgb8, channel; cbn; lia.
  - unfold rgb8, channel; cbn; lia.
  - intros r [<-|[]]; unfold rgb8, channel; cbn; lia.
  - intros r [<-|[]]; unfold rgb8, channel; cbn; lia.
  - exact E1.
  - exact E2.
  - vm_compute in E1. vm_compute in E2.
    injection E1 as <-. injection E2 as <-. vm_compute. reflexivity.
Defined.

(** ** Statistics and the CSV export *)

Lemma countKey_total (key : string) (usage : list (string * Z)) :
  usageTotal (countKey key usage) = usageTotal usage + 1.
Proof.
  induction usage as [|[k n] rest IH]; [reflexivity|].
  cbn [countKey]. destruct (String.eqb k key).
  - change (usageTotal ((k, n + 1) :: rest)) with (n + 1 + usageTotal rest).
    change (usageTotal ((k, n) :: rest)) with (n + usageTotal rest). lia.
  - change (usageTotal ((k, n) :: countKey key rest))
      with (n + usageTotal (countKey key rest)).
    rewrite IH.
    change (usageTotal ((k, n) :: rest)) with (n + usageTotal rest). lia.
Qed.

Lemma countKey_keys (key : string) (usage : list (string * Z)) :
  map fst (countKey key usage)
  = if existsb (fun entry => String.eqb (fst entry) key) usage
    then map fst usage else map fst usage ++ [key].
Proof.
  induction usage as [|[k n] rest IH]; cbn; [reflexivity|].
  destruct (String.eqb k key) eqn:E; cbn; [reflexivity|].
  rewrite IH. destruct (existsb _ rest); reflexivity.
Qed.

Lemma countKey_NoDup (key : string) (usage : list (string * Z)) :
  List.NoDup (map fst usage) -> List.NoDup (map fst (countKey key usage)).
Proof.
  intros Hnd. rewrite countKey_keys.
  destruct (existsb _ usage) eqn:E; [exact Hnd|].
  apply NoDup_ListNoDup. apply NoDup_ListNoDup in Hnd.
  apply list.NoDup_app. split; [exact Hnd|].
  split; [|apply list.NoDup_singleton].
  intros k Hk Hin. apply list_elem_of_singleton in Hin. subst k.
  apply list_elem_of_In in Hk. apply in_map_iff in Hk.
  destruct Hk as (entry & Hfst & Hentry).
  assert (Hex : existsb (fun entry => String.eqb (fst entry) key) usage = true).
  { apply existsb_exists. exists entry. split; [exact Hentry|].
    rewrite Hfst. apply String.eqb_refl. }
  rewrite Hex in E. discriminate.
Qed.

Lemma countKey_positive (key : string) (usage : list (string * Z)) :
  Forall (fun entry => 0 < snd entry) usage ->
  Forall (fun entry => 0 < snd entry) (countKey key usage).
Proof.
  induction 1 as [|[k n] rest Hn Hrest IH]; cbn.
  - constructor; [cbn; lia|constructor].
  - destruct (String.eqb k key); constructor; cbn in *; auto; lia.
Qed.

Lemma tally_tallied (done : list MatchedColor.t) (st : MatchingStats.Tally.t)
    (color : MatchedColor.t) :
  tallied done st -> tallied (done ++ [color]) (tally st color).
Proof.
  intros (Ht & Hu & Hm & Hs & Hnd & Hpos). unfold tallied, tally.
  rewrite !List.filter_app, !length_app. cbn [List.filter].
  change (String.eqb
            (MatchedReference.colorCode (MatchedColor.matchedReference color))
            "UNKNOWN") with (isUnknown color).
  destruct (isUnknown color); cbn [negb MatchingStats.Tally.totalColors
    MatchingStats.Tally.unmatchedColors MatchingStats.Tally.matchedColors
    MatchingStats.Tally.referenceColorUsage List.length].
  - repeat split; try assumption; lia.
  - rewrite countKey_total.
    repeat split; try lia; [apply countKey_NoDup|apply countKey_positive];
      assumption.
Qed.

Lemma tally_colors (colors done : list MatchedColor.t) (st : MatchingStats.Tally.t) :
  tallied done st -> tallied (done ++ colors) (fold_left tally colors st).
Proof.
  revert done st. induction colors as [|color colors IH]; intros done st H.
  - rewrite app_nil_r. exact H.
  - cbn [fold_left]. replace (done ++ color :: colors)
      with ((done ++ [color]) ++ colors) by (rewrite <- app_assoc; reflexivity).
    apply IH, tally_tallied, H.
Qed.

Lemma tallyAll_from (swatches : list MatchedSwatch.t)
    (done : list MatchedColor.t) (st : MatchingStats.Tally.t) :
  tallied done st ->
  tallied (done ++ allColors swatches)
    (fold_left (fun st swatch => fold_left tally (MatchedSwatch.colors swatch) st)
       swatches st).
Proof.
  revert done st. induction swatches as [|swatch swatches IH]; intros done st H.
  - cbn. rewrite app_nil_r. exact H.
  - cbn [fold_left]. unfold allColors. cbn [mbind list_bind].
    fold (allColors swatches). rewrite app_assoc.
    apply IH, tally_colors, H.
Qed.

Lemma tallyAll_tallied (swatches : list MatchedSwatch.t) :
  tallied (allColors swatches) (tallyAll swatches).
Proof.
  apply (tallyAll_from swatches [] (MatchingStats.Tally.mk 0 0 0 0 0 [])).
  repeat split; try reflexivity; constructor.
Qed.

Lemma filter_partition_length {A} (p : A -> bool) (l : list A) :
  (List.length (List.filter p l)
   + List.length (List.filter (fun x => negb (p x)) l))%nat = List.length l.
Proof.
  induction l as [|x l IH]; cbn; [reflexivity|].
  destruct (p x); cbn; lia.
Qed.


(** Matching keeps the colours of the swatches, one record each. *)
Lemma matched_colors_length (referenceColors : list ReferenceColor.t)
    (maxDistance : float) (swatches : list SwatchGroup.t) :
  List.length
    (allColors (map (matchSwatch referenceColors maxDistance) swatches))
  = List.length (swatch ← swatches; SwatchGroup.colors swatch).
Proof.
  induction swatches as [|swatch swatches IH]; [reflexivity|].
  unfold allColors in *. cbn [map mbind list_bind]. rewrite !length_app, IH.
  cbn [matchSwatch MatchedSwatch.colors]. rewrite length_map. reflexivity.
Qed.

Lemma totalColors_length (swatches : list SwatchGroup.t) (n : Z) :
  fold_left
    (fun n swatch => n + Z.of_nat (List.length (SwatchGroup.colors swatch)))
    swatches n
  = n + Z.of_nat (List.length (swatch ← swatches; SwatchGroup.colors swatch)).
Proof.
  revert n. induction swatches as [|swatch swatches IH]; intros n.
  - cbn. lia.
  - cbn [fold_left mbind list_bind]. rewrite IH, length_app. lia.
Qed.

(** X9.  The statistics of what [matchSwatchesWithReferences] returns
    agree with the result: the number of colours counted is the
    [totalColors] of the result, the number of sampled colours of the
    swatches, and it is the number of matched plus the number of unmatched
    colours. *)
Theorem getMatchingStats_of_matching
    (referenceColors : list ReferenceColor.t) (maxDistance : float)
    (swatches : list SwatchGroup.t) :
  let result := matchSwatchesWithReferences referenceColors maxDistance swatches in
  let stats := getMatchingStats result in
  MatchingStats.totalColors stats = ColorMatchingResult.totalColors result
  /\ MatchingStats.totalColors stats
     = Z.of_nat (List.length (swatch ← swatches; SwatchGroup.colors swatch))
  /\ MatchingStats.matchedColors stats + MatchingStats.unmatchedColors stats
     = ColorMatchingResult.totalColors result.
Proof.
  cbv zeta.
  destruct (tallyAll_tallied
              (ColorMatchingResult.swatches
                 (matchSwatchesWithReferences referenceColors maxDistance swatches)))
    as (Ht & Hu & Hm & _).
  pose proof (filter_partition_length isUnknown
                (allColors (ColorMatchingResult.swatches
                   (matchSwatchesWithReferences referenceColors maxDistance
                      swatches)))) as Hpart.
  unfold getMatchingStats.
  cbn [MatchingStats.totalColors MatchingStats.unmatchedColors
       MatchingStats.matchedColors].
  unfold matchSwatchesWithReferences in *.
  cbn [ColorMatchingResult.swatches ColorMatchingResult.totalColors] in *.
  rewrite matched_colors_length in Hpart.
  rewrite matched_colors_length in Ht.
  rewrite totalColors_length. lia.
Qed.

(** The code of a stored record is the sentinel's or a palette entry's. *)
Lemma matchColor_code (referenceColors : list ReferenceColor.t)
    (maxDistance : float) (color : ColorBox.t) :
  let code :=
    MatchedReference.colorCode
      (MatchedColor.matchedReference (matchColor referenceColors maxDistance color)) in
  code = "UNKNOWN"
  \/ exists ref, In ref referenceColors /\ code = ReferenceColor.colorCode ref.
Proof.
  cbv zeta. unfold matchColor. cbn [MatchedColor.matchedReference].
  destruct (findClosestReferenceColor referenceColors maxDistance color)
    as [found|] eqn:E; [right|left; reflexivity].
  destruct (findClosestReferenceColor_found _ _ _ _ E) as (Hin & _).
  exists (Closest.reference found). split; [exact Hin|reflexivity].
Qed.

Lemma rows_length {A B C} (f : A -> B -> C) (g : A -> list B) (l : list A) :
  List.length (a ← l; b ← g a; [f a b]) = List.length (a ← l; g a).
Proof.
  induction l as [|a l IH]; [reflexivity|].
  cbn [mbind list_bind]. cbn [mbind list_bind] in IH.
  rewrite !length_app, IH. apply (f_equal2 Nat.add); [|reflexivity].
  generalize (g a). intros bs.
  induction bs as [|b bs IHb]; [reflexivity|].
  cbn [mbind list_bind app List.length]. cbn [mbind list_bind] in IHb.
  rewrite IHb. reflexivity.
Qed.

(** X10.  The simple CSV written for the result of
    [matchSwatchesWithReferences]: after the header line there is one line
    per sampled colour, unmatched ones included, in the order of the
    swatches and of their colours; the line is the style number of the
    swatch, a comma and the code stored for the colour, and that code is
    "UNKNOWN" or the code of an entry of the palette. *)
Theorem styleColorRows_of_matching
    (referenceColors : list ReferenceColor.t) (maxDistance : float)
    (swatches : list SwatchGroup.t) :
  let result := matchSwatchesWithReferences referenceColors maxDistance swatches in
  let codeOf color :=
    MatchedReference.colorCode
      (MatchedColor.matchedReference (matchColor referenceColors maxDistance color)) in
  CSVGenerator.styleColorRows result
  = "Style Number,Color Code"
    :: (swatch ← swatches;
        color ← SwatchGroup.colors swatch;
        [(SwatchGroup.styleNumber swatch ++ "," ++ codeOf color)%string])
  /\ Z.of_nat (List.length (CSVGenerator.styleColorRows result))
     = 1 + ColorMatchingResult.totalColors result
  /\ (forall color,
        codeOf color = "UNKNOWN"
        \/ exists ref, In ref referenceColors
                       /\ codeOf color = ReferenceColor.colorCode ref).
Proof.
  cbv zeta beta.
  assert (Hrows :
    CSVGenerator.styleColorRows
      (matchSwatchesWithReferences referenceColors maxDistance swatches)
    = "Style Number,Color Code"
      :: (swatch ← swatches;
          color ← SwatchGroup.colors swatch;
          [(SwatchGroup.styleNumber swatch ++ ","
            ++ MatchedReference.colorCode
                 (MatchedColor.matchedReference
                    (matchColor referenceColors maxDistance color)))%string])).
  { unfold CSVGenerator.styleColorRows, matchSwatchesWithReferences.
    cbn [ColorMatchingResult.swatches]. apply (f_equal (cons _)).
    induction swatches as [|swatch swatches IH]; [reflexivity|].
    cbn [map mbind list_bind]. cbn [map mbind list_bind] in IH. rewrite IH.
    apply (f_equal2 app); [|reflexivity].
    cbn [matchSwatch MatchedSwatch.colors MatchedSwatch.styleNumber].
    generalize (SwatchGroup.colors swatch). intros colors.
    induction colors as [|color colors IHc]; [reflexivity|].
    cbn [map mbind list_bind]. cbn [map mbind list_bind] in IHc. rewrite IHc.
    reflexivity. }
  split; [exact Hrows|]. split.
  - rewrite Hrows. unfold matchSwatchesWithReferences.
    cbn [ColorMatchingResult.totalColors List.length].
    rewrite totalColors_length, Nat2Z.inj_succ. 
    rewrite (rows_length (fun swatch color =>
      (SwatchGroup.styleNumber swatch ++ ","
       ++ MatchedReference.colorCode
            (MatchedColor.matchedReference
               (matchColor referenceColors maxDistance color)))%string)
               SwatchGroup.colors).
    lia.
  - intros color. apply matchColor_code.
Qed.

(** ** The swatch extractor: where the scan starts and the rows it finds *)

Lemma lastRedBox_is_lowest (rest : list BoundingBox.t) (first : BoundingBox.t) :
  let lastRedBox :=
    fold_left
      (fun latest current =>
         if SwatchExtractor.bottom latest <? SwatchExtractor.bottom current
         then current else latest)
      rest first in
  In lastRedBox (first :: rest)
  /\ forall box, In box (first :: rest) ->
       SwatchExtractor.bottom box <= SwatchExtractor.bottom lastRedBox.
Proof.
  cbv zeta. revert first. induction rest as [|current rest IH]; intros first.
  - cbn. split; [left; reflexivity|]. intros box [<-|[]]. lia.
  - cbn [fold_left].
    destruct (Z.ltb_spec (SwatchExtractor.bottom first)
                (SwatchExtractor.bottom current)) as [Hlt|Hge].
    + destruct (IH current) as [Hin Hmax]. split.
      * right. exact Hin.
      * intros box [<-|Hbox]; [|apply Hmax; exact Hbox].
        pose proof (Hmax current (or_introl eq_refl)). lia.
    + destruct (IH first) as [Hin Hmax]. split.
      * destruct Hin as [<-|Hin]; [left; reflexivity|right; right; exact Hin].
      * intros box [<-|[<-|Hbox]].
        -- apply Hmax. left. reflexivity.
        -- pose proof (Hmax first (or_introl eq_refl)). lia.
        -- apply Hmax. right. exact Hbox.
Qed.

(** X11.  [findSwatchStartingPosition]: without anchor boxes the scan for
    swatches starts at row 0, whatever the height of the image; with anchor
    boxes it starts 200 rows below the lowest bottom edge of a box, but not
    below row [height - 100], so that it starts at least 200 rows below
    every anchor box unless it is capped there. *)
Theorem findSwatchStartingPosition_below_anchors
    (redAnchorBoxes : list BoundingBox.t) (height : Z) :
  let startY := SwatchExtractor.findSwatchStartingPosition redAnchorBoxes height in
  (redAnchorBoxes = [] -> startY = 0)
  /\ (redAnchorBoxes <> [] ->
      startY <= height - 100
      /\ (exists lowest, In lowest redAnchorBoxes
            /\ startY = Z.min (SwatchExtractor.bottom lowest + 200) (height - 100))
      /\ (startY < height - 100 ->
          forall box, In box redAnchorBoxes ->
            BoundingBox.y box + BoundingBox.height box + 200 <= startY)).
Proof.
  cbv zeta. split; [intros ->; reflexivity|]. intros Hne.
  destruct redAnchorBoxes as [|first rest]; [contradiction|].
  unfold SwatchExtractor.findSwatchStartingPosition.
  destruct (lastRedBox_is_lowest rest first) as [Hin Hmax].
  set (lastRedBox := fold_left _ rest first) in *.
  split; [lia|]. split.
  - exists lastRedBox. split; [exact Hin|reflexivity].
  - intros Hcap box Hbox. pose proof (Hmax box Hbox) as Hle.
    unfold SwatchExtractor.bottom in *. lia.
Qed.

Section DetectedRows.

Variables (imageBuffer : list Z) (width height channels : Z).

Let white (y : Z) : bool := scanColumnWhite imageBuffer width channels y.

Lemma findRowStart_from_inv (n : nat) :
  forall (y rowStart : Z),
  findRowStart_from imageBuffer width channels SwatchExtractor.scanX n y
  = Some rowStart ->
  exists y0,
    y <= y0 < y + Z.of_nat n
    /\ white y0 = false
    /\ (forall z, y <= z < y0 -> white z = true)
    /\ rowStart = Z.max 0 (y0 - textMargin).
Proof.
  induction n as [|n IH]; intros y rowStart; [discriminate|].
  cbn [findRowStart_from]. change (SwatchExtractor.isWhiteOrNearWhite
            (pixelAt imageBuffer width channels SwatchExtractor.scanX y))
    with (white y).
  destruct (white y) eqn:Hy; cbn [negb].
  - intros H. destruct (IH _ _ H) as (y0 & Hr & Hy0 & Hbefore & ->).
    exists y0. split; [lia|]. split; [exact Hy0|]. split; [|reflexivity].
    intros z Hz. destruct (Z.eq_dec z y) as [->|]; [exact Hy|].
    apply Hbefore. lia.
  - intros [= <-]. exists y. split; [lia|]. split; [exact Hy|].
    split; [intros z Hz; lia|reflexivity].
Qed.

Lemma findRowEnd_from_inv (rowStart gap : Z) (n : nat) :
  forall (y c rowEnd : Z),
  0 <= c < gap ->
  findRowEnd_from imageBuffer width channels SwatchExtractor.scanX rowStart gap
    n y c = Some rowEnd ->
  (forall z, y - c <= z < y -> white z = true) ->
  exists y2,
    y <= y2 < y + Z.of_nat n
    /\ (forall z, y2 - gap < z <= y2 -> white z = true)
    /\ y - c <= y2 - gap + 1
    /\ rowEnd = Z.max (y2 - gap) (rowStart + 1).
Proof.
  induction n as [|n IH]; intros y c rowEnd Hc; [discriminate|].
  cbn [findRowEnd_from]. change (SwatchExtractor.isWhiteOrNearWhite
            (pixelAt imageBuffer width channels SwatchExtractor.scanX y))
    with (white y).
  destruct (white y) eqn:Hy.
  - destruct (Z.leb_spec gap (c + 1)) as [Hle|Hlt].
    + intros [= <-] Hrun. exists y. split; [lia|]. split; [|split; [lia|reflexivity]].
      intros z Hz. destruct (Z.eq_dec z y) as [->|]; [exact Hy|].
      apply Hrun. lia.
    + intros H Hrun.
      destruct (IH (y + 1) (c + 1) rowEnd ltac:(lia) H) as (y2 & Hr & Hw & Hb & ->).
      { intros z Hz. destruct (Z.eq_dec z y) as [->|]; [exact Hy|].
        apply Hrun. lia. }
      exists y2. split; [lia|]. split; [exact Hw|]. split; [lia|reflexivity].
  - intros H Hrun.
    destruct (IH (y + 1) 0 rowEnd ltac:(lia) H) as (y2 & Hr & Hw & Hb & ->).
    { intros z Hz. lia. }
    exists y2. split; [lia|]. split; [exact Hw|]. split; [lia|reflexivity].
Qed.

(** One iteration of the loop of [detectRows]. *)
Lemma detectRows_iteration (currentY rowStart rowEnd : Z) :
  0 <= currentY ->
  findRowStart imageBuffer width height channels SwatchExtractor.scanX currentY
  = Some rowStart ->
  findRowEnd imageBuffer width height channels SwatchExtractor.scanX rowStart
    whiteSpaceThreshold = Some rowEnd ->
  exists y0,
    currentY <= y0 <= rowEnd
    /\ white y0 = false
    /\ (forall z, currentY <= z < y0 -> white z = true)
    /\ rowStart = Z.max 0 (y0 - 45)
    /\ rowStart < rowEnd
    /\ rowEnd + 49 < height - 10
    /\ (forall z, rowEnd < z <= rowEnd + 49 -> white z = true).
Proof.
  intros HcurrentY Hstart Hend.
  unfold findRowStart in Hstart. unfold findRowEnd in Hend.
  destruct (findRowStart_from_inv _ _ _ Hstart) as (y0 & Hr0 & Hy0 & Hbefore & Hrs).
  unfold whiteSpaceThreshold, textMargin in *.
  destruct (findRowEnd_from_inv rowStart 50 _ rowStart 0 rowEnd ltac:(lia) Hend)
    as (y2 & Hr2 & Hrun & Hb & Hre).
  { intros z Hz. lia. }
  assert (Hy02 : y0 <= y2 - 50).
  { destruct (Z_le_gt_dec y0 (y2 - 50)) as [|Hgt]; [assumption|exfalso].
    destruct (Z_le_gt_dec y0 y2) as [Hin|Hout].
    - rewrite (Hrun y0) in Hy0 by lia. discriminate.
    - lia. }
  exists y0. split; [lia|]. split; [exact Hy0|]. split; [exact Hbefore|].
  split; [exact Hrs|]. split; [lia|]. split; [lia|].
  intros z Hz. apply Hrun. lia.
Qed.

Lemma detectRows_from_rows (n : nat) :
  forall (currentY : Z) (rows : list RowBoundary.t),
  0 <= currentY ->
  rowsSoFar imageBuffer width height channels rows currentY ->
  exists lastY,
    rowsSoFar imageBuffer width height channels
      (detectRows_from imageBuffer width height channels n currentY rows) lastY.
Proof.
  induction n as [|n IH]; intros currentY rows HcurrentY Hrows.
  - exists currentY. exact Hrows.
  - cbn [detectRows_from].
    destruct (currentY <? height - 100); [|exists currentY; exact Hrows].
    destruct (findRowStart _ _ _ _ _ currentY) as [rowStart|] eqn:Hstart;
      [|exists currentY; exact Hrows].
    destruct (findRowEnd _ _ _ _ _ rowStart _) as [rowEnd|] eqn:Hend;
      [|exists currentY; exact Hrows].
    destruct (detectRows_iteration _ _ _ HcurrentY Hstart Hend)
      as (y0 & Hy0 & Hcontent & Hbefore & Hrs & Hlt & Hfit & Hafter).
    unfold white in Hcontent, Hbefore, Hafter.
    apply IH; [lia|].
    destruct Hrows as (Hall & Hsorted & Hgap).
    assert (Hnew : rows <> [] -> currentY < rowStart).
    { intros Hne. specialize (Hgap Hne).
      destruct (Z_lt_ge_dec y0 (currentY + 49)) as [Hin|Hout].
      - rewrite (Hgap y0) in Hcontent by lia. discriminate.
      - lia. }
    split; [|split].
    + intros row Hrow. apply in_app_or in Hrow. destruct Hrow as [Hrow|[<-|[]]].
      * destruct (Hall row Hrow) as (H1 & H2 & H3 & H4 & H5).
        split; [exact H1|]. split; [exact H2|]. split; [lia|].
        split; [exact H4|exact H5].
      * cbn [RowBoundary.startY RowBoundary.endY RowBoundary.height].
        split; [lia|]. split; [reflexivity|]. split; [lia|]. split; [lia|].
        exists y0. split; [lia|exact Hcontent].
    + intros i j r1 r2 Hij H1 H2.
      destruct (lookup_app_Some rows [RowBoundary.mk rowStart rowEnd (rowEnd - rowStart)]
                  j r2) as [Hcase _].
      destruct (Hcase H2) as [Hj|[Hlen Hj]].
      * assert (Hi : rows !! i = Some r1).
        { rewrite lookup_app_l in H1; [exact H1|].
          apply lookup_lt_Some in Hj. lia. }
        eapply Hsorted; eauto.
      * destruct (j - List.length rows)%nat as [|k] eqn:Hk; [|destruct k; discriminate Hj].
        cbn in Hj. injection Hj as <-. cbn [RowBoundary.startY].
        assert (Hi : rows !! i = Some r1).
        { rewrite lookup_app_l in H1; [exact H1|]. lia. }
        assert (Hin : In r1 rows)
          by (apply list_elem_of_In, list_elem_of_lookup; eauto).
        destruct (Hall r1 Hin) as (_ & _ & H3 & _).
        assert (Hne : rows <> []) by (intros ->; destruct Hin).
        specialize (Hnew Hne). lia.
    + intros _ z Hz. apply Hafter. lia.
Qed.

(** The bound on the number of iterations is never reached: with more
    iterations allowed the rows are the same. *)
Lemma detectRows_from_enough (n : nat) :
  forall (m : nat) (currentY : Z) (rows : list RowBoundary.t),
  0 <= currentY ->
  (Z.to_nat (height - 100 - currentY) <= n)%nat ->
  (Z.to_nat (height - 100 - currentY) <= m)%nat ->
  detectRows_from imageBuffer width height channels n currentY rows
  = detectRows_from imageBuffer width height channels m currentY rows.
Proof.
  induction n as [|n IH]; intros m currentY rows HcurrentY Hn Hm.
  - destruct m as [|m]; [reflexivity|]. cbn [detectRows_from].
    destruct (Z.ltb_spec currentY (height - 100)); [lia|reflexivity].
  - destruct m as [|m]; cbn [detectRows_from].
    { destruct (Z.ltb_spec currentY (height - 100)); [lia|reflexivity]. }
    destruct (Z.ltb_spec currentY (height - 100)); [|reflexivity].
    destruct (findRowStart _ _ _ _ _ currentY) as [rowStart|] eqn:Hstart;
      [|reflexivity].
    destruct (findRowEnd _ _ _ _ _ rowStart _) as [rowEnd|] eqn:Hend;
      [|reflexivity].
    destruct (detectRows_iteration _ _ _ HcurrentY Hstart Hend)
      as (y0 & Hy0 & _).
    apply IH; lia.
Qed.

End DetectedRows.

(** X12.  [detectRows], started at a row [startY >= 0] of an image whose
    metadata give a width, a height and a number of channels: the loop ends
    by itself (allowing it more iterations changes nothing), and the rows
    it returns are non-empty ([0 <= startY < endY], with
    [height = endY - startY]), end more than 59 rows above the bottom of
    the image, hold content in the scan column, and come top to bottom
    without overlap: each row ends above the start of the next. *)
Theorem detectRows_rows_are_disjoint
    (imageBuffer : list Z) (width height channels startY : Z)
    (rows : list RowBoundary.t) :
  0 <= startY ->
  detectRows imageBuffer width height channels startY = Some rows ->
  let content y := negb (scanColumnWhite imageBuffer width channels y) in
  (forall n, (Z.to_nat (height - 100 - startY) <= n)%nat ->
     detectRows_from imageBuffer width height channels n startY [] = rows)
  /\ (forall row, In row rows ->
        0 <= RowBoundary.startY row < RowBoundary.endY row
        /\ RowBoundary.height row = RowBoundary.endY row - RowBoundary.startY row
        /\ RowBoundary.endY row < height - 59
        /\ exists y, RowBoundary.startY row <= y <= RowBoundary.endY row
                     /\ content y = true)
  /\ (forall (i j : nat) r1 r2, (i < j)%nat ->
        rows !! i = Some r1 -> rows !! j = Some r2 ->
        RowBoundary.endY r1 < RowBoundary.startY r2).
Proof.
  intros HstartY Hrows content. unfold detectRows in Hrows.
  destruct ((width =? 0) || (height =? 0) || (channels =? 0)); [discriminate|].
  injection Hrows as <-.
  split; [|].
  - intros n Hn. apply detectRows_from_enough; [exact HstartY|exact Hn|lia].
  - destruct (detectRows_from_rows imageBuffer width height channels
                (Z.to_nat (height - 100 - startY)) startY [] HstartY)
      as (lastY & Hall & Hsorted & _).
    { split; [intros row []|]. split; [|intros Hne; contradiction].
      intros i j r1 r2 _ H1. rewrite lookup_nil in H1. discriminate. }
    split; [|exact Hsorted].
    intros row Hrow. destruct (Hall row Hrow) as (H1 & H2 & _ & H4 & y & Hy & Hc).
    split; [exact H1|]. split; [exact H2|]. split; [exact H4|].
    exists y. split; [exact Hy|]. unfold content. rewrite Hc. reflexivity.
Qed.

Lemma detectRows_rows_are_disjoint_witness :
  let image :=
    paintedImage 101 400
      (fun x y => (100 <=? y) && (y <=? 150) || (250 <=? y) && (y <=? 260)) in
  detectRows image 101 400 3 0
  = Some [RowBoundary.mk 55 150 95; RowBoundary.mk 205 260 55]
  /\ RowBoundary.endY (RowBoundary.mk 55 150 95)
     < RowBoundary.startY (RowBoundary.mk 205 260 55).
Proof.
  intros image.
  assert (E : detectRows image 101 400 3 0
              = Some [RowBoundary.mk 55 150 95; RowBoundary.mk 205 260 55])
    by (vm_compute; reflexivity).
  split; [exact E|].
  exact (proj2 (proj2 (detectRows_rows_are_disjoint image 101 400 3 0 _
                         ltac:(lia) E))
           0%nat 1%nat _ _ ltac:(lia) eq_refl eq_refl).
Defined.

(** ** Numbers that cannot be negative *)

Lemma binary_round_aux_sign (sx : bool) (mx ex : Z) (lx : location) :
  JS.is_negative (binary_round_aux prec emax sx mx ex lx) = true -> sx = true.
Proof.
  unfold binary_round_aux.
  destruct (shr_fexp prec emax mx ex lx) as [mrs' e'].
  destruct (shr_fexp prec emax _ e' loc_Exact) as [mrs'' e''].
  destruct (shr_m mrs''); [|destruct (_ <=? _)|]; cbn; auto; discriminate.
Qed.

Lemma of_uint63_not_negative (n : int) :
  JS.is_negative (Prim2SF (PrimFloat.of_uint63 n)) = false.
Proof.
  rewrite of_uint63_spec. unfold binary_normalize.
  pose proof (Uint63.to_Z_bounded n) as Hn.
  destruct (Uint63.to_Z n) as [|m|m]; [reflexivity| |lia].
  unfold binary_round. destruct (shl_align _ _ _) as [mz ez].
  destruct (JS.is_negative _) eqn:E; [|reflexivity].
  apply binary_round_aux_sign in E. discriminate.
Qed.

Lemma of_Z_not_negative (z : Z) :
  0 <= z -> JS.is_negative (Prim2SF (JS.of_Z z)) = false.
Proof.
  intros Hz. unfold JS.of_Z. destruct (Z.ltb_spec z 0); [lia|].
  apply of_uint63_not_negative.
Qed.

Lemma mul_not_negative (x y : float) :
  JS.is_negative (Prim2SF x) = false ->
  JS.is_negative (Prim2SF y) = false ->
  JS.is_negative (Prim2SF (PrimFloat.mul x y)) = false.
Proof.
  rewrite FloatAxioms.mul_spec. unfold SF64mul, SFmul.
  destruct (Prim2SF x) as [sx|sx| |sx mx ex], (Prim2SF y) as [sy|sy| |sy my ey];
    cbn [JS.is_negative]; intros Hx Hy; subst; try reflexivity.
  destruct (JS.is_negative _) eqn:E; [|reflexivity].
  apply binary_round_aux_sign in E. discriminate.
Qed.

Lemma SFfloor_not_negative (x : spec_float) :
  JS.is_negative x = false -> 0 <= default 0 (JS.SFfloor x).
Proof.
  destruct x as [s|s| |s m e]; cbn [JS.is_negative JS.SFfloor default from_option id];
    try (intros _; lia).
  intros ->. destruct (Z.leb_spec 0 e).
  - apply Z.mul_nonneg_nonneg; [lia|]. apply Z.pow_nonneg. lia.
  - apply Z.div_pos; [lia|]. apply Z.pow_pos_nonneg; lia.
Qed.

(** [Math.floor] of a number that is not negative is an integer that is
    not negative. *)
Lemma floor_not_negative (x : float) :
  JS.is_negative (Prim2SF x) = false -> 0 <= JS.to_Z (JS.Math_floor x).
Proof.
  intros Hx. unfold JS.to_Z, JS.Math_floor, JS.integral.
  pose proof (SFfloor_not_negative _ Hx) as Hfloor.
  destruct (JS.SFfloor (Prim2SF x)) as [z|] eqn:E.
  - rewrite Hx, andb_false_r. cbn [default from_option id] in Hfloor.
    apply SFfloor_not_negative, of_Z_not_negative. exact Hfloor.
  - rewrite E. cbn. lia.
Qed.

Lemma floor_scaled_not_negative (h : Z) (c : float) :
  0 <= h -> JS.is_negative (Prim2SF c) = false ->
  0 <= JS.to_Z (JS.Math_floor (PrimFloat.mul (JS.of_Z h) c)).
Proof.
  intros Hh Hc. apply floor_not_negative, mul_not_negative;
    [apply of_Z_not_negative; exact Hh|exact Hc].
Qed.

Lemma div_not_negative (x y : float) :
  JS.is_negative (Prim2SF x) = false ->
  JS.is_negative (Prim2SF y) = false ->
  JS.is_negative (Prim2SF (PrimFloat.div x y)) = false.
Proof.
  rewrite FloatAxioms.div_spec. unfold SF64div, SFdiv.
  destruct (Prim2SF x) as [sx|sx| |sx mx ex], (Prim2SF y) as [sy|sy| |sy my ey];
    cbn [JS.is_negative]; intros Hx Hy; subst; try reflexivity.
  destruct (SFdiv_core_binary _ _ _ _ _ _) as [[mz ez] lz].
  destruct (JS.is_negative _) eqn:E; [|reflexivity].
  apply binary_round_aux_sign in E. discriminate.
Qed.

Lemma SFround_not_negative (x : spec_float) :
  JS.is_negative x = false -> 0 <= default 0 (JS.SFround x).
Proof.
  destruct x as [s|s| |s m e]; cbn [JS.is_negative JS.SFround default from_option id];
    try (intros _; lia).
  intros ->. destruct (Z.leb_spec 0 e).
  - apply Z.mul_nonneg_nonneg; [lia|]. apply Z.pow_nonneg. lia.
  - apply Z.div_pos; [|apply Z.pow_pos_nonneg; lia].
    assert (0 <= 2 ^ (- e - 1)) by (apply Z.pow_nonneg; lia). lia.
Qed.

(** [Math.round] of a number that is not negative is an integer that is
    not negative. *)
Lemma round_not_negative (x : float) :
  JS.is_negative (Prim2SF x) = false -> 0 <= JS.to_Z (JS.Math_round x).
Proof.
  intros Hx. unfold JS.to_Z, JS.Math_round, JS.integral.
  pose proof (SFround_not_negative _ Hx) as Hround.
  destruct (JS.SFround (Prim2SF x)) as [z|] eqn:E.
  - rewrite Hx, andb_false_r. cbn [default from_option id] in Hround.
    apply SFfloor_not_negative, of_Z_not_negative. exact Hround.
  - apply SFfloor_not_negative. exact Hx.
Qed.

(** ** The swatch extractor: the horizontal scans *)

(** A loop [for (x = a; x < a + n; x++)] keeps what each of its iterations
    keeps. *)
Lemma foldl_seqZ_invariant {St} (step : St -> Z -> St) (P : Z -> St -> Prop)
    (a n : Z) (st : St) :
  0 <= n ->
  P a st ->
  (forall x st, a <= x < a + n -> P x st -> P (x + 1) (step st x)) ->
  P (a + n) (foldl step st (seqZ a n)).
Proof.
  intros Hn H0 Hstep. rewrite <- (Z2Nat.id n Hn) in *.
  induction (Z.to_nat n) as [|k IH].
  - cbn. rewrite Z.add_0_r. exact H0.
  - rewrite seqZ_S, foldl_app. cbn [foldl].
    replace (a + Z.of_nat (S k)) with (a + Z.of_nat k + 1) by lia.
    apply Hstep; [lia|]. apply IH. intros x st' Hx. apply Hstep. lia.
Qed.

Lemma leftToRight_nil {A} (lo hi : A -> Z) : leftToRight lo hi [].
Proof. intros i j a b _ H. rewrite lookup_nil in H. discriminate. Qed.

Lemma leftToRight_snoc {A} (lo hi : A -> Z) (l : list A) (x : A) :
  leftToRight lo hi l ->
  (forall a, In a l -> hi a < lo x) ->
  leftToRight lo hi (l ++ [x]).
Proof.
  intros Hl Hx i j a b Hij Hi Hj.
  destruct (lookup_app_Some l [x] j b) as [Hcase _].
  destruct (Hcase Hj) as [Hj'|[Hlen Hj']].
  - assert (Hi' : l !! i = Some a).
    { rewrite lookup_app_l in Hi; [exact Hi|].
      apply lookup_lt_Some in Hj'. lia. }
    eapply Hl; eauto.
  - destruct (j - List.length l)%nat as [|k] eqn:Hk; [|destruct k; discriminate Hj'].
    cbn in Hj'. injection Hj' as <-.
    assert (Hi' : l !! i = Some a).
    { rewrite lookup_app_l in Hi; [exact Hi|]. lia. }
    apply Hx. apply list_elem_of_In, list_elem_of_lookup. eauto.
Qed.

Lemma leftToRight_cons {A} (lo hi : A -> Z) (x : A) (l : list A) :
  (forall b, In b l -> hi x < lo b) ->
  leftToRight lo hi l ->
  leftToRight lo hi (x :: l).
Proof.
  intros Hx Hl i j a b Hij Hi Hj.
  destruct j as [|j]; [lia|]. cbn in Hj.
  destruct i as [|i]; cbn in Hi.
  - injection Hi as <-. apply Hx.
    apply list_elem_of_In, list_elem_of_lookup. eauto.
  - eapply (Hl i j); eauto. lia.
Qed.

Lemma leftToRight_tail {A} (lo hi : A -> Z) (x : A) (l : list A) :
  leftToRight lo hi (x :: l) ->
  (forall b, In b l -> hi x < lo b) /\ leftToRight lo hi l.
Proof.
  intros H. split.
  - intros b Hb. apply list_elem_of_In, list_elem_of_lookup in Hb.
    destruct Hb as [k Hk]. apply (H 0%nat (S k)); [lia|reflexivity|exact Hk].
  - intros i j a b Hij Hi Hj. apply (H (S i) (S j)); [lia| |]; assumption.
Qed.

Section HorizontalScans.

Variables (imageBuffer : list Z) (width height channels : Z).

Let content (x y : Z) : bool :=
  negb (SwatchExtractor.isWhiteOrNearWhite (pixelAt imageBuffer width channels x y)).

(** *** [findSwatchBoundariesInRow] *)

(** The swatch starts found in the columns before [x]. *)
Let startsUpTo (scanY x : Z) (st : SwatchScan.t) : Prop :=
  Forall (fun s => 0 <= s < x /\ content s scanY = true) (SwatchScan.swatchStarts st)
  /\ leftToRight (fun s => s) (fun s => s) (SwatchScan.swatchStarts st).

Lemma swatchScanStep_starts (scanY x : Z) (st : SwatchScan.t) :
  0 <= x ->
  startsUpTo scanY x st ->
  startsUpTo scanY (x + 1)
    (swatchScanStep st x
       (SwatchExtractor.isWhiteOrNearWhite (pixelAt imageBuffer width channels x scanY))).
Proof.
  intros Hx [Hall Hsorted]. unfold swatchScanStep.
  assert (Hweak : Forall (fun s => 0 <= s < x + 1 /\ content s scanY = true)
                    (SwatchScan.swatchStarts st)).
  { eapply Forall_impl; [|exact Hall]. cbv beta. intros s [Hs Hc]. split; [lia|exact Hc]. }
  destruct (SwatchScan.inSwatch st);
    destruct (SwatchExtractor.isWhiteOrNearWhite
                (pixelAt imageBuffer width channels x scanY)) eqn:Hw;
    cbn [negb andb].
  - destruct (whiteSpaceGap <=? SwatchScan.consecutiveWhitePixels st + 1);
      split; assumption.
  - split; assumption.
  - destruct st; split; assumption.
  - split; cbn [SwatchScan.swatchStarts].
    + apply Forall_app. split; [exact Hweak|]. constructor; [|constructor].
      split; [lia|]. unfold content. rewrite Hw. reflexivity.
    + apply leftToRight_snoc; [exact Hsorted|].
      intros s Hs. rewrite Forall_forall in Hall.
      destruct (Hall s Hs). lia.
Qed.

Lemma swatchStartsAt_starts (scanY : Z) :
  startsUpTo scanY (Z.max 0 width)
    (foldl
       (fun st currentX =>
          swatchScanStep st currentX
            (SwatchExtractor.isWhiteOrNearWhite
               (pixelAt imageBuffer width channels currentX scanY)))
       (SwatchScan.mk false 0 []) (seqZ 0 width)).
Proof.
  destruct (Z_le_gt_dec width 0) as [Hle|Hgt].
  - rewrite seqZ_nil by lia. cbn. split; [constructor|apply leftToRight_nil].
  - replace (Z.max 0 width) with (0 + width) by lia.
    apply (foldl_seqZ_invariant _ (startsUpTo scanY)); [lia| |].
    + split; [constructor|apply leftToRight_nil].
    + intros x st Hx Hst. apply swatchScanStep_starts; [lia|exact Hst].
Qed.

Lemma swatchBoundaries_spec (scanY : Z) (swatchStarts : list Z) :
  Forall (fun s => 0 <= s < width /\ content s scanY = true) swatchStarts ->
  leftToRight (fun s => s) (fun s => s) swatchStarts ->
  let boundaries := swatchBoundaries width swatchStarts in
  (forall b, In b boundaries ->
     0 <= Boundary.startX b
     /\ Boundary.startX b + 119 <= Boundary.endX b <= width - 1
     /\ content (Boundary.startX b) scanY = true
     /\ In (Boundary.startX b) swatchStarts)
  /\ leftToRight Boundary.startX Boundary.endX boundaries.
Proof.
  cbv zeta. induction swatchStarts as [|startX rest IH]; intros Hall Hsorted.
  - split; [intros b []|apply leftToRight_nil].
  - inversion Hall as [|? ? [Hs Hc] Hrest]; subst.
    assert (Hsorted' : leftToRight (fun s => s) (fun s => s) rest).
    { intros i j a b Hij Hi Hj. apply (Hsorted (S i) (S j)); [lia| |]; assumption. }
    assert (Hfirst : forall s, In s rest -> startX < s).
    { intros s Hin. apply list_elem_of_In, list_elem_of_lookup in Hin.
      destruct Hin as [k Hk]. apply (Hsorted 0%nat (S k)); [lia|reflexivity|exact Hk]. }
    destruct (IH Hrest Hsorted') as [IHall IHsorted].
    cbn [swatchBoundaries].
    set (endX := match rest with next :: _ => next - 1 | [] => width - 1 end).
    assert (HendX : endX <= width - 1
                     /\ forall s, In s rest -> endX < s).
    { subst endX. destruct rest as [|next rest'].
      - split; [lia|intros s []].
      - inversion Hrest as [|? ? [Hn _] _]; subst. split; [lia|].
        intros s [<-|Hin]; [lia|].
        apply list_elem_of_In, list_elem_of_lookup in Hin. destruct Hin as [k Hk].
        pose proof (Hsorted' 0%nat (S k) next s ltac:(lia) eq_refl Hk) as Hlt.
        cbv beta in Hlt. lia. }
    destruct HendX as [Hedge Hnext].
    destruct (Z.leb_spec minSwatchWidth (endX - startX + 1)) as [Hwide|Hnarrow].
    + unfold minSwatchWidth in Hwide. cbn [app]. split.
      * intros b [<-|Hb].
        -- cbn [Boundary.startX Boundary.endX].
           split; [lia|]. split; [lia|]. split; [exact Hc|left; reflexivity].
        -- destruct (IHall b Hb) as (H1 & H2 & H3 & H4).
           split; [exact H1|]. split; [exact H2|]. split; [exact H3|right; exact H4].
      * apply leftToRight_cons; [|exact IHsorted].
        intros b Hb. destruct (IHall b Hb) as (_ & _ & _ & H4).
        cbn [Boundary.endX]. apply Hnext. exact H4.
    + cbn [app]. split; [|exact IHsorted].
      intros b Hb. destruct (IHall b Hb) as (H1 & H2 & H3 & H4).
      split; [exact H1|]. split; [exact H2|]. split; [exact H3|right; exact H4].
Qed.

End HorizontalScans.

Lemma findSwatchBoundariesInRow_spec
    (imageBuffer : list Z) (width height channels : Z) (row : RowBoundary.t)
    (boundaries : list Boundary.t) :
  findSwatchBoundariesInRow imageBuffer width height channels row = Some boundaries ->
  let scanY :=
    JS.to_Z
      (JS.Math_floor
         (PrimFloat.add (JS.of_Z (RowBoundary.startY row))
            (PrimFloat.mul (JS.of_Z (RowBoundary.height row)) 0.5))) in
  (forall b, In b boundaries ->
     0 <= Boundary.startX b
     /\ Boundary.startX b + 119 <= Boundary.endX b <= width - 1
     /\ SwatchExtractor.isWhiteOrNearWhite
          (pixelAt imageBuffer width channels (Boundary.startX b) scanY)
        = false)
  /\ leftToRight Boundary.startX Boundary.endX boundaries.
Proof.
  unfold findSwatchBoundariesInRow.
  destruct ((width =? 0) || (height =? 0) || (channels =? 0)); [discriminate|].
  intros [= <-]. cbv zeta.
  set (scanY := JS.to_Z _).
  destruct (swatchStartsAt_starts imageBuffer width channels scanY) as [Hall Hsorted].
  fold (swatchStartsAt imageBuffer width channels scanY) in Hall, Hsorted.
  destruct (swatchBoundaries_spec imageBuffer width channels scanY
              (swatchStartsAt imageBuffer width channels scanY)) as [Hb Hs].
  - eapply Forall_impl; [|exact Hall]. cbv beta. intros s [Hs Hc']. split; [lia|exact Hc'].
  - exact Hsorted.
  - split; [|exact Hs].
    intros b Hin. destruct (Hb b Hin) as (H1 & H2 & H3 & _).
    split; [exact H1|]. split; [exact H2|].
    apply negb_true_iff. exact H3.
Qed.

(** X13.  [findSwatchBoundariesInRow], on an image whose metadata give a
    width, a height and a number of channels: every swatch group it
    returns starts at a column whose pixel in the scanned line (half way
    down the row) is not background, spans at least 120 columns, lies
    inside the image, and the groups come left to right without overlap.
    Without one of the three metadata an error is thrown. *)
Theorem findSwatchBoundariesInRow_groups
    (imageBuffer : list Z) (width height channels : Z) (row : RowBoundary.t) :
  let scanY :=
    JS.to_Z
      (JS.Math_floor
         (PrimFloat.add (JS.of_Z (RowBoundary.startY row))
            (PrimFloat.mul (JS.of_Z (RowBoundary.height row)) 0.5))) in
  match findSwatchBoundariesInRow imageBuffer width height channels row with
  | Some boundaries =>
      width <> 0 /\ height <> 0 /\ channels <> 0
      /\ (forall b, In b boundaries ->
            0 <= Boundary.startX b
            /\ Boundary.startX b + 119 <= Boundary.endX b <= width - 1
            /\ SwatchExtractor.isWhiteOrNearWhite
                 (pixelAt imageBuffer width channels (Boundary.startX b) scanY)
               = false)
      /\ leftToRight Boundary.startX Boundary.endX boundaries
  | None => width = 0 \/ height = 0 \/ channels = 0
  end.
Proof.
  cbv zeta.
  destruct (findSwatchBoundariesInRow imageBuffer width height channels row)
    as [boundaries|] eqn:E.
  - pose proof (findSwatchBoundariesInRow_spec _ _ _ _ _ _ E) as Hspec.
    unfold findSwatchBoundariesInRow in E.
    destruct (Z.eqb_spec width 0) as [|Hw]; [discriminate|].
    destruct (Z.eqb_spec height 0) as [|Hh]; [discriminate|].
    destruct (Z.eqb_spec channels 0) as [|Hc]; [discriminate|].
    split; [exact Hw|]. split; [exact Hh|]. split; [exact Hc|]. exact Hspec.
  - unfold findSwatchBoundariesInRow in E.
    destruct (Z.eqb_spec width 0) as [|Hw]; [auto|].
    destruct (Z.eqb_spec height 0) as [|Hh]; [auto|].
    destruct (Z.eqb_spec channels 0) as [|Hc]; [auto|].
    discriminate.
Qed.

Section ColourBoxes.

Variables (imageBuffer : list Z) (width height channels : Z).

Let content (x y : Z) : bool :=
  negb (SwatchExtractor.isWhiteOrNearWhite (pixelAt imageBuffer width channels x y)).

(** *** [findColorBoxBoundaries] *)

Let wellFormed (scanY : Z) (b : Boundary.t) : Prop :=
  0 <= Boundary.startX b
  /\ Boundary.startX b + 15 <= Boundary.endX b
  /\ content (Boundary.startX b) scanY = true.

(** The boxes closed, and the box that is open, when the columns before
    [x] have been scanned. *)
Let boxesUpTo (scanY x : Z) (st : BoxScan.t) : Prop :=
  (forall b, In b (BoxScan.colorBoxes st) ->
     wellFormed scanY b /\ Boundary.endX b < x)
  /\ leftToRight Boundary.startX Boundary.endX (BoxScan.colorBoxes st)
  /\ (BoxScan.inColorBox st = true ->
      0 <= BoxScan.colorBoxStartX st < x
      /\ content (BoxScan.colorBoxStartX st) scanY = true
      /\ 0 <= BoxScan.consecutiveWhitePixels st
      /\ BoxScan.colorBoxStartX st + BoxScan.consecutiveWhitePixels st < x
      /\ forall b, In b (BoxScan.colorBoxes st) ->
           Boundary.endX b < BoxScan.colorBoxStartX st).

Lemma boxScanStep_boxes (scanY x : Z) (st : BoxScan.t) :
  0 <= x ->
  boxesUpTo scanY x st ->
  boxesUpTo scanY (x + 1)
    (boxScanStep st x
       (SwatchExtractor.isWhiteOrNearWhite (pixelAt imageBuffer width channels x scanY))).
Proof.
  intros Hx (Hall & Hsorted & Hopen). unfold boxScanStep.
  assert (Hweak : forall b, In b (BoxScan.colorBoxes st) ->
                    wellFormed scanY b /\ Boundary.endX b < x + 1).
  { intros b Hb. destruct (Hall b Hb). split; [assumption|lia]. }
  destruct (BoxScan.inColorBox st) eqn:Hin;
    destruct (SwatchExtractor.isWhiteOrNearWhite
                (pixelAt imageBuffer width channels x scanY)) eqn:Hw;
    cbn [negb andb].
  - (* background inside a box *)
    destruct (Hopen eq_refl) as (Hstart & Hc & Hcons & Hrun & Hbefore).
    destruct (Z.leb_spec whiteGap (BoxScan.consecutiveWhitePixels st + 1))
      as [Hgap|Hgap].
    + set (colorBoxWidth :=
             x - BoxScan.colorBoxStartX st
             - (BoxScan.consecutiveWhitePixels st + 1)).
      destruct (Z.leb_spec minColorBoxWidth colorBoxWidth) as [Hwide|Hnarrow];
        (split; [|split; [|intros [=]]]); cbn [BoxScan.colorBoxes].
      * intros b Hb. apply in_app_or in Hb. destruct Hb as [Hb|[<-|[]]].
        -- apply Hweak, Hb.
        -- unfold wellFormed, minColorBoxWidth in *.
           cbn [Boundary.startX Boundary.endX]. subst colorBoxWidth.
           split; [split; [lia|split; [lia|exact Hc]]|lia].
      * apply leftToRight_snoc; [exact Hsorted|].
        intros b Hb. cbn [Boundary.startX]. apply Hbefore, Hb.
      * exact Hweak.
      * exact Hsorted.
    + split; [exact Hweak|]. split; [exact Hsorted|]. intros _.
      cbn [BoxScan.colorBoxStartX BoxScan.consecutiveWhitePixels BoxScan.colorBoxes].
      split; [lia|]. split; [exact Hc|]. split; [lia|]. split; [lia|exact Hbefore].
  - (* colour inside a box *)
    destruct (Hopen eq_refl) as (Hstart & Hc & Hcons & Hrun & Hbefore).
    split; [exact Hweak|]. split; [exact Hsorted|]. intros _.
    cbn [BoxScan.colorBoxStartX BoxScan.consecutiveWhitePixels BoxScan.colorBoxes].
    split; [lia|]. split; [exact Hc|]. split; [lia|]. split; [lia|exact Hbefore].
  - (* background outside *)
    split; [exact Hweak|]. split; [exact Hsorted|].
    intros Hopen'. rewrite Hin in Hopen'. discriminate.
  - (* a box starts *)
    split; [exact Hweak|]. split; [exact Hsorted|]. intros _.
    cbn [BoxScan.colorBoxStartX BoxScan.consecutiveWhitePixels BoxScan.colorBoxes].
    split; [lia|]. split; [unfold content; rewrite Hw; reflexivity|].
    split; [lia|]. split; [lia|].
    intros b Hb. destruct (Hall b Hb). assumption.
Qed.

Lemma findColorBoxBoundaries_spec :
  let scanY := JS.to_Z (JS.Math_floor (PrimFloat.mul (JS.of_Z height) 0.5)) in
  (forall b, In b (findColorBoxBoundaries imageBuffer width height channels) ->
     wellFormed scanY b /\ Boundary.endX b <= width)
  /\ leftToRight Boundary.startX Boundary.endX
       (findColorBoxBoundaries imageBuffer width height channels).
Proof.
  cbv zeta. unfold findColorBoxBoundaries.
  set (scanY := JS.to_Z _).
  destruct (Z_le_gt_dec width 0) as [Hle|Hgt].
  { rewrite seqZ_nil by lia. cbn. split; [intros b []|apply leftToRight_nil]. }
  set (st := foldl _ _ _).
  replace (Z.max 0 width) with width by lia.
  assert (Hst : boxesUpTo scanY width st).
  { subst st. replace width with (0 + width) at 1 by lia.
    apply (foldl_seqZ_invariant _ (boxesUpTo scanY)); [lia| |].
    - split; [intros b []|]. split; [apply leftToRight_nil|intros [=]].
    - intros x st Hx Hst. apply boxScanStep_boxes; [lia|exact Hst]. }
  destruct Hst as (Hall & Hsorted & Hopen).
  assert (Hclosed : forall b, In b (BoxScan.colorBoxes st) ->
                      wellFormed scanY b /\ Boundary.endX b <= width).
  { intros b Hb. destruct (Hall b Hb). split; [assumption|lia]. }
  destruct (BoxScan.inColorBox st); [|split; [exact Hclosed|exact Hsorted]].
  destruct (Hopen eq_refl) as (Hstart & Hc & Hcons & Hrun & Hbefore).
  destruct (Z.leb_spec minColorBoxWidth (width - BoxScan.colorBoxStartX st))
    as [Hwide|Hnarrow]; [|split; [exact Hclosed|exact Hsorted]].
  unfold minColorBoxWidth in Hwide. split.
  - intros b Hb. apply in_app_or in Hb. destruct Hb as [Hb|[<-|[]]].
    + apply Hclosed, Hb.
    + unfold wellFormed. cbn [Boundary.startX Boundary.endX].
      split; [split; [lia|split; [lia|exact Hc]]|lia].
  - apply leftToRight_snoc; [exact Hsorted|].
    intros b Hb. cbn [Boundary.startX]. apply Hbefore, Hb.
Qed.

(** *** [findColorBoxVerticalBoundaries] *)

Lemma find_first {A} (p : A -> bool) (l : list A) (x : A) :
  List.find p l = Some x ->
  exists before after,
    l = before ++ x :: after /\ p x = true
    /\ forall y, In y before -> p y = false.
Proof.
  induction l as [|a l IH]; [discriminate|]. cbn [List.find].
  destruct (p a) eqn:Ha.
  - intros [= <-]. exists [], l. split; [reflexivity|]. split; [exact Ha|intros y []].
  - intros H. destruct (IH H) as (before & after & -> & Hx & Hb).
    exists (a :: before), after. split; [reflexivity|]. split; [exact Hx|].
    intros y [<-|Hy]; [exact Ha|apply Hb, Hy].
Qed.

Lemma find_first_seqZ (p : Z -> bool) (a n x : Z) :
  List.find p (seqZ a n) = Some x ->
  a <= x < a + n /\ p x = true /\ forall y, a <= y < x -> p y = false.
Proof.
  intros H. pose proof (find_some _ _ H) as [Hin Hx].
  apply list_elem_of_In, elem_of_seqZ in Hin.
  split; [exact Hin|]. split; [exact Hx|].
  intros y Hy. destruct (p y) eqn:Hp; [exfalso|reflexivity].
  replace n with ((x - a) + (n - (x - a))) in H by lia.
  rewrite seqZ_app in H by lia.
  assert (Hnone : List.find p (seqZ a (x - a)) = None).
  { destruct (List.find p (seqZ a (x - a))) as [z|] eqn:Hz; [|reflexivity].
    exfalso. pose proof (find_some _ _ Hz) as [Hzin Hpz].
    apply list_elem_of_In, elem_of_seqZ in Hzin.
    clear Hy Hp. revert H. generalize (seqZ (a + (x - a)) (n - (x - a))).
    intros rest H.
    assert (E : List.find p (seqZ a (x - a) ++ rest) = Some z).
    { clear H. induction (seqZ a (x - a)) as [|h t IH]; [discriminate|].
      cbn [List.find app] in *. destruct (p h); [exact Hz|apply IH, Hz]. }
    rewrite E in H. injection H as ->. lia. }
  pose proof (find_none _ _ Hnone y) as Hy'.
  rewrite Hy' in Hp; [discriminate|].
  apply list_elem_of_In, elem_of_seqZ. lia.
Qed.

Lemma find_last_seqZ (p : Z -> bool) (a n x : Z) :
  List.find p (reverse (seqZ a n)) = Some x ->
  a <= x < a + n /\ p x = true /\ forall y, x < y < a + n -> p y = false.
Proof.
  intros H. destruct (find_first _ _ _ H) as (before & after & E & Hx & Hb).
  assert (Hin : a <= x < a + n).
  { apply elem_of_seqZ. apply elem_of_reverse. rewrite E.
    apply list_elem_of_In, in_or_app. right. left. reflexivity. }
  split; [exact Hin|]. split; [exact Hx|].
  intros y Hy. apply Hb.
  assert (Hrev : seqZ a n = reverse after ++ x :: reverse before).
  { rewrite <- (reverse_involutive (seqZ a n)), E, reverse_app, reverse_cons.
    rewrite <- app_assoc. reflexivity. }
  assert (Hy' : y ∈ seqZ a n) by (apply elem_of_seqZ; lia).
  rewrite Hrev in Hy'. apply list_elem_of_In. apply elem_of_reverse.
  apply list_elem_of_In in Hy'. apply in_app_or in Hy'.
  destruct Hy' as [Hy'|[->|Hy']]; [exfalso|lia|apply list_elem_of_In; exact Hy'].
  (* an element before [x] in an increasing list is less than [x] *)
  apply list_elem_of_In, list_elem_of_lookup in Hy'. destruct Hy' as [i Hi].
  pose proof (lookup_lt_Some _ _ _ Hi) as Hlen.
  assert (Hi' : seqZ a n !! i = Some y).
  { rewrite Hrev, lookup_app_l by exact Hlen. exact Hi. }
  assert (Hx' : seqZ a n !! List.length (reverse after) = Some x).
  { rewrite Hrev, lookup_app_r by lia. rewrite Nat.sub_diag. reflexivity. }
  apply lookup_seqZ in Hi', Hx'. lia.
Qed.

End ColourBoxes.

(** X14.  [findColorBoxBoundaries]: the colour boxes found in the middle
    line of a swatch's colour area start inside the image at a pixel that
    is not background, are at least 15 columns wide, end at the right edge
    of the image at the latest, and come left to right, each ending before
    the next one starts. *)
Theorem findColorBoxBoundaries_boxes
    (imageBuffer : list Z) (width height channels : Z) :
  let scanY := JS.to_Z (JS.Math_floor (PrimFloat.mul (JS.of_Z height) 0.5)) in
  let boxes := findColorBoxBoundaries imageBuffer width height channels in
  (forall b, In b boxes ->
     0 <= Boundary.startX b
     /\ Boundary.startX b + 15 <= Boundary.endX b <= width
     /\ SwatchExtractor.isWhiteOrNearWhite
          (pixelAt imageBuffer width channels (Boundary.startX b) scanY) = false)
  /\ leftToRight Boundary.startX Boundary.endX boxes.
Proof.
  cbv zeta.
  destruct (findColorBoxBoundaries_spec imageBuffer width height channels)
    as [Hall Hsorted].
  split; [|exact Hsorted].
  intros b Hb. destruct (Hall b Hb) as [(H1 & H2 & H3) H4].
  split; [exact H1|]. split; [lia|]. apply negb_true_iff. exact H3.
Qed.

Lemma findColorBoxVerticalBoundaries_spec
    (imageBuffer : list Z) (width height channels : Z)
    (colorBoxBounds : Boundary.t) :
  let startScanY := JS.to_Z (JS.Math_floor (PrimFloat.mul (JS.of_Z height) 0.25)) in
  let solid := solidRow imageBuffer width channels colorBoxBounds in
  match findColorBoxVerticalBoundaries imageBuffer width height channels
          colorBoxBounds with
  | Some (startY, endY) =>
      startScanY <= startY /\ startY <= endY /\ endY <= height - 1
      /\ (0 <= height -> 0 <= startScanY)
      /\ solid startY = true /\ solid endY = true
      /\ (forall y, startScanY <= y < startY -> solid y = false)
      /\ (forall y, endY < y <= height - 1 -> solid y = false)
  | None => forall y, startScanY <= y <= height - 1 -> solid y = false
  end.
Proof.
  cbv zeta. unfold findColorBoxVerticalBoundaries.
  set (startScanY := JS.to_Z _).
  set (solid := solidRow imageBuffer width channels colorBoxBounds).
  destruct (List.find solid (seqZ startScanY (height - startScanY)))
    as [colorStartY|] eqn:Hfirst.
  - destruct (find_first_seqZ _ _ _ _ Hfirst) as (Hr1 & Hs1 & Hb1).
    destruct (List.find solid (reverse (seqZ colorStartY (height - colorStartY))))
      as [colorEndY|] eqn:Hlast.
    + destruct (find_last_seqZ _ _ _ _ Hlast) as (Hr2 & Hs2 & Hb2).
      split; [lia|]. split; [lia|]. split; [lia|].
      split; [intros Hh; apply floor_scaled_not_negative; [exact Hh|reflexivity]|].
      split; [exact Hs1|]. split; [exact Hs2|]. split; [exact Hb1|].
      intros y Hy. apply Hb2. lia.
    + exfalso. pose proof (find_none _ _ Hlast colorStartY) as Hnone.
      rewrite Hs1 in Hnone. enough (false = true) by discriminate.
      symmetry. apply Hnone. apply list_elem_of_In, elem_of_reverse, elem_of_seqZ. lia.
  - intros y Hy. apply (find_none _ _ Hfirst).
    apply list_elem_of_In, elem_of_seqZ. lia.
Qed.

(** X15.  [findColorBoxVerticalBoundaries]: the rows returned for a colour
    box are the first and the last solid row (more than 80% of the pixels
    between the bounds are not background) from a quarter of the height
    down, rows of the image; nothing is returned exactly when no row from
    there down is solid. *)
Theorem findColorBoxVerticalBoundaries_rows
    (imageBuffer : list Z) (width height channels : Z)
    (colorBoxBounds : Boundary.t) :
  let startScanY := JS.to_Z (JS.Math_floor (PrimFloat.mul (JS.of_Z height) 0.25)) in
  let solid := solidRow imageBuffer width channels colorBoxBounds in
  match findColorBoxVerticalBoundaries imageBuffer width height channels
          colorBoxBounds with
  | Some (startY, endY) =>
      startScanY <= startY /\ startY <= endY /\ endY <= height - 1
      /\ (0 <= height -> 0 <= startScanY)
      /\ solid startY = true /\ solid endY = true
      /\ (forall y, startScanY <= y < startY -> solid y = false)
      /\ (forall y, endY < y <= height - 1 -> solid y = false)
  | None => forall y, startScanY <= y <= height - 1 -> solid y = false
  end.
Proof. apply findColorBoxVerticalBoundaries_spec. Qed.

(** *** [detectColorsInSwatch] *)

Lemma extractDominantColor_box
    (imageBuffer : list Z) (width height channels startX endX startY endY : Z)
    (color : ColorBox.t) :
  extractDominantColor imageBuffer width height channels startX endX startY endY
  = Some (Some color) ->
  ColorBox.boundingBox color
  = BoundingBox.mk startX startY (endX - startX) (endY - startY + 1)
  /\ ColorBox.hex color
     = hexOf (RGB.r (ColorBox.rgb color)) (RGB.g (ColorBox.rgb color))
         (RGB.b (ColorBox.rgb color)).
Proof.
  unfold extractDominantColor.
  destruct (sampleTotals _ _ _ _ _ _ _) as [totals|]; [|discriminate].
  cbn [mbind option_bind].
  destruct (pixelCount totals =? 0); [discriminate|].
  destruct (readRGB _ _ _ _ _) as [bottomRightPixel|]; [|discriminate].
  cbn [mbind option_bind]. intros [= <-]. split; reflexivity.
Qed.

Lemma colorOfBox_cases
    (imageBuffer : list Z) (width height channels : Z)
    (colorBoxBounds : Boundary.t) (found : list ColorBox.t) :
  colorOfBox imageBuffer width height channels colorBoxBounds = Some found ->
  found = []
  \/ exists color, found = [color]
       /\ sampledFrom imageBuffer width height channels colorBoxBounds color.
Proof.
  unfold colorOfBox, sampledFrom.
  destruct (findColorBoxVerticalBoundaries _ _ _ _ _) as [[startY endY]|];
    [|intros [= <-]; left; reflexivity].
  destruct (extractDominantColor _ _ _ _ _ _ _ _) as [[color|]|] eqn:E;
    cbn [mbind option_bind]; [| |discriminate].
  - intros [= <-]. right. exists color. split; [reflexivity|].
    exists startY, endY. split; [reflexivity|exact E].
  - intros [= <-]. left. reflexivity.
Qed.

Lemma detectColors_from
    (imageBuffer : list Z) (width height channels : Z)
    (boxes : list Boundary.t) :
  forall (acc colors : list ColorBox.t),
  leftToRight Boundary.startX Boundary.endX boxes ->
  foldl
    (fun colors colorBoxBounds =>
       colors ← colors;
       found ← colorOfBox imageBuffer width height channels colorBoxBounds;
       Some (colors ++ found))
    (Some acc) boxes = Some colors ->
  exists found,
    colors = acc ++ found
    /\ (List.length found <= List.length boxes)%nat
    /\ (forall c, In c found ->
          exists b, In b boxes
                    /\ sampledFrom imageBuffer width height channels b c)
    /\ leftToRight (fun c => BoundingBox.x (ColorBox.boundingBox c))
         (fun c => BoundingBox.x (ColorBox.boundingBox c)
                   + BoundingBox.width (ColorBox.boundingBox c))
         found.
Proof.
  induction boxes as [|b boxes IH]; intros acc colors Hsorted.
  - cbn. intros [= <-]. exists []. rewrite app_nil_r.
    split; [reflexivity|]. split; [cbn; lia|]. split; [intros c []|apply leftToRight_nil].
  - cbn [foldl mbind option_bind].
    destruct (leftToRight_tail _ _ _ _ Hsorted) as [Hfirst Hrest].
    destruct (colorOfBox imageBuffer width height channels b) as [found0|] eqn:E.
    2:{ intros H. exfalso. clear -H.
        induction boxes as [|b' boxes IH']; [discriminate|]. apply IH'. exact H. }
    intros H. destruct (IH _ _ Hrest H) as (found & -> & Hlen & Hfrom & Hltr).
    exists (found0 ++ found). rewrite app_assoc. split; [reflexivity|].
    destruct (colorOfBox_cases _ _ _ _ _ _ E) as [->|(c0 & -> & Hc0)].
    + cbn [app]. split; [cbn; lia|]. split; [|exact Hltr].
      intros c Hc. destruct (Hfrom c Hc) as (b' & Hb' & Hs).
      exists b'. split; [right; exact Hb'|exact Hs].
    + cbn [app]. split; [cbn; lia|]. split.
      * intros c [<-|Hc]; [exists b; split; [left; reflexivity|exact Hc0]|].
        destruct (Hfrom c Hc) as (b' & Hb' & Hs).
        exists b'. split; [right; exact Hb'|exact Hs].
      * apply leftToRight_cons; [|exact Hltr].
        intros c Hc. destruct (Hfrom c Hc) as (b' & Hb' & sy & ey & _ & Hs).
        destruct Hc0 as (sy0 & ey0 & _ & Hs0).
        destruct (extractDominantColor_box _ _ _ _ _ _ _ _ _ Hs) as [-> _].
        destruct (extractDominantColor_box _ _ _ _ _ _ _ _ _ Hs0) as [-> _].
        cbn [BoundingBox.x BoundingBox.width].
        pose proof (Hfirst b' Hb'). lia.
Qed.

(** X16.  [detectColorsInSwatch], when every pixel it samples lies in the
    buffer: each colour returned comes from one colour box of the middle
    line, its bounding box is that box between its first and last solid
    row (at least 15 columns wide and one row high, inside an image of
    height 0 or more, not above a quarter of the height), its hex string is the one built from
    its averaged channels, and the colours come left to right without
    overlap; there are no more colours than colour boxes, and none when
    the metadata lack a dimension. *)
Theorem detectColorsInSwatch_colours
    (imageBuffer : list Z) (width height channels : Z)
    (colors : list ColorBox.t) :
  0 <= height ->
  detectColorsInSwatch imageBuffer width height channels = Some colors ->
  let startScanY := JS.to_Z (JS.Math_floor (PrimFloat.mul (JS.of_Z height) 0.25)) in
  (forall c, In c colors ->
     let box := ColorBox.boundingBox c in
     0 <= BoundingBox.x box
     /\ 15 <= BoundingBox.width box
     /\ BoundingBox.x box + BoundingBox.width box <= width
     /\ 0 <= startScanY <= BoundingBox.y box
     /\ 1 <= BoundingBox.height box
     /\ BoundingBox.y box + BoundingBox.height box <= height
     /\ ColorBox.hex c
        = hexOf (RGB.r (ColorBox.rgb c)) (RGB.g (ColorBox.rgb c))
            (RGB.b (ColorBox.rgb c)))
  /\ leftToRight (fun c => BoundingBox.x (ColorBox.boundingBox c))
       (fun c => BoundingBox.x (ColorBox.boundingBox c)
                 + BoundingBox.width (ColorBox.boundingBox c))
       colors
  /\ (List.length colors
      <= List.length (findColorBoxBoundaries imageBuffer width height channels))%nat
  /\ (width = 0 \/ height = 0 \/ channels = 0 -> colors = []).
Proof.
  intros Hheight H startScanY. unfold detectColorsInSwatch in H.
  destruct ((width =? 0) || (height =? 0) || (channels =? 0)) eqn:Hmeta.
  { injection H as <-. split; [intros c []|]. split; [apply leftToRight_nil|].
    split; [cbn; lia|reflexivity]. }
  destruct (findColorBoxBoundaries_spec imageBuffer width height channels)
    as [Hboxes Hsorted].
  destruct (detectColors_from _ _ _ _ _ [] colors Hsorted H)
    as (found & -> & Hlen & Hfrom & Hltr).
  cbn [app]. split; [|split; [exact Hltr|split; [exact Hlen|]]].
  - intros c Hc. cbv zeta.
    destruct (Hfrom c Hc) as (b & Hb & sy & ey & Hv & Hs).
    destruct (extractDominantColor_box _ _ _ _ _ _ _ _ _ Hs) as [-> Hhex].
    cbn [BoundingBox.x BoundingBox.y BoundingBox.width BoundingBox.height].
    destruct (Hboxes b Hb) as ((H1 & H2 & _) & H3).
    pose proof (findColorBoxVerticalBoundaries_spec imageBuffer width height
                  channels b) as Hrows.
    rewrite Hv in Hrows. cbv zeta in Hrows.
    destruct Hrows as (R1 & R2 & R3 & R4 & _).
    fold startScanY in R1, R4. specialize (R4 Hheight).
    split; [lia|]. split; [lia|]. split; [lia|]. split; [lia|]. split; [lia|].
    split; [lia|exact Hhex].
  - intros Hzero. exfalso.
    destruct (Z.eqb_spec width 0), (Z.eqb_spec height 0), (Z.eqb_spec channels 0);
      cbn in Hmeta; try discriminate. lia.
Qed.

Lemma detectColorsInSwatch_colours_witness :
  let image := paintedImage 40 8 (fun x y => (5 <=? x) && (x <? 30)) in
  exists colors,
    detectColorsInSwatch image 40 8 3 = Some colors
    /\ (List.length colors
        <= List.length (findColorBoxBoundaries image 40 8 3))%nat.
Proof.
  intros image.
  destruct (detectColorsInSwatch image 40 8 3) as [colors|] eqn:E;
    [|vm_compute in E; discriminate E].
  exists colors. split; [reflexivity|].
  exact (proj1 (proj2 (proj2 (detectColorsInSwatch_colours image 40 8 3 colors ltac:(lia) E)))).
Defined.

(** ** The swatch extractor: sampling, the colour area and the swatches of a row *)

Section Sampling.

Variables (imageBuffer : list Z) (width height channels : Z).

Let background (x y : Z) : bool :=
  SwatchExtractor.isWhiteOrNearWhite (pixelAt imageBuffer width channels x y).

Lemma readRGB_defined (x y : Z) (color : RGB.t) :
  readRGB imageBuffer width channels x y = Some color ->
  pixelAt imageBuffer width channels x y = defined color.
Proof.
  unfold readRGB, defined.
  destruct (pixelAt imageBuffer width channels x y) as [[r|] [g|] [b|]];
    cbn; try discriminate.
  intros [= <-]. reflexivity.
Qed.

(** The sampling loops over readable pixels count the pixels that are not
    background. *)
Lemma sampleTotals_count (pixels : list (Z * Z)) :
  forall acc : Totals,
  (forall y x, In (y, x) pixels ->
     readRGB imageBuffer width channels x y <> None) ->
  exists totals,
    foldl
      (fun acc '(y, x) =>
         match acc, readRGB imageBuffer width channels x y with
         | Some acc, Some color => Some (addSample acc color)
         | _, _ => None
         end)
      (Some acc) pixels = Some totals
    /\ pixelCount totals
       = pixelCount acc
         + Z.of_nat (List.length
                       (List.filter (fun '(y, x) => negb (background x y)) pixels)).
Proof.
  induction pixels as [|[y x] pixels IH]; intros acc Hread.
  - exists acc. split; [reflexivity|]. cbn. lia.
  - cbn [foldl].
    destruct (readRGB imageBuffer width channels x y) as [color|] eqn:E.
    2:{ exfalso. apply (Hread y x); [left; reflexivity|exact E]. }
    destruct (IH (addSample acc color)) as (totals & Ht & Hn).
    { intros y' x' Hin. apply Hread. right. exact Hin. }
    exists totals. split; [exact Ht|]. rewrite Hn.
    cbn [List.filter].
    assert (Hb : background x y = SwatchExtractor.isWhiteOrNearWhite (defined color))
      by (unfold background; rewrite (readRGB_defined _ _ _ E); reflexivity).
    rewrite Hb. unfold addSample.
    destruct (SwatchExtractor.isWhiteOrNearWhite (defined color));
      cbn [negb pixelCount List.length]; lia.
Qed.

Lemma in_region (startX endX startY endY y x : Z) :
  In (y, x)
    (y ← seqZ startY (endY - startY + 1);
     x ← seqZ startX (endX - startX);
     [(y, x)])
  <-> startY <= y <= endY /\ startX <= x < endX.
Proof.
  rewrite <- list_elem_of_In, list_elem_of_bind. split.
  - intros (y' & Hin & Hy). apply elem_of_seqZ in Hy.
    apply list_elem_of_bind in Hin. destruct Hin as (x' & Hin & Hx).
    apply elem_of_seqZ in Hx. apply list_elem_of_singleton in Hin.
    injection Hin as -> ->. lia.
  - intros [Hy Hx]. exists y. split; [|apply elem_of_seqZ; lia].
    apply list_elem_of_bind. exists x. split; [|apply elem_of_seqZ; lia].
    apply list_elem_of_singleton. reflexivity.
Qed.

Lemma extractDominantColor_spec (startX endX startY endY : Z) :
  (forall x y, startX <= x < endX -> startY <= y <= endY ->
     readRGB imageBuffer width channels x y <> None) ->
  readRGB imageBuffer width channels (Z.min (endX - 1) (width - 1))
    (Z.min endY (height - 1)) <> None ->
  (extractDominantColor imageBuffer width height channels startX endX startY endY
   = Some None
   <-> forall x y, startX <= x < endX -> startY <= y <= endY ->
         background x y = true)
  /\ (exists result,
        extractDominantColor imageBuffer width height channels startX endX
          startY endY = Some result).
Proof.
  intros Hread Hcorner. unfold extractDominantColor, sampleTotals.
  set (pixels := y ← seqZ startY (endY - startY + 1);
                 x ← seqZ startX (endX - startX); [(y, x)]).
  destruct (sampleTotals_count pixels (mkTotals 0 0 0 0)) as (totals & -> & Hn).
  { intros y x Hin. apply in_region in Hin. apply Hread; lia. }
  cbn [pixelCount] in Hn. cbn [mbind option_bind].
  destruct (readRGB imageBuffer width channels (Z.min (endX - 1) (width - 1))
              (Z.min endY (height - 1))) as [corner|]; [|contradiction].
  cbn [mbind option_bind].
  set (coloured := List.filter (fun '(y, x) => negb (background x y)) pixels) in *.
  destruct (Z.eqb_spec (pixelCount totals) 0) as [Hzero|Hpos].
  - split; [|eexists; reflexivity]. split; [|reflexivity]. intros _ x y Hx Hy.
    destruct (background x y) eqn:Hb; [reflexivity|exfalso].
    assert (Hin : In (y, x) coloured).
    { apply filter_In. split; [apply in_region; lia|]. rewrite Hb. reflexivity. }
    destruct coloured; [destruct Hin|cbn in Hn; lia].
  - split; [|eexists; reflexivity]. split; [discriminate|]. intros Hall. exfalso.
    apply Hpos. rewrite Hn.
    destruct coloured as [|[y x] rest] eqn:Hc; [reflexivity|exfalso].
    assert (Hin : In (y, x) coloured) by (rewrite Hc; left; reflexivity).
    apply filter_In in Hin. destruct Hin as [Hin Hcol].
    apply in_region in Hin. rewrite (Hall x y) in Hcol by lia. discriminate.
Qed.

(** *** [extractColorBoxArea] *)

Lemma colorBoxArea_spec :
  0 <= height ->
  let from := JS.to_Z (JS.Math_floor (PrimFloat.mul (JS.of_Z height) 0.3)) in
  let colour := hasColor imageBuffer width channels in
  let top := fst (colorBoxArea imageBuffer width height channels) in
  let bottom := top + snd (colorBoxArea imageBuffer width height channels) - 1 in
  0 <= from
  /\ (forall y, from <= y < height -> colour y = true ->
        from <= top <= y /\ y <= bottom <= height - 1
        /\ colour top = true /\ colour bottom = true
        /\ (forall z, from <= z < top -> colour z = false)
        /\ (forall z, bottom < z < height -> colour z = false))
  /\ ((forall y, 0 <= y < height -> colour y = false) ->
      top = JS.to_Z (JS.Math_floor (PrimFloat.mul (JS.of_Z height) 0.6))
      /\ bottom = height - 1).
Proof.
  intros Hheight. cbv zeta. unfold colorBoxArea.
  set (from := JS.to_Z (JS.Math_floor (PrimFloat.mul (JS.of_Z height) 0.3))).
  assert (Hfrom : 0 <= from)
    by (apply floor_scaled_not_negative; [exact Hheight|reflexivity]).
  set (colour := hasColor imageBuffer width channels).
  cbn [fst snd]. split; [exact Hfrom|].
  destruct (List.find colour (reverse (seqZ 0 height))) as [last|] eqn:Hlast;
    destruct (List.find colour (seqZ from (height - from))) as [first|] eqn:Hfirst;
    cbn [default from_option]; unfold id.
  - destruct (find_last_seqZ _ _ _ _ Hlast) as (Hr2 & Hc2 & Hb2).
    destruct (find_first_seqZ _ _ _ _ Hfirst) as (Hr1 & Hc1 & Hb1).
    split.
    + intros y Hy Hcy.
      assert (Hfy : first <= y).
      { destruct (Z_le_gt_dec first y); [assumption|].
        rewrite Hb1 in Hcy by lia. discriminate. }
      assert (Hyl : y <= last).
      { destruct (Z_le_gt_dec y last); [assumption|].
        rewrite Hb2 in Hcy by lia. discriminate. }
      replace (first + (last - first + 1) - 1) with last by lia.
      split; [lia|]. split; [lia|]. split; [exact Hc1|]. split; [exact Hc2|].
      split; [exact Hb1|]. intros z Hz. apply Hb2. lia.
    + intros Hnone. rewrite Hnone in Hc2 by lia. discriminate.
  - destruct (find_last_seqZ _ _ _ _ Hlast) as (Hr2 & Hc2 & Hb2).
    split.
    + intros y Hy Hcy. exfalso.
      rewrite (find_none _ _ Hfirst y) in Hcy; [discriminate|].
      apply list_elem_of_In, elem_of_seqZ. lia.
    + intros Hnone. rewrite Hnone in Hc2 by lia. discriminate.
  - destruct (find_first_seqZ _ _ _ _ Hfirst) as (Hr1 & Hc1 & Hb1).
    split.
    + intros y Hy Hcy. exfalso.
      rewrite (find_none _ _ Hlast y) in Hcy; [discriminate|].
      apply list_elem_of_In, elem_of_reverse, elem_of_seqZ. lia.
    + intros Hnone. rewrite Hnone in Hc1 by lia. discriminate.
  - split.
    + intros y Hy Hcy. exfalso.
      rewrite (find_none _ _ Hfirst y) in Hcy; [discriminate|].
      apply list_elem_of_In, elem_of_seqZ. lia.
    + intros _. split; [reflexivity|lia].
Qed.

End Sampling.

(** X17.  [extractDominantColor] on a region all of whose pixels, and the
    corner pixel, lie in the buffer: it returns [null] exactly when the
    region, columns [startX] to [endX - 1] of rows [startY] to [endY], holds
    no pixel that is not background; so it returns [null] for a region
    without columns or rows. *)
Theorem extractDominantColor_null
    (imageBuffer : list Z) (width height channels startX endX startY endY : Z) :
  (forall x y, startX <= x < endX -> startY <= y <= endY ->
     readRGB imageBuffer width channels x y <> None) ->
  readRGB imageBuffer width channels (Z.min (endX - 1) (width - 1))
    (Z.min endY (height - 1)) <> None ->
  (extractDominantColor imageBuffer width height channels startX endX startY endY
   = Some None
   <-> forall x y, startX <= x < endX -> startY <= y <= endY ->
         SwatchExtractor.isWhiteOrNearWhite
           (pixelAt imageBuffer width channels x y) = true)
  /\ (endX <= startX \/ endY < startY ->
      extractDominantColor imageBuffer width height channels startX endX startY endY
      = Some None).
Proof.
  intros Hread Hcorner.
  destruct (extractDominantColor_spec imageBuffer width height channels
              startX endX startY endY Hread Hcorner) as [Hiff _].
  split; [exact Hiff|]. intros Hempty. apply Hiff. intros x y Hx Hy. lia.
Qed.

Lemma extractDominantColor_null_witness :
  extractDominantColor [255; 255; 255; 250; 250; 250] 2 1 3 0 2 0 0 = Some None.
Proof.
  refine (proj2 (proj1 (extractDominantColor_null
                          [255; 255; 255; 250; 250; 250] 2 1 3 0 2 0 0 _ _)) _).
  - intros x y Hx Hy.
    assert (Hy0 : y = 0) by lia. subst y.
    assert (Hx01 : x = 0 \/ x = 1) by lia.
    destruct Hx01 as [-> | ->]; vm_compute; discriminate.
  - vm_compute. discriminate.
  - intros x y Hx Hy.
    assert (Hy0 : y = 0) by lia. subst y.
    assert (Hx01 : x = 0 \/ x = 1) by lia.
    destruct Hx01 as [-> | ->]; vm_compute; reflexivity.
Defined.

(** X18.  [extractColorBoxArea] on a swatch image: the rows it cuts out
    start at the first row with a pixel that is not background from 30% of
    the height down and end at the last such row of the image, so that
    they hold every such row from 30% down, whenever there is one; when no
    row of the image has such a pixel they are the rows from 60% of the
    height down. *)
Theorem colorBoxArea_rows
    (imageBuffer : list Z) (width height channels : Z) :
  0 <= height ->
  let from := JS.to_Z (JS.Math_floor (PrimFloat.mul (JS.of_Z height) 0.3)) in
  let colour := hasColor imageBuffer width channels in
  let top := fst (colorBoxArea imageBuffer width height channels) in
  let bottom := top + snd (colorBoxArea imageBuffer width height channels) - 1 in
  0 <= from
  /\ (forall y, from <= y < height -> colour y = true ->
        from <= top <= y /\ y <= bottom <= height - 1
        /\ colour top = true /\ colour bottom = true
        /\ (forall z, from <= z < top -> colour z = false)
        /\ (forall z, bottom < z < height -> colour z = false))
  /\ ((forall y, 0 <= y < height -> colour y = false) ->
      top = JS.to_Z (JS.Math_floor (PrimFloat.mul (JS.of_Z height) 0.6))
      /\ bottom = height - 1).
Proof. apply colorBoxArea_spec. Qed.

Lemma colorBoxArea_rows_witness :
  let image := paintedImage 4 10 (fun x y => (5 <=? y) && (y <=? 7)) in
  0 <= JS.to_Z (JS.Math_floor (PrimFloat.mul (JS.of_Z 10) 0.3))
  /\ colorBoxArea image 4 10 3 = (5, 3).
Proof.
  intros image. split; [|vm_compute; reflexivity].
  exact (proj1 (colorBoxArea_rows image 4 10 3 ltac:(lia))).
Defined.

(** *** Images whose buffer holds every pixel *)

Lemma byteAt_inside (buf : list Z) (i : Z) :
  0 <= i < Z.of_nat (List.length buf) -> exists v, JS.byteAt buf i = Some v.
Proof.
  intros Hi. unfold JS.byteAt. destruct (Z.ltb_spec i 0); [lia|].
  destruct (buf !! Z.to_nat i) as [v|] eqn:E; [exists v; reflexivity|].
  apply lookup_ge_None in E. lia.
Qed.

Lemma readRGB_inside (imageBuffer : list Z) (width height channels x y : Z) :
  Z.of_nat (List.length imageBuffer) = width * height * channels ->
  3 <= channels ->
  0 <= x < width -> 0 <= y < height ->
  readRGB imageBuffer width channels x y <> None.
Proof.
  intros Hlen Hch Hx Hy. unfold readRGB, pixelAt.
  cbn [Pixel.r Pixel.g Pixel.b].
  set (pixelIndex := (y * width + x) * channels).
  assert (Hpixel : 0 <= y * width + x <= width * height - 1) by nia.
  assert (Hindex : 0 <= pixelIndex /\ pixelIndex + 2 < width * height * channels)
    by (subst pixelIndex; nia).
  destruct (byteAt_inside imageBuffer pixelIndex) as [r ->]; [lia|].
  destruct (byteAt_inside imageBuffer (pixelIndex + 1)) as [g ->]; [lia|].
  destruct (byteAt_inside imageBuffer (pixelIndex + 2)) as [b ->]; [lia|].
  discriminate.
Qed.

Lemma detectColors_total
    (imageBuffer : list Z) (width height channels : Z) (boxes : list Boundary.t) :
  (forall b, In b boxes ->
     exists found, colorOfBox imageBuffer width height channels b = Some found) ->
  forall acc,
  exists colors,
    foldl
      (fun colors colorBoxBounds =>
         colors ← colors;
         found ← colorOfBox imageBuffer width height channels colorBoxBounds;
         Some (colors ++ found))
      (Some acc) boxes = Some colors.
Proof.
  induction boxes as [|b boxes IH]; intros Hall acc.
  - exists acc. reflexivity.
  - cbn [foldl mbind option_bind].
    destruct (Hall b (or_introl eq_refl)) as [found ->].
    apply IH. intros b' Hb'. apply Hall. right. exact Hb'.
Qed.

(** X19.  [detectColorsInSwatch] on an image of at least three channels
    whose buffer holds every pixel ([width * height * channels] bytes):
    every pixel that it samples lies in the buffer, and it returns a list
    of colours. *)
Theorem detectColorsInSwatch_on_a_full_buffer
    (imageBuffer : list Z) (width height channels : Z) :
  0 < width -> 0 < height -> 3 <= channels ->
  Z.of_nat (List.length imageBuffer) = width * height * channels ->
  exists colors,
    detectColorsInSwatch imageBuffer width height channels = Some colors.
Proof.
  intros Hw Hh Hch Hlen. unfold detectColorsInSwatch.
  destruct (Z.eqb_spec width 0); [lia|]. destruct (Z.eqb_spec height 0); [lia|].
  destruct (Z.eqb_spec channels 0); [lia|]. cbn [orb].
  apply detectColors_total. intros b Hb.
  destruct (findColorBoxBoundaries_spec imageBuffer width height channels)
    as [Hboxes _].
  destruct (Hboxes b Hb) as ((H1 & H2 & _) & H3).
  unfold colorOfBox.
  pose proof (findColorBoxVerticalBoundaries_spec imageBuffer width height
                channels b) as Hrows.
  destruct (findColorBoxVerticalBoundaries imageBuffer width height channels b)
    as [[startY endY]|]; [|eexists; reflexivity].
  cbv zeta in Hrows. destruct Hrows as (R1 & R2 & R3 & R4 & _).
  specialize (R4 ltac:(lia)).
  destruct (extractDominantColor_spec imageBuffer width height channels
              (Boundary.startX b) (Boundary.endX b) startY endY)
    as [_ [result ->]].
  - intros x y Hx Hy. apply (readRGB_inside _ _ height); [exact Hlen|exact Hch|lia|lia].
  - apply (readRGB_inside _ _ height); [exact Hlen|exact Hch|lia|lia].
  - cbn [mbind option_bind]. eexists. reflexivity.
Qed.

Lemma detectColorsInSwatch_on_a_full_buffer_witness :
  exists colors,
    detectColorsInSwatch
      (paintedImage 40 8 (fun x y => (5 <=? x) && (x <? 30))) 40 8 3
    = Some colors.
Proof.
  apply detectColorsInSwatch_on_a_full_buffer; [lia|lia|lia|].
  vm_compute. reflexivity.
Defined.

(** ** The reference extractor: the colour boxes of an anchor row *)

Lemma guardedPixel_defined (width : Z) (rawBuffer : list Z) (x y : Z)
    (color : Sampled.t) :
  0 <= width -> 0 <= x -> 0 <= y ->
  guardedPixel width rawBuffer x y = Some color -> definedSample color.
Proof.
  intros Hw Hx Hy. unfold guardedPixel.
  set (pixelIndex := (y * width + x) * 3).
  assert (Hindex : 0 <= pixelIndex) by (subst pixelIndex; nia).
  destruct (Z.ltb_spec (pixelIndex + 2) (Z.of_nat (List.length rawBuffer)));
    [|discriminate].
  destruct (byteAt_inside rawBuffer pixelIndex) as [r Hr]; [lia|].
  destruct (byteAt_inside rawBuffer (pixelIndex + 1)) as [g Hg]; [lia|].
  destruct (byteAt_inside rawBuffer (pixelIndex + 2)) as [b Hb]; [lia|].
  rewrite Hr, Hg, Hb. intros [= <-]. exists (RGB.mk r g b). reflexivity.
Qed.

Lemma strided_from_from (n : nat) :
  forall (v to step x : Z),
  0 < step -> In x (JS.strided_from n v to step) -> v <= x.
Proof.
  induction n as [|n IH]; intros v to step x Hstep; [intros []|].
  cbn [JS.strided_from]. destruct (v <? to); [|intros []].
  intros [<-|Hin]; [lia|]. specialize (IH _ _ _ _ Hstep Hin). lia.
Qed.

Lemma calculateAverageColor_defined (samples : list Sampled.t) :
  Forall definedSample samples -> definedSample (calculateAverageColor samples).
Proof.
  intros Hall. unfold calculateAverageColor.
  destruct samples as [|sample0 samples0] eqn:E;
    [exists (RGB.mk 0 0 0); reflexivity|].
  rewrite <- E in *. clear E sample0 samples0.
  assert (Hsum : forall acc, definedSample acc ->
            definedSample
              (fold_left
                 (fun acc sample =>
                    Sampled.mk (addChannel (Sampled.r acc) (Sampled.r sample))
                      (addChannel (Sampled.g acc) (Sampled.g sample))
                      (addChannel (Sampled.b acc) (Sampled.b sample)))
                 samples acc)).
  { induction Hall as [|sample samples [c ->] _ IH]; intros acc Hacc; [exact Hacc|].
    cbn [fold_left]. apply IH. destruct Hacc as [a ->].
    cbn [Sampled.r Sampled.g Sampled.b addChannel].
    exists (RGB.mk (RGB.r a + RGB.r c) (RGB.g a + RGB.g c) (RGB.b a + RGB.b c)).
    reflexivity. }
  destruct (Hsum (Sampled.mk (Some 0) (Some 0) (Some 0))) as [total ->];
    [exists (RGB.mk 0 0 0); reflexivity|].
  cbn [Sampled.r Sampled.g Sampled.b]. eexists (RGB.mk _ _ _). reflexivity.
Qed.

Lemma sampleColorBoxRegion_defined (width : Z) (rawBuffer : list Z)
    (startX endX startY endY : Z) :
  0 <= width -> 0 <= startX <= endX -> 0 <= startY <= endY ->
  definedSample (sampleColorBoxRegion width rawBuffer startX endX startY endY).
Proof.
  intros Hw Hx Hy. unfold sampleColorBoxRegion.
  set (stepX := Z.max 1 _). set (stepY := Z.max 1 _).
  set (colorSamples := mbind _ _).
  assert (Hall : Forall definedSample colorSamples).
  { apply Forall_forall. intros color Hin. subst colorSamples.
    apply list_elem_of_In, list_elem_of_bind in Hin. destruct Hin as (y & Hin & Hys).
    apply list_elem_of_bind in Hin. destruct Hin as (x & Hin & Hxs).
    apply list_elem_of_In in Hys, Hxs.
    apply strided_from_from in Hys; [|subst stepY; lia].
    apply strided_from_from in Hxs; [|subst stepX; lia].
    destruct (guardedPixel width rawBuffer x y) as [sample|] eqn:E;
      [|apply elem_of_nil in Hin; destruct Hin].
    destruct (negb (isWhiteSample sample));
      [|apply elem_of_nil in Hin; destruct Hin].
    apply list_elem_of_singleton in Hin. subst color.
    apply (guardedPixel_defined width rawBuffer x y); [exact Hw|lia|lia|exact E]. }
  destruct colorSamples as [|sample samples] eqn:E.
  - destruct (guardedPixel width rawBuffer _ _) as [color|] eqn:Hcentre;
      [|exists (RGB.mk 128 128 128); reflexivity].
    apply guardedPixel_defined in Hcentre; [exact Hcentre|exact Hw| |];
      apply round_not_negative, div_not_negative;
      try reflexivity; apply of_Z_not_negative; lia.
  - apply calculateAverageColor_defined. exact Hall.
Qed.

Section AnchorRow.

Variables (width height : Z) (rawBuffer : list Z) (redBox : BoundingBox.t).

Let scanStartX : Z := BoundingBox.x redBox + BoundingBox.width redBox + 5.

Let placed (b : ColorRegionBox.t) : Prop :=
  scanStartX <= ColorRegionBox.x b
  /\ 9 <= ColorRegionBox.width b
  /\ ColorRegionBox.y b = BoundingBox.y redBox
  /\ ColorRegionBox.height b = BoundingBox.height redBox.

Let apart : list ColorRegionBox.t -> Prop :=
  leftToRight ColorRegionBox.x
    (fun b => ColorRegionBox.x b + ColorRegionBox.width b + 7).

(** The boxes closed, and the box that is open, when the columns before
    [x] have been scanned. *)
Let rowUpTo (x : Z) (st : RowScan) : Prop :=
  let '(inColorBox, colorBoxStart, consecutiveWhitePixels, colorBoxes) := st in
  (forall b, In b colorBoxes ->
     placed b /\ ColorRegionBox.x b + ColorRegionBox.width b + 7 < x)
  /\ apart colorBoxes
  /\ (inColorBox = true ->
      scanStartX <= colorBoxStart < x
      /\ 0 <= consecutiveWhitePixels < 8
      /\ colorBoxStart + consecutiveWhitePixels < x
      /\ forall b, In b colorBoxes ->
           ColorRegionBox.x b + ColorRegionBox.width b + 7 < colorBoxStart).

Lemma rowScanStep_row (scanY x : Z) (st : RowScan) :
  scanStartX <= x ->
  rowUpTo x st ->
  rowUpTo (x + 1) (rowScanStep width rawBuffer redBox scanY st x).
Proof.
  intros Hx. destruct st as [[[inColorBox colorBoxStart] cons] colorBoxes].
  intros (Hall & Hapart & Hopen). unfold rowScanStep.
  assert (Hweak : forall b, In b colorBoxes ->
                    placed b /\ ColorRegionBox.x b + ColorRegionBox.width b + 7 < x + 1).
  { intros b Hb. destruct (Hall b Hb). split; [assumption|lia]. }
  assert (Hkeep : rowUpTo (x + 1) (inColorBox, colorBoxStart, cons, colorBoxes)).
  { split; [exact Hweak|]. split; [exact Hapart|]. intros Hin.
    destruct (Hopen Hin) as (H1 & H2 & H3 & H4).
    split; [lia|]. split; [lia|]. split; [lia|exact H4]. }
  destruct (guardedPixel width rawBuffer x scanY) as [color|]; [|exact Hkeep].
  destruct (isWhiteSample color) eqn:Hw; cbn [negb andb].
  - (* background *)
    destruct inColorBox.
    + destruct (Hopen eq_refl) as (H1 & H2 & H3 & H4).
      unfold minimumWhiteGap.
      destruct (Z.leb_spec 8 (cons + 1)) as [Hgap|Hgap]; cbn [andb].
      * destruct (Z.ltb_spec 8 (x - 8 + 1 - colorBoxStart)) as [Hwide|Hnarrow];
          (split; [|split; [|intros [=]]]).
        -- intros b Hb. apply in_app_or in Hb. destruct Hb as [Hb|[<-|[]]].
           ++ apply Hweak, Hb.
           ++ unfold placed.
              cbn [ColorRegionBox.x ColorRegionBox.y ColorRegionBox.width
                   ColorRegionBox.height].
              split; [split; [lia|split; [lia|split; reflexivity]]|lia].
        -- apply leftToRight_snoc; [exact Hapart|].
           intros b Hb. cbn [ColorRegionBox.x]. apply H4, Hb.
        -- exact Hweak.
        -- exact Hapart.
      * split; [exact Hweak|]. split; [exact Hapart|]. intros _.
        split; [lia|]. split; [lia|]. split; [lia|exact H4].
    + cbn [andb]. rewrite andb_false_r.
      split; [exact Hweak|]. split; [exact Hapart|]. intros [=].
  - (* colour *)
    destruct inColorBox; cbn [negb andb].
    + rewrite andb_true_r. unfold minimumWhiteGap. cbn.
      destruct (Hopen eq_refl) as (H1 & H2 & H3 & H4).
      split; [exact Hweak|]. split; [exact Hapart|]. intros _.
      split; [lia|]. split; [lia|]. split; [lia|exact H4].
    + split; [exact Hweak|]. split; [exact Hapart|]. intros _.
      split; [lia|]. split; [lia|]. split; [lia|].
      intros b Hb. destruct (Hall b Hb). assumption.
Qed.

(** What an iteration does to the list of boxes: nothing, or it closes the
    open box, eight columns of background after its last column. *)
Lemma rowScanStep_pushes (scanY x : Z) (inColorBox : bool)
    (colorBoxStart cons : Z) (colorBoxes : list ColorRegionBox.t) :
  let after :=
    snd (rowScanStep width rawBuffer redBox scanY
           (inColorBox, colorBoxStart, cons, colorBoxes) x) in
  after = colorBoxes
  \/ (inColorBox = true /\ 8 <= cons + 1
      /\ after
         = colorBoxes
           ++ [ColorRegionBox.mk colorBoxStart (BoundingBox.y redBox)
                 (x - 8 + 1 - colorBoxStart) (BoundingBox.height redBox)
                 (sampleColorBoxRegion width rawBuffer colorBoxStart (x - 8 + 1)
                    (BoundingBox.y redBox)
                    (BoundingBox.y redBox + BoundingBox.height redBox))]).
Proof.
  cbv zeta. unfold rowScanStep.
  destruct (guardedPixel width rawBuffer x scanY) as [color|]; [|left; reflexivity].
  destruct (isWhiteSample color); cbn [negb andb].
  - unfold minimumWhiteGap. destruct inColorBox.
    + destruct (Z.leb_spec 8 (cons + 1)); cbn [andb snd]; [|left; reflexivity].
      destruct (8 <? x - 8 + 1 - colorBoxStart); [|left; reflexivity].
      right. split; [reflexivity|]. split; [assumption|reflexivity].
    + rewrite andb_false_r. left. reflexivity.
  - destruct inColorBox; cbn [negb andb snd]; [|left; reflexivity].
    unfold minimumWhiteGap. cbn. left. reflexivity.
Qed.

Lemma rowScanStep_defined (scanY x : Z) (st : RowScan) :
  0 <= width -> 0 <= scanStartX ->
  0 <= BoundingBox.y redBox -> 0 <= BoundingBox.height redBox ->
  scanStartX <= x ->
  rowUpTo x st ->
  (forall b, In b (snd st) -> definedSample (ColorRegionBox.avgColor b)) ->
  forall b, In b (snd (rowScanStep width rawBuffer redBox scanY st x)) ->
    definedSample (ColorRegionBox.avgColor b).
Proof.
  intros Hw Hs Hy Hh Hx Hst Hdef.
  destruct st as [[[inColorBox colorBoxStart] cons] colorBoxes].
  destruct Hst as (_ & _ & Hopen). cbn [snd] in Hdef.
  destruct (rowScanStep_pushes scanY x inColorBox colorBoxStart cons colorBoxes)
    as [-> | (-> & Hgap & ->)]; [exact Hdef|].
  destruct (Hopen eq_refl) as (H1 & H2 & H3 & _).
  intros b Hb. apply in_app_or in Hb. destruct Hb as [Hb|[<-|[]]]; [apply Hdef, Hb|].
  cbn [ColorRegionBox.avgColor]. apply sampleColorBoxRegion_defined; lia.
Qed.

Lemma findColorBoxesInRow_spec (colorBoxes : list ColorRegionBox.t) :
  findColorBoxesInRow width height rawBuffer redBox = Some colorBoxes ->
  (forall b, In b colorBoxes ->
     placed b /\ ColorRegionBox.x b + ColorRegionBox.width b <= width)
  /\ apart colorBoxes
  /\ (0 <= scanStartX ->
      0 <= BoundingBox.y redBox -> 0 <= BoundingBox.height redBox ->
      forall b, In b colorBoxes -> definedSample (ColorRegionBox.avgColor b)).
Proof.
  unfold findColorBoxesInRow.
  destruct ((width =? 0) || (height =? 0)); [discriminate|].
  fold scanStartX.
  set (scanY := JS.to_Z _).
  destruct (Z_le_gt_dec width scanStartX) as [Hle|Hgt].
  { rewrite seqZ_nil by lia. cbn [foldl]. intros [= <-].
    split; [intros b []|]. split; [apply leftToRight_nil|intros _ _ _ b []]. }
  set (sampled (st : RowScan) :=
         0 <= scanStartX ->
         0 <= BoundingBox.y redBox -> 0 <= BoundingBox.height redBox ->
         forall b, In b (snd st) -> definedSample (ColorRegionBox.avgColor b)).
  assert (Hst : (fun x st => rowUpTo x st /\ sampled st) width
                  (foldl (rowScanStep width rawBuffer redBox scanY)
                     (false, 0, 0, []) (seqZ scanStartX (width - scanStartX)))).
  { replace width with (scanStartX + (width - scanStartX)) at 1 by lia.
    apply (foldl_seqZ_invariant _ (fun x st => rowUpTo x st /\ sampled st)); [lia| |].
    - split; [|intros _ _ _ b []].
      split; [intros b []|]. split; [apply leftToRight_nil|intros [=]].
    - intros x st Hx [Hst Hdef].
      split; [apply rowScanStep_row; [lia|exact Hst]|].
      intros Hs Hy Hh. apply (rowScanStep_defined scanY x st); try lia; auto. }
  cbv beta in Hst.
  destruct (foldl _ _ _) as [[[inColorBox colorBoxStart] cons] boxes].
  destruct Hst as [(Hall & Hapart & Hopen) Hdef]. unfold sampled in Hdef.
  cbn [snd] in Hdef.
  assert (Hclosed : forall b, In b boxes ->
                      placed b /\ ColorRegionBox.x b + ColorRegionBox.width b <= width).
  { intros b Hb. destruct (Hall b Hb). split; [assumption|lia]. }
  destruct inColorBox;
    [|intros [= <-]; split; [exact Hclosed|split; [exact Hapart|exact Hdef]]].
  destruct (Hopen eq_refl) as (H1 & H2 & H3 & H4).
  destruct (Z.ltb_spec 8 (width - colorBoxStart)) as [Hwide|Hnarrow];
    intros [= <-]; [|split; [exact Hclosed|split; [exact Hapart|exact Hdef]]].
  split; [|split].
  - intros b Hb. apply in_app_or in Hb. destruct Hb as [Hb|[<-|[]]].
    + apply Hclosed, Hb.
    + unfold placed.
      cbn [ColorRegionBox.x ColorRegionBox.y ColorRegionBox.width
           ColorRegionBox.height].
      split; [split; [lia|split; [lia|split; reflexivity]]|lia].
  - apply leftToRight_snoc; [exact Hapart|].
    intros b Hb. cbn [ColorRegionBox.x]. apply H4, Hb.
  - intros Hs Hy Hh b Hb. apply in_app_or in Hb.
    destruct Hb as [Hb|[<-|[]]]; [apply Hdef; assumption|].
    cbn [ColorRegionBox.avgColor]. apply sampleColorBoxRegion_defined; lia.
Qed.

End AnchorRow.

(** X20.  [findColorBoxesInRow] throws when the image has no width or no
    height; otherwise every colour box it returns for an anchor box starts
    at least 5 columns to the right of the anchor box, is at least 9
    columns wide, ends inside the image, has the top and the height of the
    anchor box, and the boxes come left to right with at least 8 columns
    between one and the next. *)
Theorem findColorBoxesInRow_boxes
    (width height : Z) (rawBuffer : list Z) (redBox : BoundingBox.t) :
  match findColorBoxesInRow width height rawBuffer redBox with
  | Some colorBoxes =>
      width <> 0 /\ height <> 0
      /\ (forall b, In b colorBoxes ->
            BoundingBox.x redBox + BoundingBox.width redBox + 5 <= ColorRegionBox.x b
            /\ 9 <= ColorRegionBox.width b
            /\ ColorRegionBox.x b + ColorRegionBox.width b <= width
            /\ ColorRegionBox.y b = BoundingBox.y redBox
            /\ ColorRegionBox.height b = BoundingBox.height redBox)
      /\ (forall (i j : nat) b1 b2, (i < j)%nat ->
            colorBoxes !! i = Some b1 -> colorBoxes !! j = Some b2 ->
            ColorRegionBox.x b1 + ColorRegionBox.width b1 + 8 <= ColorRegionBox.x b2)
  | None => width = 0 \/ height = 0
  end.
Proof.
  destruct (findColorBoxesInRow width height rawBuffer redBox) as [colorBoxes|] eqn:E.
  - destruct (findColorBoxesInRow_spec _ _ _ _ _ E) as (Hall & Hapart & _).
    unfold findColorBoxesInRow in E.
    destruct (Z.eqb_spec width 0) as [|Hw]; [discriminate|].
    destruct (Z.eqb_spec height 0) as [|Hh]; [discriminate|].
    split; [exact Hw|]. split; [exact Hh|]. split.
    + intros b Hb. destruct (Hall b Hb) as [(H1 & H2 & H3 & H4) H5].
      split; [exact H1|]. split; [exact H2|]. split; [exact H5|].
      split; [exact H3|exact H4].
    + intros i j b1 b2 Hij H1 H2. pose proof (Hapart i j b1 b2 Hij H1 H2) as H.
      cbv beta in H. lia.
  - unfold findColorBoxesInRow in E.
    destruct (Z.eqb_spec width 0) as [|Hw]; [left; assumption|].
    destruct (Z.eqb_spec height 0) as [|Hh]; [right; assumption|].
    cbn [orb] in E. exfalso. revert E.
    destruct (foldl _ _ _) as [[[inColorBox ?] ?] ?].
    destruct inColorBox; [destruct (_ <? _)|]; discriminate.
Qed.

(** X21.  The colour that [findColorBoxesInRow] samples for a colour box
    is a colour: when the anchor box lies in the image (its top, its height
    and the column where the scan starts are not negative), no channel of
    the [avgColor] of a box is [undefined] or [NaN], whatever the size of
    the buffer. *)
Theorem findColorBoxesInRow_samples_colours
    (width height : Z) (rawBuffer : list Z) (redBox : BoundingBox.t)
    (colorBoxes : list ColorRegionBox.t) :
  findColorBoxesInRow width height rawBuffer redBox = Some colorBoxes ->
  0 <= BoundingBox.x redBox + BoundingBox.width redBox + 5 ->
  0 <= BoundingBox.y redBox ->
  0 <= BoundingBox.height redBox ->
  forall b, In b colorBoxes ->
    exists rgb : RGB.t,
      ColorRegionBox.avgColor b
      = Sampled.mk (Some (RGB.r rgb)) (Some (RGB.g rgb)) (Some (RGB.b rgb)).
Proof.
  intros E Hs Hy Hh b Hb.
  destruct (findColorBoxesInRow_spec _ _ _ _ _ E) as (_ & _ & Hdef).
  exact (Hdef Hs Hy Hh b Hb).
Qed.

Lemma findColorBoxesInRow_samples_colours_witness :
  let image := paintedImage 45 2 (fun x y => (10 <=? x) && (x <? 30)) in
  findColorBoxesInRow 45 2 image (BoundingBox.mk 0 0 2 2)
  = Some [ColorRegionBox.mk 10 0 20 2 (Sampled.mk (Some 40) (Some 45) (Some 80))]
  /\ exists rgb : RGB.t,
       Sampled.mk (Some 40) (Some 45) (Some 80)
       = Sampled.mk (Some (RGB.r rgb)) (Some (RGB.g rgb)) (Some (RGB.b rgb)).
Proof.
  intros image.
  assert (E : findColorBoxesInRow 45 2 image (BoundingBox.mk 0 0 2 2)
              = Some [ColorRegionBox.mk 10 0 20 2
                        (Sampled.mk (Some 40) (Some 45) (Some 80))])
    by (vm_compute; reflexivity).
  split; [exact E|].
  exact (findColorBoxesInRow_samples_colours 45 2 image (BoundingBox.mk 0 0 2 2) _ E
           ltac:(cbn; lia) ltac:(cbn; lia) ltac:(cbn; lia)
           (ColorRegionBox.mk 10 0 20 2 (Sampled.mk (Some 40) (Some 45) (Some 80)))
           (or_introl eq_refl)).
Defined.

(** ** Pixel tests and colour strings of the reference extractor *)

(** Evaluated on the 766 sums of three bytes. *)
Lemma brightness_thresholds_on_bytes :
  all_from 766 0
    (fun s =>
       let brightness := PrimFloat.div (JS.of_Z s) 3 in
       Bool.eqb (PrimFloat.ltb 230 brightness) (690 <? s)
       && Bool.eqb (PrimFloat.ltb brightness 250 && PrimFloat.ltb 20 brightness)
            ((s <? 750) && (60 <? s)))
  = true.
Proof. vm_compute. reflexivity. Qed.

(** X22.  The brightness tests of the reference extractor on an 8-bit
    pixel, in terms of the sum of its channels: background for
    [isWhiteOrNearWhite] above 720, white space for [isWhiteSpacePixel]
    above 690, part of a colour box for [isColorBoxPixel] strictly between
    60 and 750.  So every background pixel is white space, and an anchor
    red pixel is never background nor white space and always counts as
    part of a colour box. *)
Theorem pixel_tests_on_bytes (color : RGB.t) :
  rgb8 color ->
  let sum := RGB.r color + RGB.g color + RGB.b color in
  ReferenceColorExtractor.isWhiteOrNearWhite color = (720 <? sum)
  /\ isWhiteSpacePixel color = (690 <? sum)
  /\ isColorBoxPixel color = (sum <? 750) && (60 <? sum)
  /\ (ReferenceColorExtractor.isWhiteOrNearWhite color = true ->
      isWhiteSpacePixel color = true)
  /\ (isBrightRedPixel color = true ->
      ReferenceColorExtractor.isWhiteOrNearWhite color = false
      /\ isWhiteSpacePixel color = false
      /\ isColorBoxPixel color = true).
Proof.
  intros (Hr & Hg & Hb) sum. unfold channel in *.
  assert (Hsum : 0 <= sum < 0 + Z.of_nat 766) by (subst sum; lia).
  pose proof (all_from_spec _ _ _ brightness_thresholds_on_bytes sum Hsum) as H.
  pose proof (all_from_spec _ _ _ brightness_exact_on_bytes sum Hsum) as H240.
  cbv beta zeta in H, H240. apply andb_prop in H. destruct H as [H1 H2].
  apply Bool.eqb_prop in H1, H2, H240.
  assert (E0 : ReferenceColorExtractor.isWhiteOrNearWhite color = (720 <? sum))
    by exact H240.
  assert (E1 : isWhiteSpacePixel color = (690 <? sum)) by exact H1.
  assert (E2 : isColorBoxPixel color = (sum <? 750) && (60 <? sum)) by exact H2.
  split; [exact E0|]. split; [exact E1|]. split; [exact E2|].
  rewrite E0, E1, E2. split.
  - intros Hw. apply Z.ltb_lt in Hw. apply Z.ltb_lt. lia.
  - unfold isBrightRedPixel. intros Hred.
    apply andb_prop in Hred. destruct Hred as [Hred Hblue].
    apply andb_prop in Hred. destruct Hred as [Hred Hgreen].
    apply Z.ltb_lt in Hred, Hgreen, Hblue.
    split; [apply Z.ltb_ge; subst sum; lia|].
    split; [apply Z.ltb_ge; subst sum; lia|].
    apply andb_true_intro. split; apply Z.ltb_lt; subst sum; lia.
Qed.

Lemma pixel_tests_on_bytes_witness :
  isBrightRedPixel (RGB.mk 230 20 30) = true
  /\ isColorBoxPixel (RGB.mk 230 20 30) = true.
Proof.
  split; [reflexivity|].
  refine (proj2 (proj2 (proj2 (proj2 (proj2 (proj2
            (pixel_tests_on_bytes (RGB.mk 230 20 30) _)))) eq_refl))).
  unfold rgb8, channel; cbn; lia.
Defined.

(** Evaluated on the pairs of bytes: two bytes with the same two upper-case
    hexadecimal digits are the same byte. *)
Lemma hexPair_injective_on_bytes :
  all_from 256 0
    (fun c1 =>
       all_from 256 0
         (fun c2 =>
            implb (String.eqb (JS.toUpperCase (hexPair c1))
                     (JS.toUpperCase (hexPair c2)))
              (c1 =? c2)))
  = true.
Proof. vm_cast_no_check (eq_refl true). Qed.

Lemma upper_hexPair_injective (c1 c2 : Z) :
  channel c1 -> channel c2 ->
  JS.toUpperCase (hexPair c1) = JS.toUpperCase (hexPair c2) -> c1 = c2.
Proof.
  unfold channel. intros H1 H2 E.
  pose proof (all_from_spec _ _ _ hexPair_injective_on_bytes c1 ltac:(lia)) as H.
  cbv beta in H.
  pose proof (all_from_spec _ _ _ H c2 ltac:(lia)) as H'. cbv beta in H'.
  rewrite E, String.eqb_refl in H'. cbn in H'. apply Z.eqb_eq. exact H'.
Qed.

Lemma hexPair_cons (c : Z) (rest : string) :
  (JS.toUpperCase (hexPair c) ++ rest)%string
  = String (JS.upperChar (JS.hexDigit (c / 16)))
      (String (JS.upperChar (JS.hexDigit (c mod 16))) rest).
Proof. reflexivity. Qed.

(** X23.  [rgbToHex] on 8-bit colours: the string has 7 characters, of
    which the first is "#", and it determines the colour: two colours with
    the same string are the same colour. *)
Theorem rgbToHex_determines_the_colour (r1 g1 b1 r2 g2 b2 : Z) :
  channel r1 -> channel g1 -> channel b1 ->
  channel r2 -> channel g2 -> channel b2 ->
  String.length (PDFProcessor.rgbToHex r1 g1 b1) = 7%nat
  /\ JS.take_chars 1 (PDFProcessor.rgbToHex r1 g1 b1) = "#"
  /\ (PDFProcessor.rgbToHex r1 g1 b1 = PDFProcessor.rgbToHex r2 g2 b2 ->
      r1 = r2 /\ g1 = g2 /\ b1 = b2).
Proof.
  intros Hr1 Hg1 Hb1 Hr2 Hg2 Hb2.
  destruct (hexOf_bytes r1 g1 b1 Hr1 Hg1 Hb1) as [E1 U1].
  destruct (hexOf_bytes r2 g2 b2 Hr2 Hg2 Hb2) as [E2 U2].
  rewrite U1, U2, E1, E2.
  change (JS.toUpperCase ("#" ++ ?s)%string) with (String "#" (JS.toUpperCase s)).
  rewrite !toUpperCase_app, !hexPair_cons.
  split; [reflexivity|]. split; [reflexivity|].
  intros [= Ea Eb Ec Ed Ee Ef].
  assert (Hpair : forall c1 c2, channel c1 -> channel c2 ->
            JS.upperChar (JS.hexDigit (c1 / 16)) = JS.upperChar (JS.hexDigit (c2 / 16)) ->
            JS.upperChar (JS.hexDigit (c1 mod 16)) = JS.upperChar (JS.hexDigit (c2 mod 16)) ->
            c1 = c2).
  { intros c1 c2 H1 H2 Hhi Hlo. apply upper_hexPair_injective; [assumption..|].
    unfold hexPair. cbn [JS.toUpperCase]. rewrite Hhi, Hlo. reflexivity. }
  split; [apply Hpair; assumption|]. split; apply Hpair; assumption.
Qed.

Lemma rgbToHex_determines_the_colour_witness :
  String.length (PDFProcessor.rgbToHex 40 45 80) = 7%nat.
Proof.
  refine (proj1 (rgbToHex_determines_the_colour 40 45 80 0 0 0 _ _ _ _ _ _));
    unfold channel; lia.
Defined.

(** ** From the last resort of the extraction to the validated palette *)

Lemma fallback_entry_is_flagged (boundingBox : BoundingBox.t) (regionColor : RGB.t) :
  isOCRFailure
    (ReferenceColorExtractor.extractColorInfoEnhanced None None boundingBox
       regionColor) = true.
Proof.
  unfold isOCRFailure, hasGenericName. cbn.
  destruct (JS.toString (BoundingBox.x boundingBox)); cbn;
    rewrite orb_true_r; reflexivity.
Qed.

(** X24.  An entry that the extraction builds by its last resort (no
    text recognised) never reaches the validated palette with its made-up
    code when its region starts between columns -185 and 833: the
    validation replaces its code and name by those of the first table
    entry within 200 columns, and keeps its colour, hex string, Pantone
    label and region.  Outside these columns it is kept as built. *)
Theorem fallback_entry_is_corrected
    (boundingBox : BoundingBox.t) (regionColor : RGB.t) :
  let entry :=
    ReferenceColorExtractor.extractColorInfoEnhanced None None boundingBox
      regionColor in
  let x := BoundingBox.x boundingBox in
  (-185 <= x <= 833 ->
   exists g,
     findExpectedColorByPosition x = Some g
     /\ Main.finalColors [entry]
        = [Some (ReferenceColor.mk (ExpectedColor.code g) (ExpectedColor.name g)
                   "Unknown" regionColor
                   (PDFProcessor.rgbToHex (RGB.r regionColor) (RGB.g regionColor)
                      (RGB.b regionColor))
                   boundingBox)])
  /\ (x < -185 \/ 833 < x -> Main.finalColors [entry] = [Some entry]).
Proof.
  cbv zeta.
  pose proof (fallback_entry_is_flagged boundingBox regionColor) as Hflag.
  rewrite finalColors_corrected. cbn [map].
  unfold corrected. rewrite Hflag.
  change (BoundingBox.x
            (ReferenceColor.boundingBox
               (ReferenceColorExtractor.extractColorInfoEnhanced None None
                  boundingBox regionColor)))
    with (BoundingBox.x boundingBox).
  split.
  - intros Hx.
    destruct (findExpectedColorByPosition (BoundingBox.x boundingBox)) as [g|] eqn:Hg.
    + exists g. split; [reflexivity|]. reflexivity.
    + exfalso. revert Hg. unfold findExpectedColorByPosition, expectedColors, tolerance.
      cbn [List.find ExpectedColor.position].
      repeat match goal with
      | |- context [Z.abs ?a <=? 200] =>
          destruct (Z.leb_spec (Z.abs a) 200); [discriminate|]
      end.
      lia.
  - intros Hx.
    destruct (findExpectedColorByPosition (BoundingBox.x boundingBox)) as [g|] eqn:Hg;
      [|reflexivity].
    exfalso. apply findExpectedColorByPosition_Some in Hg. destruct Hg as [Hin Habs].
    unfold expectedColors, tolerance in *. cbn [In] in Hin.
    repeat (destruct Hin as [<-|Hin]; [cbn [ExpectedColor.position] in Habs; lia|]).
    destruct Hin.
Qed.

(** *** The swatches of a row *)





(** ** From the anchor boxes to the start of the swatch scan *)

Lemma closeBox_stacked (y : Z) (currentBox : option BoundingBox.t)
    (redBoxes : list BoundingBox.t) :
  stacked y (currentBox, redBoxes) ->
  stacked (y + 1) (None, closeBox currentBox redBoxes).
Proof.
  intros (Hall & Hltr & Hcur). cbn [fst snd] in *.
  assert (Hweak : forall b, In b redBoxes -> SwatchExtractor.bottom b < y + 1).
  { intros b Hb. specialize (Hall b Hb). lia. }
  unfold closeBox. destruct currentBox as [c|].
  - destruct (Hcur c eq_refl) as (Hc & Hh & Hbelow).
    destruct (8 <=? BoundingBox.height c).
    + split; [|split; [|intros ? [=]]]; cbn [fst snd].
      * intros b Hb. apply in_app_or in Hb. destruct Hb as [Hb|[<-|[]]].
        -- apply Hweak, Hb.
        -- unfold SwatchExtractor.bottom. lia.
      * apply leftToRight_snoc; [exact Hltr|exact Hbelow].
    + split; [exact Hweak|]. split; [exact Hltr|intros ? [=]].
  - split; [exact Hweak|]. split; [exact Hltr|intros ? [=]].
Qed.

Lemma groupRow_stacked (width y : Z) (row : list bool)
    (st : option BoundingBox.t * list BoundingBox.t) :
  stacked y st -> stacked (y + 1) (groupRow width y row st).
Proof.
  destruct st as [currentBox redBoxes]. intros Hst.
  rewrite groupRow_cases. destruct (anchorRow width row).
  - destruct Hst as (Hall & Hltr & Hcur). cbn [fst snd] in *.
    split; [|split]; cbn [fst snd].
    + intros b Hb. specialize (Hall b Hb). lia.
    + exact Hltr.
    + intros c [= <-]. destruct currentBox as [box|].
      * destruct (Hcur box eq_refl) as (Hc & Hh & Hbelow).
        cbn [BoundingBox.y BoundingBox.height].
        split; [lia|]. split; [lia|exact Hbelow].
      * cbn [BoundingBox.y BoundingBox.height].
        split; [lia|]. split; [lia|exact Hall].
  - apply closeBox_stacked. exact Hst.
Qed.

Lemma groupRows_stacked (width : Z) (rows : list (list bool)) :
  forall (y : Z) (st : option BoundingBox.t * list BoundingBox.t),
  stacked y st ->
  stacked (y + Z.of_nat (List.length rows)) (groupRows width rows y st).
Proof.
  induction rows as [|row rows IH]; intros y st Hst.
  - cbn. rewrite Z.add_0_r. exact Hst.
  - cbn [groupRows List.length].
    replace (y + Z.of_nat (S (List.length rows)))
      with (y + 1 + Z.of_nat (List.length rows)) by lia.
    apply IH, groupRow_stacked, Hst.
Qed.

Lemma findRedAnchorBoxes_stacked (width height : Z) (rawBuffer : list Z)
    (redBoxes : list BoundingBox.t) :
  findRedAnchorBoxes width height rawBuffer = Some redBoxes ->
  leftToRight BoundingBox.y SwatchExtractor.bottom redBoxes.
Proof.
  unfold findRedAnchorBoxes.
  destruct ((width =? 0) || (height =? 0)); [discriminate|].
  pose proof (groupRows_stacked width (redPixelMatrix width height rawBuffer) 0
                (None, [])) as Hst.
  destruct (groupRows width (redPixelMatrix width height rawBuffer) 0 (None, []))
    as [currentBox pushed].
  intros [= <-].
  assert (H0 : stacked 0 (None, [])).
  { split; [intros b []|]. split; [apply leftToRight_nil|intros ? [=]]. }
  destruct (closeBox_stacked _ _ _ (Hst H0)) as (_ & Hltr & _). exact Hltr.
Qed.

(** X26.  The anchor boxes that [findRedAnchorBoxes] returns come top to
    bottom, each ending above the row where the next one starts; so the
    scan for swatches, which [findSwatchStartingPosition] starts 200 rows
    below the lowest anchor box, starts 200 rows below the last box of the
    list, or at row [height - 100] when that is higher up, and at row 0
    when there is no box. *)
Theorem swatch_scan_starts_below_the_last_anchor
    (width height : Z) (rawBuffer : list Z) (redBoxes : list BoundingBox.t) :
  findRedAnchorBoxes width height rawBuffer = Some redBoxes ->
  leftToRight BoundingBox.y (fun b => BoundingBox.y b + BoundingBox.height b)
    redBoxes
  /\ SwatchExtractor.findSwatchStartingPosition redBoxes height
     = match list.last redBoxes with
       | Some lastBox =>
           Z.min (BoundingBox.y lastBox + BoundingBox.height lastBox + 200)
             (height - 100)
       | None => 0
       end.
Proof.
  intros Hfound.
  pose proof (findRedAnchorBoxes_stacked _ _ _ _ Hfound) as Hltr.
  split; [exact Hltr|].
  assert (Hheights : forall b, In b redBoxes -> 1 <= BoundingBox.height b).
  { intros b Hb. unfold findRedAnchorBoxes in Hfound.
    destruct ((width =? 0) || (height =? 0)); [discriminate|].
    assert (Hinv : grouped width (redPixelMatrix width height rawBuffer)
                     (groupRows width (redPixelMatrix width height rawBuffer) 0
                        (None, []))).
    { apply (groupRows_grouped width (redPixelMatrix width height rawBuffer) []
               (None, [])).
      split; cbn; [intros ? []|discriminate]. }
    destruct (groupRows width (redPixelMatrix width height rawBuffer) 0 (None, []))
      as [currentBox pushed].
    injection Hfound as <-.
    destruct (closeBox_grouped width _ [] currentBox pushed Hinv b Hb)
      as [Hover _].
    destruct Hover as (_ & Hh & _). exact Hh. }
  destruct redBoxes as [|first rest] eqn:Eboxes; [reflexivity|].
  rewrite <- Eboxes in *.
  destruct (list.last redBoxes) as [lastBox|] eqn:Hlast.
  2:{ apply last_None in Hlast. rewrite Eboxes in Hlast. discriminate. }
  rewrite Eboxes. unfold SwatchExtractor.findSwatchStartingPosition.
  destruct (lastRedBox_is_lowest rest first) as [Hin Hmax].
  set (lowest := fold_left _ rest first) in *. rewrite <- Eboxes in Hin, Hmax.
  assert (Hsame : SwatchExtractor.bottom lowest = SwatchExtractor.bottom lastBox).
  { rewrite last_lookup in Hlast.
    assert (HlastIn : In lastBox redBoxes)
      by (apply list_elem_of_In, list_elem_of_lookup; eauto).
    pose proof (Hmax lastBox HlastIn) as Hle.
    apply list_elem_of_In, list_elem_of_lookup in Hin. destruct Hin as [i Hi].
    pose proof (lookup_lt_Some _ _ _ Hi) as Hlen.
    destruct (Nat.eq_dec i (Nat.pred (List.length redBoxes))) as [->|Hne].
    - rewrite Hlast in Hi. injection Hi as ->. reflexivity.
    - exfalso.
      pose proof (Hltr i (Nat.pred (List.length redBoxes)) lowest lastBox
                    ltac:(lia) Hi Hlast) as Hlt.
      pose proof (Hheights lastBox HlastIn).
      unfold SwatchExtractor.bottom in *. lia. }
  cbv zeta. fold lowest. rewrite Hsame. reflexivity.
Qed.

Lemma swatch_scan_starts_below_the_last_anchor_witness :
  let rawBuffer := paintRows 100 (repeat (0, 9) 9%nat) in
  findRedAnchorBoxes 100 400 rawBuffer = Some [BoundingBox.mk 0 0 10 9]
  /\ SwatchExtractor.findSwatchStartingPosition [BoundingBox.mk 0 0 10 9] 400 = 209.
Proof.
  intros rawBuffer.
  assert (E : findRedAnchorBoxes 100 400 rawBuffer = Some [BoundingBox.mk 0 0 10 9])
    by (vm_compute; reflexivity).
  split; [exact E|].
  exact (proj2 (swatch_scan_starts_below_the_last_anchor 100 400 rawBuffer _ E)).
Defined.
